(** * filter1d: the time-domain sliding-window filtering engine of GMT

    A shallow embedding of [src/filter1d.c] (functions
    [filter1d_boxcar_weight], [filter1d_set_up_filter],
    [filter1d_lack_check], [filter1d_get_robust_estimates],
    [filter1d_do_the_filter] and the segment-loading loop of
    [GMT_filter1d]) and the properties its specification states about it.

    Conventions of the embedding.
    - A C [double] is a value of [double] below: NaN, a signed infinity or
      an exact rational.  Finite arithmetic is exact: rounding, overflow
      and the sign of zero are not represented.  The properties are
      therefore stated through the expressions the program evaluates (its
      own comparisons, quotients and sums), or on inputs on which these
      are exact in a [double]; where a property turns on the rounding
      itself, it is that of [b64_round].
    - [uint64_t] row and column indices and counters are [nat]: they index
      memory-resident arrays, so they never reach 2^64.  [int], [int64_t]
      and the results of [lrint] are [Z].
    - An array is a list; a read past its end, undefined in C, yields NaN
      ([rd]), a write past its end is dropped.
    - The library routines the engine calls but does not define
      ([gmt_median], [gmt_mode], [gmt_extreme], [gmt_intpol],
      [gmt_create_array], [cos], [exp]) are the fields of the class
      [GmtLib]. *)

From Stdlib Require Import ZArith QArith Qround Qabs Lia Lqa Bool Ascii String.
From stdpp Require Import base list.

Local Open Scope nat_scope.

(** ** The model of [double] *)

Inductive double : Type :=
| DNaN
| DInf (neg : bool)
| DFin (q : Q).

#[export] Instance double_inhabited : Inhabited double := populate DNaN.

Definition d0 : double := DFin 0%Q.
Definition d1 : double := DFin 1%Q.
Definition dZ (z : Z) : double := DFin (inject_Z z).
Definition dnat (n : nat) : double := dZ (Z.of_nat n).

(** [gmt_M_is_dnan] is C's [isnan]. *)
Definition gmt_M_is_dnan (x : double) : bool :=
  match x with DNaN => true | _ => false end.

Definition Qneg (q : Q) : bool :=
  match Qcompare q 0%Q with Lt => true | _ => false end.

Definition Qzero (q : Q) : bool :=
  match Qcompare q 0%Q with Eq => true | _ => false end.

Definition Qltb (a b : Q) : bool :=
  match Qcompare a b with Lt => true | _ => false end.

Definition dopp (x : double) : double :=
  match x with
  | DNaN => DNaN
  | DInf s => DInf (negb s)
  | DFin q => DFin (- q)%Q
  end.

Definition dadd (x y : double) : double :=
  match x, y with
  | DNaN, _ | _, DNaN => DNaN
  | DInf s, DInf s' => if Bool.eqb s s' then DInf s else DNaN
  | DInf s, DFin _ | DFin _, DInf s => DInf s
  | DFin a, DFin b => DFin (a + b)%Q
  end.

Definition dsub (x y : double) : double := dadd x (dopp y).

Definition dmul (x y : double) : double :=
  match x, y with
  | DNaN, _ | _, DNaN => DNaN
  | DInf s, DInf s' => DInf (xorb s s')
  | DInf s, DFin q | DFin q, DInf s =>
      if Qzero q then DNaN else DInf (xorb s (Qneg q))
  | DFin a, DFin b => DFin (a * b)%Q
  end.

Definition ddiv (x y : double) : double :=
  match x, y with
  | DNaN, _ | _, DNaN => DNaN
  | DInf _, DInf _ => DNaN
  | DInf s, DFin q => DInf (xorb s (Qneg q))
  | DFin _, DInf _ => d0
  | DFin a, DFin b =>
      if Qzero b then (if Qzero a then DNaN else DInf (Qneg a))
      else DFin (a / b)%Q
  end.

Definition dabs (x : double) : double :=
  match x with
  | DNaN => DNaN
  | DInf _ => DInf false
  | DFin q => DFin (Qabs q)
  end.

(** Comparisons: every comparison with a NaN is false. *)
Definition dlt (x y : double) : bool :=
  match x, y with
  | DNaN, _ | _, DNaN => false
  | DInf s, DInf s' => s && negb s'
  | DInf s, DFin _ => s
  | DFin _, DInf s => negb s
  | DFin a, DFin b => Qltb a b
  end.

Definition dgt (x y : double) : bool := dlt y x.

Definition dle (x y : double) : bool :=
  match x, y with
  | DNaN, _ | _, DNaN => false
  | _, _ => negb (dlt y x)
  end.

Definition dge (x y : double) : bool := dle y x.

(** [floor] and [ceil] leave NaN and the infinities alone. *)
Definition dfloor (x : double) : double :=
  match x with DFin q => dZ (Qfloor q) | _ => x end.

Definition dceil (x : double) : double :=
  match x with DFin q => dZ (Qceiling q) | _ => x end.

(** Round to nearest, ties to even: the default rounding mode under which
    [lrint] runs. *)
Definition Qrint (q : Q) : Z :=
  let f := Qfloor q in
  match Qcompare (q - inject_Z f) (1 # 2) with
  | Lt => f
  | Gt => (f + 1)%Z
  | Eq => if Z.even f then f else (f + 1)%Z
  end.

(** [lrint] of a value that is not finite is unspecified in C; x86-64 gives
    the most negative [long]. *)
Definition lrint (x : double) : Z :=
  match x with DFin q => Qrint q | _ => (- 2 ^ 63)%Z end.

(** Conversion of a signed result to [uint64_t]. *)
Definition u64 (z : Z) : nat := Z.to_nat (z mod 2 ^ 64).

(** Equality of doubles as numbers ([Qeq] on the finite ones). *)
Definition deq (x y : double) : Prop :=
  match x, y with
  | DNaN, DNaN => True
  | DInf s, DInf s' => s = s'
  | DFin a, DFin b => (a == b)%Q
  | _, _ => False
  end.

Definition is_finite (x : double) : Prop :=
  match x with DFin _ => True | _ => False end.

(** A sample as read from a table: a number or NaN. *)
Definition is_sample (x : double) : Prop :=
  match x with DInf _ => False | _ => True end.

(** Array reads. *)
Definition rd (a : list double) (i : nat) : double := a !!! i.
Definition rd2 (a : list (list double)) (i j : nat) : double :=
  match a !! i with Some col => rd col j | None => DNaN end.

(** The constants of gmt_constants.h and gmt_macros.h the engine uses. *)

(** Modelled from the spec: gmt_constants.h is not among the sources; the
    window tolerance is the time step times 1e-8. *)
Definition GMT_CONV8_LIMIT : double := DFin (1 # 100000000).

(** Modelled from the spec: "numerically zero" is a magnitude below
    [GMT_CONV8_LIMIT] ([gmt_M_is_zero] of gmt_macros.h, not among the
    sources). *)
Definition gmt_M_is_zero (x : double) : bool := dlt (dabs x) GMT_CONV8_LIMIT.

(** gmt_constants.h, not among the sources: the allocation chunk.  No result
    below depends on its value. *)
Definition GMT_CHUNK : nat := 2048.

Definition FILTER1D_BOXCAR : Z := 0.
Definition FILTER1D_COS_ARCH : Z := 1.
Definition FILTER1D_GAUSSIAN : Z := 2.
Definition FILTER1D_CUSTOM : Z := 3.
Definition FILTER1D_MEDIAN : Z := 4.
Definition FILTER1D_MODE : Z := 5.
Definition FILTER1D_LOWER_ALL : Z := 6.
Definition FILTER1D_LOWER_POS : Z := 7.
Definition FILTER1D_UPPER_ALL : Z := 8.
Definition FILTER1D_UPPER_NEG : Z := 9.
Definition FILTER1D_N_FILTERS : Z := 10.
Definition FILTER1D_CONVOLVE : Z := 3.

(** ** The library routines the engine calls

    Their contracts are those of section 6 of the specification: pure and
    deterministic.  [gmt_intpol] and [gmt_create_array] return [None] where
    the C routine returns a nonzero status. *)

Class GmtLib : Type := {
  (* gmt_median (GMT, x, n, xmin, xmax, m_initial, &med): x[0..n) is the list *)
  gmt_median : list double -> double -> double -> double -> double;
  (* gmt_mode (GMT, x, n, j, sort, mode_selection, &n_multiples, &mode_est) *)
  gmt_mode : list double -> nat -> bool -> Z -> nat -> nat * double;
  (* gmt_extreme (GMT, x, n, x_default, kind, way) *)
  gmt_extreme : list double -> double -> Z -> Z -> double;
  (* gmt_intpol (GMT, x, y, NULL, n, 1, &u, &v, 0.0, mode) *)
  gmt_intpol : list double -> list double -> double -> option double;
  (* gmt_create_array (GMT, 'T', &T, &min, &max), with T.inc *)
  gmt_create_array : double -> double -> double -> option (list double);
  d_cos : double -> double;
  d_exp : double -> double;
  M_PI : double
}.

(** ** The control structure

    [struct FILTER1D_INFO].  The per-column scratch arrays [n_this_col],
    [n_left], [n_right] and [work], which are rewritten from zero at every
    output point, live in [column] below together with the locals
    [good_one], [wt_sum] and [data_sum] of [filter1d_do_the_filter]. *)

Record FILTER1D_INFO : Type := mkF {
  use_ends : bool;  (* start/stop at ends of series instead of 1/2 width inside *)
  check_asym : bool;  (* test whether the data are asymmetric about the output time *)
  check_lack : bool;  (* test for lack of data (gap) in the filter window *)
  check_q : bool;  (* test average weight or N in median *)
  robust : bool;  (* look for outliers in data *)
  equidist : bool;  (* data is evenly sampled in t *)
  out_at_time : bool;  (* output is required at evenly spaced intervals *)
  f_operator : bool;  (* custom weights coefficients sum to zero *)
  highpass : bool;  (* we are doing a highpass filter *)
  variable : bool;  (* we are doing a variable width filter *)
  n_cols : nat;  (* number of columns of input *)
  t_col : nat;  (* column of time abscissae *)
  n_f_wts : nat;  (* number of filter weights *)
  half_n_f_wts : nat;  (* half the number of filter weights *)
  n_rows : nat;  (* number of rows of input *)
  n_row_alloc : nat;  (* number of rows of data allocated *)
  filter_type : Z;  (* desired filter type *)
  kind : Z;  (* -1 skip +ve, +1 skip -ve, else use all *)
  way : Z;  (* -1 find minimum, +1 find maximum *)
  mode_selection : Z;
  n_multiples : nat;
  ft : list double;  (* variable filter times; nw is its length *)
  fw : list double;  (* variable filter widths *)
  f_wt : list double;  (* filter coefficients *)
  min_loc : list double;  (* one value per column, as the seven below *)
  max_loc : list double;
  last_loc : list double;
  this_loc : list double;
  min_scl : list double;
  max_scl : list double;
  last_scl : list double;
  this_scl : list double;
  data : list (list double);  (* data[col][row] *)
  dt : double;  (* delta time resolution for filter computation *)
  q_factor : double;  (* quality level for mean weights or n in median *)
  filter_width : double;  (* full width of filter in user's units *)
  half_width : double;
  t_start : double;  (* x-value of first output point *)
  t_stop : double;  (* x-value of last output point *)
  t_start_t : double;  (* user specified first output point if out_at_time *)
  t_stop_t : double;  (* user specified last output point if out_at_time *)
  t_int : double;  (* output interval *)
  sym_coeff : double;  (* symmetry coefficient *)
  lack_width : double;  (* lack of data width *)
  extreme : double;  (* extreme value, for the l|L|u|U filter *)
  Fin : list double;  (* custom weight coefficients read from file *)
  T_set : nat;  (* T.set: 1 when only an increment was given *)
  T_array : list double  (* T.array, the output times; T.n is its length *)
}.

(** Field updates, one per field the engine assigns. *)

Definition set_f_operator (v : bool) (F : FILTER1D_INFO) : FILTER1D_INFO :=
  mkF (F.(use_ends)) (F.(check_asym)) (F.(check_lack)) (F.(check_q))
    (F.(robust)) (F.(equidist)) (F.(out_at_time)) v (F.(highpass))
    (F.(variable)) (F.(n_cols)) (F.(t_col)) (F.(n_f_wts)) (F.(half_n_f_wts))
    (F.(n_rows)) (F.(n_row_alloc)) (F.(filter_type)) (F.(kind)) (F.(way))
    (F.(mode_selection)) (F.(n_multiples)) (F.(ft)) (F.(fw)) (F.(f_wt))
    (F.(min_loc)) (F.(max_loc)) (F.(last_loc)) (F.(this_loc)) (F.(min_scl))
    (F.(max_scl)) (F.(last_scl)) (F.(this_scl)) (F.(data)) (F.(dt))
    (F.(q_factor)) (F.(filter_width)) (F.(half_width)) (F.(t_start))
    (F.(t_stop)) (F.(t_start_t)) (F.(t_stop_t)) (F.(t_int)) (F.(sym_coeff))
    (F.(lack_width)) (F.(extreme)) (F.(Fin)) (F.(T_set)) (F.(T_array)).

Definition set_n_f_wts (v : nat) (F : FILTER1D_INFO) : FILTER1D_INFO :=
  mkF (F.(use_ends)) (F.(check_asym)) (F.(check_lack)) (F.(check_q))
    (F.(robust)) (F.(equidist)) (F.(out_at_time)) (F.(f_operator))
    (F.(highpass)) (F.(variable)) (F.(n_cols)) (F.(t_col)) v
    (F.(half_n_f_wts)) (F.(n_rows)) (F.(n_row_alloc)) (F.(filter_type))
    (F.(kind)) (F.(way)) (F.(mode_selection)) (F.(n_multiples)) (F.(ft))
    (F.(fw)) (F.(f_wt)) (F.(min_loc)) (F.(max_loc)) (F.(last_loc))
    (F.(this_loc)) (F.(min_scl)) (F.(max_scl)) (F.(last_scl)) (F.(this_scl))
    (F.(data)) (F.(dt)) (F.(q_factor)) (F.(filter_width)) (F.(half_width))
    (F.(t_start)) (F.(t_stop)) (F.(t_start_t)) (F.(t_stop_t)) (F.(t_int))
    (F.(sym_coeff)) (F.(lack_width)) (F.(extreme)) (F.(Fin)) (F.(T_set))
    (F.(T_array)).

Definition set_half_n_f_wts (v : nat) (F : FILTER1D_INFO) : FILTER1D_INFO :=
  mkF (F.(use_ends)) (F.(check_asym)) (F.(check_lack)) (F.(check_q))
    (F.(robust)) (F.(equidist)) (F.(out_at_time)) (F.(f_operator))
    (F.(highpass)) (F.(variable)) (F.(n_cols)) (F.(t_col)) (F.(n_f_wts)) v
    (F.(n_rows)) (F.(n_row_alloc)) (F.(filter_type)) (F.(kind)) (F.(way))
    (F.(mode_selection)) (F.(n_multiples)) (F.(ft)) (F.(fw)) (F.(f_wt))
    (F.(min_loc)) (F.(max_loc)) (F.(last_loc)) (F.(this_loc)) (F.(min_scl))
    (F.(max_scl)) (F.(last_scl)) (F.(this_scl)) (F.(data)) (F.(dt))
    (F.(q_factor)) (F.(filter_width)) (F.(half_width)) (F.(t_start))
    (F.(t_stop)) (F.(t_start_t)) (F.(t_stop_t)) (F.(t_int)) (F.(sym_coeff))
    (F.(lack_width)) (F.(extreme)) (F.(Fin)) (F.(T_set)) (F.(T_array)).

Definition set_n_rows (v : nat) (F : FILTER1D_INFO) : FILTER1D_INFO :=
  mkF (F.(use_ends)) (F.(check_asym)) (F.(check_lack)) (F.(check_q))
    (F.(robust)) (F.(equidist)) (F.(out_at_time)) (F.(f_operator))
    (F.(highpass)) (F.(variable)) (F.(n_cols)) (F.(t_col)) (F.(n_f_wts))
    (F.(half_n_f_wts)) v (F.(n_row_alloc)) (F.(filter_type)) (F.(kind))
    (F.(way)) (F.(mode_selection)) (F.(n_multiples)) (F.(ft)) (F.(fw))
    (F.(f_wt)) (F.(min_loc)) (F.(max_loc)) (F.(last_loc)) (F.(this_loc))
    (F.(min_scl)) (F.(max_scl)) (F.(last_scl)) (F.(this_scl)) (F.(data))
    (F.(dt)) (F.(q_factor)) (F.(filter_width)) (F.(half_width))
    (F.(t_start)) (F.(t_stop)) (F.(t_start_t)) (F.(t_stop_t)) (F.(t_int))
    (F.(sym_coeff)) (F.(lack_width)) (F.(extreme)) (F.(Fin)) (F.(T_set))
    (F.(T_array)).

Definition set_n_row_alloc (v : nat) (F : FILTER1D_INFO) : FILTER1D_INFO :=
  mkF (F.(use_ends)) (F.(check_asym)) (F.(check_lack)) (F.(check_q))
    (F.(robust)) (F.(equidist)) (F.(out_at_time)) (F.(f_operator))
    (F.(highpass)) (F.(variable)) (F.(n_cols)) (F.(t_col)) (F.(n_f_wts))
    (F.(half_n_f_wts)) (F.(n_rows)) v (F.(filter_type)) (F.(kind)) (F.(way))
    (F.(mode_selection)) (F.(n_multiples)) (F.(ft)) (F.(fw)) (F.(f_wt))
    (F.(min_loc)) (F.(max_loc)) (F.(last_loc)) (F.(this_loc)) (F.(min_scl))
    (F.(max_scl)) (F.(last_scl)) (F.(this_scl)) (F.(data)) (F.(dt))
    (F.(q_factor)) (F.(filter_width)) (F.(half_width)) (F.(t_start))
    (F.(t_stop)) (F.(t_start_t)) (F.(t_stop_t)) (F.(t_int)) (F.(sym_coeff))
    (F.(lack_width)) (F.(extreme)) (F.(Fin)) (F.(T_set)) (F.(T_array)).

Definition set_n_multiples (v : nat) (F : FILTER1D_INFO) : FILTER1D_INFO :=
  mkF (F.(use_ends)) (F.(check_asym)) (F.(check_lack)) (F.(check_q))
    (F.(robust)) (F.(equidist)) (F.(out_at_time)) (F.(f_operator))
    (F.(highpass)) (F.(variable)) (F.(n_cols)) (F.(t_col)) (F.(n_f_wts))
    (F.(half_n_f_wts)) (F.(n_rows)) (F.(n_row_alloc)) (F.(filter_type))
    (F.(kind)) (F.(way)) (F.(mode_selection)) v (F.(ft)) (F.(fw)) (F.(f_wt))
    (F.(min_loc)) (F.(max_loc)) (F.(last_loc)) (F.(this_loc)) (F.(min_scl))
    (F.(max_scl)) (F.(last_scl)) (F.(this_scl)) (F.(data)) (F.(dt))
    (F.(q_factor)) (F.(filter_width)) (F.(half_width)) (F.(t_start))
    (F.(t_stop)) (F.(t_start_t)) (F.(t_stop_t)) (F.(t_int)) (F.(sym_coeff))
    (F.(lack_width)) (F.(extreme)) (F.(Fin)) (F.(T_set)) (F.(T_array)).

Definition set_ft (v : list double) (F : FILTER1D_INFO) : FILTER1D_INFO :=
  mkF (F.(use_ends)) (F.(check_asym)) (F.(check_lack)) (F.(check_q))
    (F.(robust)) (F.(equidist)) (F.(out_at_time)) (F.(f_operator))
    (F.(highpass)) (F.(variable)) (F.(n_cols)) (F.(t_col)) (F.(n_f_wts))
    (F.(half_n_f_wts)) (F.(n_rows)) (F.(n_row_alloc)) (F.(filter_type))
    (F.(kind)) (F.(way)) (F.(mode_selection)) (F.(n_multiples)) v (F.(fw))
    (F.(f_wt)) (F.(min_loc)) (F.(max_loc)) (F.(last_loc)) (F.(this_loc))
    (F.(min_scl)) (F.(max_scl)) (F.(last_scl)) (F.(this_scl)) (F.(data))
    (F.(dt)) (F.(q_factor)) (F.(filter_width)) (F.(half_width))
    (F.(t_start)) (F.(t_stop)) (F.(t_start_t)) (F.(t_stop_t)) (F.(t_int))
    (F.(sym_coeff)) (F.(lack_width)) (F.(extreme)) (F.(Fin)) (F.(T_set))
    (F.(T_array)).

Definition set_fw (v : list double) (F : FILTER1D_INFO) : FILTER1D_INFO :=
  mkF (F.(use_ends)) (F.(check_asym)) (F.(check_lack)) (F.(check_q))
    (F.(robust)) (F.(equidist)) (F.(out_at_time)) (F.(f_operator))
    (F.(highpass)) (F.(variable)) (F.(n_cols)) (F.(t_col)) (F.(n_f_wts))
    (F.(half_n_f_wts)) (F.(n_rows)) (F.(n_row_alloc)) (F.(filter_type))
    (F.(kind)) (F.(way)) (F.(mode_selection)) (F.(n_multiples)) (F.(ft)) v
    (F.(f_wt)) (F.(min_loc)) (F.(max_loc)) (F.(last_loc)) (F.(this_loc))
    (F.(min_scl)) (F.(max_scl)) (F.(last_scl)) (F.(this_scl)) (F.(data))
    (F.(dt)) (F.(q_factor)) (F.(filter_width)) (F.(half_width))
    (F.(t_start)) (F.(t_stop)) (F.(t_start_t)) (F.(t_stop_t)) (F.(t_int))
    (F.(sym_coeff)) (F.(lack_width)) (F.(extreme)) (F.(Fin)) (F.(T_set))
    (F.(T_array)).

Definition set_f_wt (v : list double) (F : FILTER1D_INFO) : FILTER1D_INFO :=
  mkF (F.(use_ends)) (F.(check_asym)) (F.(check_lack)) (F.(check_q))
    (F.(robust)) (F.(equidist)) (F.(out_at_time)) (F.(f_operator))
    (F.(highpass)) (F.(variable)) (F.(n_cols)) (F.(t_col)) (F.(n_f_wts))
    (F.(half_n_f_wts)) (F.(n_rows)) (F.(n_row_alloc)) (F.(filter_type))
    (F.(kind)) (F.(way)) (F.(mode_selection)) (F.(n_multiples)) (F.(ft))
    (F.(fw)) v (F.(min_loc)) (F.(max_loc)) (F.(last_loc)) (F.(this_loc))
    (F.(min_scl)) (F.(max_scl)) (F.(last_scl)) (F.(this_scl)) (F.(data))
    (F.(dt)) (F.(q_factor)) (F.(filter_width)) (F.(half_width))
    (F.(t_start)) (F.(t_stop)) (F.(t_start_t)) (F.(t_stop_t)) (F.(t_int))
    (F.(sym_coeff)) (F.(lack_width)) (F.(extreme)) (F.(Fin)) (F.(T_set))
    (F.(T_array)).

Definition set_min_loc (v : list double) (F : FILTER1D_INFO) : FILTER1D_INFO :=
  mkF (F.(use_ends)) (F.(check_asym)) (F.(check_lack)) (F.(check_q))
    (F.(robust)) (F.(equidist)) (F.(out_at_time)) (F.(f_operator))
    (F.(highpass)) (F.(variable)) (F.(n_cols)) (F.(t_col)) (F.(n_f_wts))
    (F.(half_n_f_wts)) (F.(n_rows)) (F.(n_row_alloc)) (F.(filter_type))
    (F.(kind)) (F.(way)) (F.(mode_selection)) (F.(n_multiples)) (F.(ft))
    (F.(fw)) (F.(f_wt)) v (F.(max_loc)) (F.(last_loc)) (F.(this_loc))
    (F.(min_scl)) (F.(max_scl)) (F.(last_scl)) (F.(this_scl)) (F.(data))
    (F.(dt)) (F.(q_factor)) (F.(filter_width)) (F.(half_width))
    (F.(t_start)) (F.(t_stop)) (F.(t_start_t)) (F.(t_stop_t)) (F.(t_int))
    (F.(sym_coeff)) (F.(lack_width)) (F.(extreme)) (F.(Fin)) (F.(T_set))
    (F.(T_array)).

Definition set_max_loc (v : list double) (F : FILTER1D_INFO) : FILTER1D_INFO :=
  mkF (F.(use_ends)) (F.(check_asym)) (F.(check_lack)) (F.(check_q))
    (F.(robust)) (F.(equidist)) (F.(out_at_time)) (F.(f_operator))
    (F.(highpass)) (F.(variable)) (F.(n_cols)) (F.(t_col)) (F.(n_f_wts))
    (F.(half_n_f_wts)) (F.(n_rows)) (F.(n_row_alloc)) (F.(filter_type))
    (F.(kind)) (F.(way)) (F.(mode_selection)) (F.(n_multiples)) (F.(ft))
    (F.(fw)) (F.(f_wt)) (F.(min_loc)) v (F.(last_loc)) (F.(this_loc))
    (F.(min_scl)) (F.(max_scl)) (F.(last_scl)) (F.(this_scl)) (F.(data))
    (F.(dt)) (F.(q_factor)) (F.(filter_width)) (F.(half_width))
    (F.(t_start)) (F.(t_stop)) (F.(t_start_t)) (F.(t_stop_t)) (F.(t_int))
    (F.(sym_coeff)) (F.(lack_width)) (F.(extreme)) (F.(Fin)) (F.(T_set))
    (F.(T_array)).

Definition set_last_loc (v : list double) (F : FILTER1D_INFO) : FILTER1D_INFO :=
  mkF (F.(use_ends)) (F.(check_asym)) (F.(check_lack)) (F.(check_q))
    (F.(robust)) (F.(equidist)) (F.(out_at_time)) (F.(f_operator))
    (F.(highpass)) (F.(variable)) (F.(n_cols)) (F.(t_col)) (F.(n_f_wts))
    (F.(half_n_f_wts)) (F.(n_rows)) (F.(n_row_alloc)) (F.(filter_type))
    (F.(kind)) (F.(way)) (F.(mode_selection)) (F.(n_multiples)) (F.(ft))
    (F.(fw)) (F.(f_wt)) (F.(min_loc)) (F.(max_loc)) v (F.(this_loc))
    (F.(min_scl)) (F.(max_scl)) (F.(last_scl)) (F.(this_scl)) (F.(data))
    (F.(dt)) (F.(q_factor)) (F.(filter_width)) (F.(half_width))
    (F.(t_start)) (F.(t_stop)) (F.(t_start_t)) (F.(t_stop_t)) (F.(t_int))
    (F.(sym_coeff)) (F.(lack_width)) (F.(extreme)) (F.(Fin)) (F.(T_set))
    (F.(T_array)).

Definition set_this_loc (v : list double) (F : FILTER1D_INFO) : FILTER1D_INFO :=
  mkF (F.(use_ends)) (F.(check_asym)) (F.(check_lack)) (F.(check_q))
    (F.(robust)) (F.(equidist)) (F.(out_at_time)) (F.(f_operator))
    (F.(highpass)) (F.(variable)) (F.(n_cols)) (F.(t_col)) (F.(n_f_wts))
    (F.(half_n_f_wts)) (F.(n_rows)) (F.(n_row_alloc)) (F.(filter_type))
    (F.(kind)) (F.(way)) (F.(mode_selection)) (F.(n_multiples)) (F.(ft))
    (F.(fw)) (F.(f_wt)) (F.(min_loc)) (F.(max_loc)) (F.(last_loc)) v
    (F.(min_scl)) (F.(max_scl)) (F.(last_scl)) (F.(this_scl)) (F.(data))
    (F.(dt)) (F.(q_factor)) (F.(filter_width)) (F.(half_width))
    (F.(t_start)) (F.(t_stop)) (F.(t_start_t)) (F.(t_stop_t)) (F.(t_int))
    (F.(sym_coeff)) (F.(lack_width)) (F.(extreme)) (F.(Fin)) (F.(T_set))
    (F.(T_array)).

Definition set_min_scl (v : list double) (F : FILTER1D_INFO) : FILTER1D_INFO :=
  mkF (F.(use_ends)) (F.(check_asym)) (F.(check_lack)) (F.(check_q))
    (F.(robust)) (F.(equidist)) (F.(out_at_time)) (F.(f_operator))
    (F.(highpass)) (F.(variable)) (F.(n_cols)) (F.(t_col)) (F.(n_f_wts))
    (F.(half_n_f_wts)) (F.(n_rows)) (F.(n_row_alloc)) (F.(filter_type))
    (F.(kind)) (F.(way)) (F.(mode_selection)) (F.(n_multiples)) (F.(ft))
    (F.(fw)) (F.(f_wt)) (F.(min_loc)) (F.(max_loc)) (F.(last_loc))
    (F.(this_loc)) v (F.(max_scl)) (F.(last_scl)) (F.(this_scl)) (F.(data))
    (F.(dt)) (F.(q_factor)) (F.(filter_width)) (F.(half_width))
    (F.(t_start)) (F.(t_stop)) (F.(t_start_t)) (F.(t_stop_t)) (F.(t_int))
    (F.(sym_coeff)) (F.(lack_width)) (F.(extreme)) (F.(Fin)) (F.(T_set))
    (F.(T_array)).

Definition set_max_scl (v : list double) (F : FILTER1D_INFO) : FILTER1D_INFO :=
  mkF (F.(use_ends)) (F.(check_asym)) (F.(check_lack)) (F.(check_q))
    (F.(robust)) (F.(equidist)) (F.(out_at_time)) (F.(f_operator))
    (F.(highpass)) (F.(variable)) (F.(n_cols)) (F.(t_col)) (F.(n_f_wts))
    (F.(half_n_f_wts)) (F.(n_rows)) (F.(n_row_alloc)) (F.(filter_type))
    (F.(kind)) (F.(way)) (F.(mode_selection)) (F.(n_multiples)) (F.(ft))
    (F.(fw)) (F.(f_wt)) (F.(min_loc)) (F.(max_loc)) (F.(last_loc))
    (F.(this_loc)) (F.(min_scl)) v (F.(last_scl)) (F.(this_scl)) (F.(data))
    (F.(dt)) (F.(q_factor)) (F.(filter_width)) (F.(half_width))
    (F.(t_start)) (F.(t_stop)) (F.(t_start_t)) (F.(t_stop_t)) (F.(t_int))
    (F.(sym_coeff)) (F.(lack_width)) (F.(extreme)) (F.(Fin)) (F.(T_set))
    (F.(T_array)).

Definition set_last_scl (v : list double) (F : FILTER1D_INFO) : FILTER1D_INFO :=
  mkF (F.(use_ends)) (F.(check_asym)) (F.(check_lack)) (F.(check_q))
    (F.(robust)) (F.(equidist)) (F.(out_at_time)) (F.(f_operator))
    (F.(highpass)) (F.(variable)) (F.(n_cols)) (F.(t_col)) (F.(n_f_wts))
    (F.(half_n_f_wts)) (F.(n_rows)) (F.(n_row_alloc)) (F.(filter_type))
    (F.(kind)) (F.(way)) (F.(mode_selection)) (F.(n_multiples)) (F.(ft))
    (F.(fw)) (F.(f_wt)) (F.(min_loc)) (F.(max_loc)) (F.(last_loc))
    (F.(this_loc)) (F.(min_scl)) (F.(max_scl)) v (F.(this_scl)) (F.(data))
    (F.(dt)) (F.(q_factor)) (F.(filter_width)) (F.(half_width))
    (F.(t_start)) (F.(t_stop)) (F.(t_start_t)) (F.(t_stop_t)) (F.(t_int))
    (F.(sym_coeff)) (F.(lack_width)) (F.(extreme)) (F.(Fin)) (F.(T_set))
    (F.(T_array)).

Definition set_this_scl (v : list double) (F : FILTER1D_INFO) : FILTER1D_INFO :=
  mkF (F.(use_ends)) (F.(check_asym)) (F.(check_lack)) (F.(check_q))
    (F.(robust)) (F.(equidist)) (F.(out_at_time)) (F.(f_operator))
    (F.(highpass)) (F.(variable)) (F.(n_cols)) (F.(t_col)) (F.(n_f_wts))
    (F.(half_n_f_wts)) (F.(n_rows)) (F.(n_row_alloc)) (F.(filter_type))
    (F.(kind)) (F.(way)) (F.(mode_selection)) (F.(n_multiples)) (F.(ft))
    (F.(fw)) (F.(f_wt)) (F.(min_loc)) (F.(max_loc)) (F.(last_loc))
    (F.(this_loc)) (F.(min_scl)) (F.(max_scl)) (F.(last_scl)) v (F.(data))
    (F.(dt)) (F.(q_factor)) (F.(filter_width)) (F.(half_width))
    (F.(t_start)) (F.(t_stop)) (F.(t_start_t)) (F.(t_stop_t)) (F.(t_int))
    (F.(sym_coeff)) (F.(lack_width)) (F.(extreme)) (F.(Fin)) (F.(T_set))
    (F.(T_array)).

Definition set_data (v : list (list double)) (F : FILTER1D_INFO) : FILTER1D_INFO :=
  mkF (F.(use_ends)) (F.(check_asym)) (F.(check_lack)) (F.(check_q))
    (F.(robust)) (F.(equidist)) (F.(out_at_time)) (F.(f_operator))
    (F.(highpass)) (F.(variable)) (F.(n_cols)) (F.(t_col)) (F.(n_f_wts))
    (F.(half_n_f_wts)) (F.(n_rows)) (F.(n_row_alloc)) (F.(filter_type))
    (F.(kind)) (F.(way)) (F.(mode_selection)) (F.(n_multiples)) (F.(ft))
    (F.(fw)) (F.(f_wt)) (F.(min_loc)) (F.(max_loc)) (F.(last_loc))
    (F.(this_loc)) (F.(min_scl)) (F.(max_scl)) (F.(last_scl)) (F.(this_scl))
    v (F.(dt)) (F.(q_factor)) (F.(filter_width)) (F.(half_width))
    (F.(t_start)) (F.(t_stop)) (F.(t_start_t)) (F.(t_stop_t)) (F.(t_int))
    (F.(sym_coeff)) (F.(lack_width)) (F.(extreme)) (F.(Fin)) (F.(T_set))
    (F.(T_array)).

Definition set_dt (v : double) (F : FILTER1D_INFO) : FILTER1D_INFO :=
  mkF (F.(use_ends)) (F.(check_asym)) (F.(check_lack)) (F.(check_q))
    (F.(robust)) (F.(equidist)) (F.(out_at_time)) (F.(f_operator))
    (F.(highpass)) (F.(variable)) (F.(n_cols)) (F.(t_col)) (F.(n_f_wts))
    (F.(half_n_f_wts)) (F.(n_rows)) (F.(n_row_alloc)) (F.(filter_type))
    (F.(kind)) (F.(way)) (F.(mode_selection)) (F.(n_multiples)) (F.(ft))
    (F.(fw)) (F.(f_wt)) (F.(min_loc)) (F.(max_loc)) (F.(last_loc))
    (F.(this_loc)) (F.(min_scl)) (F.(max_scl)) (F.(last_scl)) (F.(this_scl))
    (F.(data)) v (F.(q_factor)) (F.(filter_width)) (F.(half_width))
    (F.(t_start)) (F.(t_stop)) (F.(t_start_t)) (F.(t_stop_t)) (F.(t_int))
    (F.(sym_coeff)) (F.(lack_width)) (F.(extreme)) (F.(Fin)) (F.(T_set))
    (F.(T_array)).

Definition set_filter_width (v : double) (F : FILTER1D_INFO) : FILTER1D_INFO :=
  mkF (F.(use_ends)) (F.(check_asym)) (F.(check_lack)) (F.(check_q))
    (F.(robust)) (F.(equidist)) (F.(out_at_time)) (F.(f_operator))
    (F.(highpass)) (F.(variable)) (F.(n_cols)) (F.(t_col)) (F.(n_f_wts))
    (F.(half_n_f_wts)) (F.(n_rows)) (F.(n_row_alloc)) (F.(filter_type))
    (F.(kind)) (F.(way)) (F.(mode_selection)) (F.(n_multiples)) (F.(ft))
    (F.(fw)) (F.(f_wt)) (F.(min_loc)) (F.(max_loc)) (F.(last_loc))
    (F.(this_loc)) (F.(min_scl)) (F.(max_scl)) (F.(last_scl)) (F.(this_scl))
    (F.(data)) (F.(dt)) (F.(q_factor)) v (F.(half_width)) (F.(t_start))
    (F.(t_stop)) (F.(t_start_t)) (F.(t_stop_t)) (F.(t_int)) (F.(sym_coeff))
    (F.(lack_width)) (F.(extreme)) (F.(Fin)) (F.(T_set)) (F.(T_array)).

Definition set_half_width (v : double) (F : FILTER1D_INFO) : FILTER1D_INFO :=
  mkF (F.(use_ends)) (F.(check_asym)) (F.(check_lack)) (F.(check_q))
    (F.(robust)) (F.(equidist)) (F.(out_at_time)) (F.(f_operator))
    (F.(highpass)) (F.(variable)) (F.(n_cols)) (F.(t_col)) (F.(n_f_wts))
    (F.(half_n_f_wts)) (F.(n_rows)) (F.(n_row_alloc)) (F.(filter_type))
    (F.(kind)) (F.(way)) (F.(mode_selection)) (F.(n_multiples)) (F.(ft))
    (F.(fw)) (F.(f_wt)) (F.(min_loc)) (F.(max_loc)) (F.(last_loc))
    (F.(this_loc)) (F.(min_scl)) (F.(max_scl)) (F.(last_scl)) (F.(this_scl))
    (F.(data)) (F.(dt)) (F.(q_factor)) (F.(filter_width)) v (F.(t_start))
    (F.(t_stop)) (F.(t_start_t)) (F.(t_stop_t)) (F.(t_int)) (F.(sym_coeff))
    (F.(lack_width)) (F.(extreme)) (F.(Fin)) (F.(T_set)) (F.(T_array)).

Definition set_t_start (v : double) (F : FILTER1D_INFO) : FILTER1D_INFO :=
  mkF (F.(use_ends)) (F.(check_asym)) (F.(check_lack)) (F.(check_q))
    (F.(robust)) (F.(equidist)) (F.(out_at_time)) (F.(f_operator))
    (F.(highpass)) (F.(variable)) (F.(n_cols)) (F.(t_col)) (F.(n_f_wts))
    (F.(half_n_f_wts)) (F.(n_rows)) (F.(n_row_alloc)) (F.(filter_type))
    (F.(kind)) (F.(way)) (F.(mode_selection)) (F.(n_multiples)) (F.(ft))
    (F.(fw)) (F.(f_wt)) (F.(min_loc)) (F.(max_loc)) (F.(last_loc))
    (F.(this_loc)) (F.(min_scl)) (F.(max_scl)) (F.(last_scl)) (F.(this_scl))
    (F.(data)) (F.(dt)) (F.(q_factor)) (F.(filter_width)) (F.(half_width)) v
    (F.(t_stop)) (F.(t_start_t)) (F.(t_stop_t)) (F.(t_int)) (F.(sym_coeff))
    (F.(lack_width)) (F.(extreme)) (F.(Fin)) (F.(T_set)) (F.(T_array)).

Definition set_t_stop (v : double) (F : FILTER1D_INFO) : FILTER1D_INFO :=
  mkF (F.(use_ends)) (F.(check_asym)) (F.(check_lack)) (F.(check_q))
    (F.(robust)) (F.(equidist)) (F.(out_at_time)) (F.(f_operator))
    (F.(highpass)) (F.(variable)) (F.(n_cols)) (F.(t_col)) (F.(n_f_wts))
    (F.(half_n_f_wts)) (F.(n_rows)) (F.(n_row_alloc)) (F.(filter_type))
    (F.(kind)) (F.(way)) (F.(mode_selection)) (F.(n_multiples)) (F.(ft))
    (F.(fw)) (F.(f_wt)) (F.(min_loc)) (F.(max_loc)) (F.(last_loc))
    (F.(this_loc)) (F.(min_scl)) (F.(max_scl)) (F.(last_scl)) (F.(this_scl))
    (F.(data)) (F.(dt)) (F.(q_factor)) (F.(filter_width)) (F.(half_width))
    (F.(t_start)) v (F.(t_start_t)) (F.(t_stop_t)) (F.(t_int))
    (F.(sym_coeff)) (F.(lack_width)) (F.(extreme)) (F.(Fin)) (F.(T_set))
    (F.(T_array)).

Definition set_T_array (v : list double) (F : FILTER1D_INFO) : FILTER1D_INFO :=
  mkF (F.(use_ends)) (F.(check_asym)) (F.(check_lack)) (F.(check_q))
    (F.(robust)) (F.(equidist)) (F.(out_at_time)) (F.(f_operator))
    (F.(highpass)) (F.(variable)) (F.(n_cols)) (F.(t_col)) (F.(n_f_wts))
    (F.(half_n_f_wts)) (F.(n_rows)) (F.(n_row_alloc)) (F.(filter_type))
    (F.(kind)) (F.(way)) (F.(mode_selection)) (F.(n_multiples)) (F.(ft))
    (F.(fw)) (F.(f_wt)) (F.(min_loc)) (F.(max_loc)) (F.(last_loc))
    (F.(this_loc)) (F.(min_scl)) (F.(max_scl)) (F.(last_scl)) (F.(this_scl))
    (F.(data)) (F.(dt)) (F.(q_factor)) (F.(filter_width)) (F.(half_width))
    (F.(t_start)) (F.(t_stop)) (F.(t_start_t)) (F.(t_stop_t)) (F.(t_int))
    (F.(sym_coeff)) (F.(lack_width)) (F.(extreme)) (F.(Fin)) (F.(T_set)) v.
(** The cells of the per-column arrays that belong to one column.  [work]
    holds the cells of [F->work[i_col]] written at this output point, in
    order: writing cell [n_this_col] appends. *)
Record column : Type := mkColumn {
  n_this_col : nat;
  n_left : nat;
  n_right : nat;
  work : list double;
  good_one : bool;
  wt_sum : double;
  data_sum : double
}.

(** The time of a row: [F->data[F->t_col][row]]. *)
Definition time_at (F : FILTER1D_INFO) (row : nat) : double :=
  rd2 F.(data) F.(t_col) row.

(** ** Weight functions *)

Definition filter1d_boxcar_weight (radius half_width : double) : double :=
  if dgt radius half_width then d0 else d1.

Section Engine.

Context `{GmtLib}.

Definition filter1d_cosine_weight (radius half_width : double) : double :=
  if dgt radius half_width then d0
  else dadd d1 (d_cos (ddiv (dmul radius M_PI) half_width)).

Definition filter1d_gaussian_weight (radius half_width : double) : double :=
  if dgt radius half_width then d0
  else d_exp (ddiv (dmul (dmul (DFin (-45 # 10)) radius) radius)
                   (dmul half_width half_width)).

(** The table [get_weight], indexed by the filter type. *)
Definition get_weight (filter_type : Z) : double -> double -> double :=
  if (filter_type =? FILTER1D_BOXCAR)%Z then filter1d_boxcar_weight
  else if (filter_type =? FILTER1D_COS_ARCH)%Z then filter1d_cosine_weight
  else filter1d_gaussian_weight.

(** ** [filter1d_set_up_filter] *)

(** [for (i = 0; i <= half_n_f_wts; ++i)] filling both mirrored taps. *)
Definition fill_weights (filter_type : Z) (half_n : nat) (dt hw : double)
    (f_wt : list double) : list double :=
  fold_left
    (fun (w : list double) (i : nat) =>
       let time := dmul (dnat i) dt in
       let i1 := half_n - i in
       let i2 := half_n + i in
       let v := get_weight filter_type time hw in
       <[i1 := v]> (<[i2 := v]> w))
    (seq 0 (S half_n)) f_wt.

(** [for (row = 0; (data[t_col][row] - t_0 + small) < half_width; ++row);]
    The loop has no bound of its own; it stops at the latest where the read
    leaves the array. *)
Fixpoint scan_start (fuel : nat) (t : list double) (t_0 small hw : double)
    (row : nat) : nat :=
  match fuel with
  | O => row
  | S fuel' =>
      if dlt (dadd (dsub (rd t row) t_0) small) hw
      then scan_start fuel' t t_0 small hw (S row)
      else row
  end.

(** [for (row = n_rows - 1; row > 0 && (t_1 - data[t_col][row] + small)
    < half_width; --row);] *)
Fixpoint scan_stop (t : list double) (t_1 small hw : double) (row : nat)
    : nat :=
  match row with
  | O => O
  | S row' =>
      if dlt (dadd (dsub t_1 (rd t row)) small) hw
      then scan_stop t t_1 small hw row'
      else row
  end.

Definition time_column (F : FILTER1D_INFO) : list double :=
  match F.(data) !! F.(t_col) with Some c => c | None => [] end.

Definition set_up_coefficients (F : FILTER1D_INFO) : FILTER1D_INFO :=
  if (F.(filter_type) =? FILTER1D_CUSTOM)%Z then
    (* Use coefficients we read from file *)
    let n := length F.(Fin) in
    let w_sum := fold_left dadd F.(Fin) d0 in
    let f_wt' :=
      if dgt w_sum d1 then map (fun w => ddiv w w_sum) F.(Fin)
      else F.(Fin) in
    let half_n := (n / 2)%nat in
    let hw := dmul (dnat half_n) F.(dt) in
    set_filter_width (dmul (DFin 2) hw)
      (set_half_width hw
         (set_half_n_f_wts half_n
            (set_f_wt f_wt'
               (set_f_operator (gmt_M_is_zero w_sum)
                  (set_n_f_wts n F)))))
  else if (F.(filter_type) <=? FILTER1D_CONVOLVE)%Z then
    let hw := dmul (DFin (1 # 2)) F.(filter_width) in
    let half_n := u64 (lrint (ddiv hw F.(dt))) in
    let n := 2 * half_n + 1 in
    set_f_wt
      (fill_weights F.(filter_type) half_n F.(dt) hw (replicate n d0))
      (set_n_f_wts n (set_half_n_f_wts half_n (set_half_width hw F)))
  else
    set_half_width (dmul (DFin (1 # 2)) F.(filter_width)) F.

(** Initialize start/stop time. *)
Definition set_up_range (t_0 t_1 : double) (F : FILTER1D_INFO)
    : FILTER1D_INFO :=
  if F.(out_at_time) then
    let start :=
      if (F.(T_set) =? 1) || dlt F.(t_start_t) t_0 then
        (if F.(T_set) =? 1
         then dmul (dfloor (ddiv t_0 F.(t_int))) F.(t_int)
         else dadd F.(t_start_t)
                (dmul (dfloor (ddiv (dsub t_0 F.(t_start_t)) F.(t_int)))
                      F.(t_int)))
      else F.(t_start_t) in
    let stop :=
      if (F.(T_set) =? 1) || dgt F.(t_stop_t) t_1 then
        (if F.(T_set) =? 1
         then dmul (dceil (ddiv t_1 F.(t_int))) F.(t_int)
         else dsub F.(t_stop_t)
                (dmul (dfloor (ddiv (dsub F.(t_stop_t) t_1) F.(t_int)))
                      F.(t_int)))
      else F.(t_stop_t) in
    if negb F.(use_ends) then
      (* remove filter half width from bounds *)
      set_t_stop (dsub stop F.(half_width))
        (set_t_start (dadd start F.(half_width)) F)
    else set_t_stop stop (set_t_start start F)
  else if F.(use_ends) then
    set_t_stop t_1 (set_t_start t_0 F)
  else
    let t := time_column F in
    let small := dmul (dsub (rd t 1) (rd t 0)) GMT_CONV8_LIMIT in
    let row := scan_start (S (length t)) t t_0 small F.(half_width) 0 in
    let row' := scan_stop t t_1 small F.(half_width) (F.(n_rows) - 1) in
    set_t_stop (rd t row') (set_t_start (rd t row) F).

Definition filter1d_set_up_filter (F : FILTER1D_INFO) : FILTER1D_INFO :=
  let t_0 := time_at F 0 in
  let t_1 := time_at F (F.(n_rows) - 1) in
  let F1 :=
    if F.(equidist)
    then set_dt (ddiv (dsub t_1 t_0) (dnat (F.(n_rows) - 1))) F
    else F in
  set_up_range t_0 t_1 (set_up_coefficients F1).

(** ** [filter1d_lack_check] *)

(** [while (!(gmt_M_is_dnan (F->data[i_col][row])) && row < (right - 1))
    ++row;] *)
Fixpoint skip_present (fuel : nat) (F : FILTER1D_INFO) (i_col row bound : nat)
    : nat :=
  match fuel with
  | O => row
  | S fuel' =>
      if negb (gmt_M_is_dnan (rd2 F.(data) i_col row)) && (row <? bound)
      then skip_present fuel' F i_col (S row) bound
      else row
  end.

(** [while (!(lacking) && this_row < (right - 1)) { ... }] *)
Fixpoint lack_loop (fuel : nat) (F : FILTER1D_INFO) (i_col right : nat)
    (last_t : double) (this_row : nat) : bool :=
  match fuel with
  | O => false
  | S fuel' =>
      if this_row <? right - 1 then
        let this_row' :=
          skip_present (right - 1 - this_row) F i_col this_row (right - 1) in
        if dgt (dsub (time_at F this_row') last_t) F.(lack_width)
        then true
        else lack_loop fuel' F i_col right (time_at F this_row') (S this_row')
      else false
  end.

Definition filter1d_lack_check (F : FILTER1D_INFO) (i_col left right : nat)
    : bool :=
  let last_row := skip_present (right - 1 - left) F i_col left (right - 1) in
  let last_t := time_at F last_row in
  let this_row := last_row + 1 in
  lack_loop (right - this_row) F i_col right last_t this_row.

(** ** [filter1d_get_robust_estimates]

    [w] is [F->work[j]], of which the first [n] cells are read.  The result
    is the updated structure and the updated work array. *)
Definition filter1d_get_robust_estimates (F : FILTER1D_INFO)
    (w : list double) (j n : nat) (both : bool)
    : FILTER1D_INFO * list double :=
  let '(n_mult, temp) :=
    if (FILTER1D_MODE <? F.(filter_type))%Z then
      (F.(n_multiples),
       gmt_extreme (take n w) F.(extreme) F.(kind) F.(way))
    else if (F.(filter_type) =? FILTER1D_MODE)%Z then
      let n_smooth := (n / 2)%nat in
      gmt_mode (take n w) n_smooth true F.(mode_selection) F.(n_multiples)
    else
      let low := rd F.(min_loc) j in
      let high := rd F.(max_loc) j in
      let last := rd F.(last_loc) j in
      (F.(n_multiples), gmt_median (take n w) low high last) in
  let F1 :=
    set_last_loc (<[j := temp]> F.(last_loc))
      (set_this_loc (<[j := temp]> F.(this_loc))
         (set_n_multiples n_mult F)) in
  if both then
    let w' :=
      map (fun x => dabs (dsub x (rd F1.(this_loc) j))) (take n w)
      ++ drop n w in
    let low := rd F1.(min_scl) j in
    let high := rd F1.(max_scl) j in
    let last := rd F1.(last_scl) j in
    let temp' := gmt_median (take n w') low high last in
    (set_last_scl (<[j := temp']> F1.(last_scl))
       (set_this_scl (<[j := temp']> F1.(this_scl)) F1), w')
  else (F1, w).

(** ** [filter1d_do_the_filter] *)

(** Determine data window for convolution/filter:
    [while (left < F->n_rows && (F->T.array[k] - F->data[F->t_col][left]
    - small) > F->half_width) ++left;] *)
Fixpoint advance_left (fuel : nat) (F : FILTER1D_INFO) (small Tk : double)
    (left : nat) : nat :=
  match fuel with
  | O => left
  | S fuel' =>
      if (left <? F.(n_rows))
         && dgt (dsub (dsub Tk (time_at F left)) small) F.(half_width)
      then advance_left fuel' F small Tk (S left)
      else left
  end.

(** [while (right < F->n_rows && (F->data[F->t_col][right] - F->T.array[k]
    - small) <= F->half_width) ++right;] *)
Fixpoint advance_right (fuel : nat) (F : FILTER1D_INFO) (small Tk : double)
    (right : nat) : nat :=
  match fuel with
  | O => right
  | S fuel' =>
      if (right <? F.(n_rows))
         && dle (dsub (dsub (time_at F right) Tk) small) F.(half_width)
      then advance_right fuel' F small Tk (S right)
      else right
  end.

(** The first loop over the columns of an accepted output point. *)
Definition init_column (F : FILTER1D_INFO) (left right i_col : nat) : column :=
  {| n_this_col := 0;
     wt_sum := d0;
     data_sum := d0;
     good_one :=
       if i_col =? F.(t_col) then false
       else if F.(check_lack)
            then negb (filter1d_lack_check F i_col left right)
            else true;
     n_left := 0;
     n_right := 0;
     work := [] |}.

Definition init_columns (F : FILTER1D_INFO) (left right : nat) : list column :=
  map (init_column F left right) (seq 0 F.(n_cols)).

(** [if (F->data[F->t_col][i_row] < t_time) F->n_left[i_col]++;
     if (F->data[F->t_col][i_row] > t_time) F->n_right[i_col]++;] *)
Definition count_side (F : FILTER1D_INFO) (t_time : double) (i_row : nat)
    (c : column) : column :=
  let t := time_at F i_row in
  {| n_this_col := c.(n_this_col);
     n_left := if dlt t t_time then S c.(n_left) else c.(n_left);
     n_right := if dgt t t_time then S c.(n_right) else c.(n_right);
     work := c.(work);
     good_one := c.(good_one);
     wt_sum := c.(wt_sum);
     data_sum := c.(data_sum) |}.

Definition set_good_one (b : bool) (c : column) : column :=
  {| n_this_col := c.(n_this_col); n_left := c.(n_left);
     n_right := c.(n_right); work := c.(work); good_one := b;
     wt_sum := c.(wt_sum); data_sum := c.(data_sum) |}.

Definition set_n_this_col (n : nat) (c : column) : column :=
  {| n_this_col := n; n_left := c.(n_left);
     n_right := c.(n_right); work := c.(work); good_one := c.(good_one);
     wt_sum := c.(wt_sum); data_sum := c.(data_sum) |}.

Definition set_work (w : list double) (c : column) : column :=
  {| n_this_col := c.(n_this_col); n_left := c.(n_left);
     n_right := c.(n_right); work := w; good_one := c.(good_one);
     wt_sum := c.(wt_sum); data_sum := c.(data_sum) |}.

(** The body of the column loop that fills the work arrays. *)
Definition collect_cell (F : FILTER1D_INFO) (t_time : double) (i_row i_col : nat)
    (c : column) : column :=
  if negb c.(good_one) then c
  else if negb (gmt_M_is_dnan (rd2 F.(data) i_col i_row)) then
    let c1 :=
      set_n_this_col (S c.(n_this_col))
        (set_work (c.(work) ++ [rd2 F.(data) i_col i_row]) c) in
    if F.(check_asym) then count_side F t_time i_row c1 else c1
  else c.

(** [for (i_row = left; i_row < right; ++i_row) for (i_col = 0; ...)] *)
Definition collect_rows (F : FILTER1D_INFO) (t_time : double) (left right : nat)
    (cols : list column) : list column :=
  fold_left
    (fun (cs : list column) (i_row : nat) =>
       imap (collect_cell F t_time i_row) cs)
    (seq left (right - left)) cols.

(** [diff = (n_l >= n_r) ? n_l - n_r : n_r - n_l;
     symmetry = ((double)diff)/(n_l + n_r);
     if (symmetry > F->sym_coeff) ...] *)
Definition asymmetric (F : FILTER1D_INFO) (c : column) : bool :=
  let n_l := c.(n_left) in
  let n_r := c.(n_right) in
  let diff := if n_r <=? n_l then n_l - n_r else n_r - n_l in
  let symmetry := ddiv (dnat diff) (dnat (n_l + n_r)) in
  dgt symmetry F.(sym_coeff).

Definition asym_gate (F : FILTER1D_INFO) (c : column) : column :=
  if negb c.(good_one) then c
  else if asymmetric F c then set_good_one false c else c.

(** [if (F->n_this_col[i_col] < iq) good_one[i_col] = false;] *)
Definition count_gate (iq : nat) (c : column) : column :=
  if c.(n_this_col) <? iq then set_good_one false c else c.

(** The loop calling [filter1d_get_robust_estimates] for the good columns,
    in column order. *)
Fixpoint estimate_columns (F : FILTER1D_INFO) (i_col : nat)
    (cols : list column) : FILTER1D_INFO * list column :=
  match cols with
  | [] => (F, [])
  | c :: cols' =>
      let '(F1, c1) :=
        if c.(good_one) then
          let n_for_call := c.(n_this_col) in
          let '(F', w') :=
            filter1d_get_robust_estimates F c.(work) i_col n_for_call
              F.(robust) in
          (F', set_work w' c)
        else (F, c) in
      let '(F2, cs) := estimate_columns F1 (S i_col) cols' in
      (F2, c1 :: cs)
  end.

(** The block [if (F->robust || F->filter_type > FILTER1D_CONVOLVE)]. *)
Definition robust_work (F : FILTER1D_INFO) (iq : nat) (t_time : double)
    (left right : nat) (cols : list column) : FILTER1D_INFO * list column :=
  let cols1 := collect_rows F t_time left right cols in
  let cols2 := if F.(check_asym) then map (asym_gate F) cols1 else cols1 in
  let cols3 :=
    if (FILTER1D_CONVOLVE <? F.(filter_type))%Z && F.(check_q)
    then map (count_gate iq) cols2 else cols2 in
  estimate_columns F 0 cols3.

(** The output loop of the non-convolution filters; the result is the
    record ([data_sum] reused as output area) and [n_good_ones]. *)
Definition nonconv_value (F : FILTER1D_INFO) (t_time : double) (k i_col : nat)
    (c : column) : double :=
  if i_col =? F.(t_col) then t_time
  else if c.(good_one) then
    (if F.(highpass)
     then dsub (rd2 F.(data) i_col k) (rd F.(this_loc) i_col)
     else rd F.(this_loc) i_col)
  else DNaN.

Definition nonconv_good (F : FILTER1D_INFO) (i_col : nat) (c : column) : bool :=
  negb (i_col =? F.(t_col)) && c.(good_one).

Definition emit_nonconv (F : FILTER1D_INFO) (t_time : double) (k : nat)
    (cols : list column) : option (list double) :=
  let n_good_ones := length (filter (fun b => b = true)
                               (imap (nonconv_good F) cols)) in
  if n_good_ones =? 0 then None
  else Some (imap (nonconv_value F t_time k) cols).

(** The tap a row falls on:
    [F->half_n_f_wts + lrint (floor (0.5 + delta_time/F->dt))]. *)
Definition tap_index (F : FILTER1D_INFO) (t_time : double) (i_row : nat) : Z :=
  let delta_time := dsub t_time (time_at F i_row) in
  (Z.of_nat F.(half_n_f_wts)
   + lrint (dfloor (dadd (DFin (1 # 2)) (ddiv delta_time F.(dt)))))%Z.

(** The body of the column loop of the convolution. *)
Definition convolve_cell (F : FILTER1D_INFO) (t_time : double) (i_row : nat)
    (i_f_wt : Z) (i_col : nat) (c : column) : column :=
  if negb c.(good_one) then c
  else if negb (gmt_M_is_dnan (rd2 F.(data) i_col i_row)) then
    let wt := rd F.(f_wt) (Z.to_nat i_f_wt) in
    let val := rd2 F.(data) i_col i_row in
    let val' :=
      if F.(robust) then
        let med := rd F.(this_loc) i_col in
        let scl := rd F.(this_scl) i_col in
        if dgt (dabs (dsub val med)) (dmul (DFin (25 # 10)) scl)
        then med else val
      else val in
    let c1 :=
      if F.(robust) then c
      else if F.(check_asym) then count_side F t_time i_row c  (* This wasn't already done *)
      else c in
    {| n_this_col := S c1.(n_this_col);
       n_left := c1.(n_left);
       n_right := c1.(n_right);
       work := c1.(work);
       good_one := c1.(good_one);
       wt_sum := dadd c1.(wt_sum) wt;
       data_sum := dadd c1.(data_sum) (dmul wt val') |}
  else c.

(** One row of the convolution.  The test is
    [(i_f_wt < 0) || (i_f_wt >= (int)F->n_f_wts)]: the cast keeps the number
    of coefficients as long as there are fewer than 2^31 of them. *)
Definition convolve_row (F : FILTER1D_INFO) (t_time : double)
    (cols : list column) (i_row : nat) : list column :=
  let i_f_wt := tap_index F t_time i_row in
  if (i_f_wt <? 0)%Z || (Z.of_nat F.(n_f_wts) <=? i_f_wt)%Z then cols
  else imap (convolve_cell F t_time i_row i_f_wt) cols.

Definition convolve_rows (F : FILTER1D_INFO) (t_time : double)
    (left right : nat) (cols : list column) : list column :=
  fold_left (convolve_row F t_time) (seq left (right - left)) cols.

(** The loop that settles [good_one] after the convolution; [n_good_ones]
    is the number of columns it leaves good. *)
Definition conv_gate (F : FILTER1D_INFO) (c : column) : column :=
  if negb c.(good_one) then c
  else if c.(n_this_col) =? 0 then set_good_one false c
  else if F.(check_asym) && negb F.(robust) && asymmetric F c
       then set_good_one false c
  else if F.(check_q)
          && dlt (ddiv c.(wt_sum) (dnat c.(n_this_col))) F.(q_factor)
       then set_good_one false c
  else c.

Definition conv_value (F : FILTER1D_INFO) (t_time : double) (k i_col : nat)
    (c : column) : double :=
  if i_col =? F.(t_col) then t_time
  else if c.(good_one) then
    let outval :=
      if F.(f_operator) then c.(data_sum)
      else ddiv c.(data_sum) c.(wt_sum) in
    if F.(highpass) then dsub (rd2 F.(data) i_col k) outval else outval
  else DNaN.

Definition emit_conv (F : FILTER1D_INFO) (t_time : double) (k : nat)
    (cols : list column) : option (list double) :=
  let n_good_ones := length (filter (fun c => c.(good_one) = true) cols) in
  if n_good_ones =? 0 then None
  else Some (imap (conv_value F t_time k) cols).

(** One accepted output point, from [t_time = F->T.array[k]] to the end of
    the loop body, in two halves: [settle_columns] does all the work on the
    columns (the robust block and, for the convolutions, the weighted sums
    and the loop that settles [good_one]); [emit_record] is the output loop
    with its [if (n_good_ones) GMT_Put_Record].  The result is the updated
    structure and the record handed to [GMT_Put_Record], if any. *)
Definition settle_columns (F : FILTER1D_INFO) (iq left right k : nat)
    : FILTER1D_INFO * list column :=
  let t_time := rd F.(T_array) k in
  let cols := init_columns F left right in
  let '(F1, cols1) :=
    if F.(robust) || (FILTER1D_CONVOLVE <? F.(filter_type))%Z
    then robust_work F iq t_time left right cols
    else (F, cols) in
  if (FILTER1D_CONVOLVE <? F1.(filter_type))%Z then (F1, cols1)
  else
    let cols2 :=
      if F1.(robust) then map (set_n_this_col 0) cols1 else cols1 in
    let cols3 := convolve_rows F1 t_time left right cols2 in
    (F1, map (conv_gate F1) cols3).

Definition emit_record (F : FILTER1D_INFO) (t_time : double) (k : nat)
    (cols : list column) : option (list double) :=
  if (FILTER1D_CONVOLVE <? F.(filter_type))%Z
  then emit_nonconv F t_time k cols
  else emit_conv F t_time k cols.

Definition filter_point (F : FILTER1D_INFO) (iq left right k : nat)
    : FILTER1D_INFO * option (list double) :=
  let '(F1, cols) := settle_columns F iq left right k in
  (F1, emit_record F1 (rd F.(T_array) k) k cols).

(** One turn of [while (k <= last_k)]. *)
Inductive step : Type :=
| Next (F : FILTER1D_INFO) (left right : nat) (rec : option (list double))
    (* reaches [k++], or [k++; continue;] *)
| Retry.
    (* [continue;] without [k++]: the turn is repeated on the same state *)

Definition filter_window (F : FILTER1D_INFO) (small : double)
    (iq left right k : nat) : step :=
  let Tk := rd F.(T_array) k in
  let left' := advance_left (F.(n_rows) - left) F small Tk left in
  let right' := advance_right (F.(n_rows) - right) F small Tk right in
  let n_in_filter := (Z.of_nat right' - Z.of_nat left')%Z in
  if (n_in_filter <=? 0)%Z
     || (F.(check_lack)
         && dgt (ddiv F.(filter_width) (dZ n_in_filter)) F.(lack_width))
  then Next F left' right' None  (* Nothing to filter, go to next output time *)
  else
    let '(F', rec) := filter_point F iq left' right' k in
    Next F' left' right' rec.

Definition filter_step (F : FILTER1D_INFO) (small : double)
    (iq left right k : nat) : step :=
  let Tk := rd F.(T_array) k in
  if F.(variable) then
    (* Must obtain the filter width for this time *)
    if dlt Tk (rd F.(ft) 0) || dgt Tk (rd F.(ft) (length F.(ft) - 1))
    then Next F left right None  (* Outside filter width array *)
    else
      match gmt_intpol F.(ft) F.(fw) Tk with
      | None => Retry
      | Some width =>
          let F1 := filter1d_set_up_filter (set_filter_width width F) in
          if dlt Tk F1.(t_start) || dgt Tk F1.(t_stop)
          then Next F1 left right None  (* Outside full filter window *)
          else filter_window F1 small iq left right k
      end
  else filter_window F small iq left right k.

(** How a run of [filter1d_do_the_filter] ends. *)
Inductive run : Type :=
| Finished (F : FILTER1D_INFO) (records : list (list double))
| Hangs (records : list (list double))
    (* a turn that repeats itself: the loop never ends *)
| RuntimeError.
    (* [return GMT_RUNTIME_ERROR] *)

Fixpoint filter_loop (turns : nat) (F : FILTER1D_INFO) (small : double)
    (iq left right k : nat) (out : list (list double)) : run :=
  match turns with
  | O => Finished F out
  | S turns' =>
      match filter_step F small iq left right k with
      | Retry => Hangs out
      | Next F' left' right' rec =>
          filter_loop turns' F' small iq left' right' (S k)
            (out ++ match rec with Some r => [r] | None => [] end)
      end
  end.

(** [for (k = 0; F->data[F->t_col][k] < F->t_start; ++k);] *)
Fixpoint first_k (fuel : nat) (t : list double) (t_start : double) (k : nat)
    : nat :=
  match fuel with
  | O => k
  | S fuel' =>
      if dlt (rd t k) t_start then first_k fuel' t t_start (S k) else k
  end.

(** [for (last_k = F->n_rows-1; last_k && F->data[F->t_col][last_k]
    > F->t_stop; --last_k);] *)
Fixpoint find_last_k (t : list double) (t_stop : double) (last_k : nat) : nat :=
  match last_k with
  | O => O
  | S last_k' =>
      if dgt (rd t last_k) t_stop then find_last_k t t_stop last_k'
      else last_k
  end.

(** The output times, the first output point [k] and [last_k]; [None] where
    [gmt_create_array] fails. *)
Definition output_plan (F : FILTER1D_INFO)
    : option (FILTER1D_INFO * nat * nat) :=
  if F.(out_at_time) then
    (* Set up equidistant output times given the min/max/inc given *)
    match gmt_create_array F.(t_int) F.(t_start) F.(t_stop) with
    | None => None
    | Some a => Some (set_T_array a F, 0, length a - 1)
    end
  else
    (* Duplicate an output time array from the input times *)
    let t := time_column F in
    Some (set_T_array (take F.(n_rows) t) F,
          first_k (S (length t)) t F.(t_start) 0,
          find_last_k t F.(t_stop) (F.(n_rows) - 1)).

Definition window_tolerance (F : FILTER1D_INFO) : double :=
  dmul (dsub (rd F.(T_array) 1) (rd F.(T_array) 0)) GMT_CONV8_LIMIT.

Definition filter1d_do_the_filter (F : FILTER1D_INFO) : run :=
  let iq := u64 (lrint F.(q_factor)) in
  match output_plan F with
  | None => RuntimeError
  | Some (F0, k, last_k) =>
      let small := window_tolerance F0 in
      filter_loop (S last_k - k) F0 small iq 0 0 k []
  end.

(** ** Loading a segment ([GMT_filter1d])

    [Sd] is [S->data], column by column, and [S_n_rows] is [S->n_rows]. *)

(** float.h: the largest finite double, (2 - 2^-52) * 2^1023. *)
Definition DBL_MAX : double := dZ (2 ^ 1024 - 2 ^ 971).

(** [filter1d_allocate_data_space]: every column grows to [n_row_alloc]
    cells; the fresh cells are modelled as zero, as [calloc] leaves them. *)
Definition filter1d_allocate_data_space (F : FILTER1D_INFO) : FILTER1D_INFO :=
  set_data
    (map (fun c : list double =>
            c ++ replicate (F.(n_row_alloc) - length c) d0)
         F.(data)) F.

(** The body of [for (col = 0; col < F.n_cols; ++col)] inside the row loop. *)
Definition store_row (Sd : list (list double)) (row : nat) (F : FILTER1D_INFO)
    : FILTER1D_INFO :=
  let track := F.(robust) || (F.(filter_type) =? FILTER1D_MEDIAN)%Z in
  let F1 :=
    set_data
      (imap (fun (col : nat) (c : list double) =>
               <[F.(n_rows) := rd2 Sd col row]> c) F.(data)) F in
  if track then
    set_min_loc
      (imap (fun (col : nat) (m : double) =>
               if dlt (rd2 Sd col row) m then rd2 Sd col row else m)
            F1.(min_loc))
      (set_max_loc
         (imap (fun (col : nat) (m : double) =>
                  if dgt (rd2 Sd col row) m then rd2 Sd col row else m)
               F1.(max_loc)) F1)
  else F1.

(** [for (row = F.n_rows = 0; row < S->n_rows; ++row, ++F.n_rows)].  Both
    counters are advanced by the loop header, hence also after [continue].
    [None] is [Return (GMT_DATA_READ_ERROR, ...)]. *)
Fixpoint load_rows (todo : nat) (Sd : list (list double)) (F : FILTER1D_INFO)
    (last_time : double) (row : nat) : option FILTER1D_INFO :=
  match todo with
  | O => Some F
  | S todo' =>
      let in_ := rd2 Sd F.(t_col) row in
      if gmt_M_is_dnan in_ then
        (* Skip records with time == NaN *)
        load_rows todo' Sd (set_n_rows (S F.(n_rows)) F) last_time (S row)
      else
        let new_time := in_ in
        if dlt new_time last_time then None
        else
          let F1 := store_row Sd row F in
          load_rows todo' Sd (set_n_rows (S F1.(n_rows)) F1) new_time (S row)
  end.

(** Initialize scale parameters and last_loc based on min and max of data. *)
Definition init_scales (F : FILTER1D_INFO) : FILTER1D_INFO :=
  if F.(robust) || (F.(filter_type) =? FILTER1D_MEDIAN)%Z then
    let max_scl' :=
      imap (fun (col : nat) (_ : double) =>
              dmul (DFin (1 # 2))
                (dsub (rd F.(max_loc) col) (rd F.(min_loc) col)))
           F.(max_scl) in
    set_last_loc
      (imap (fun (col : nat) (_ : double) =>
               dmul (DFin (1 # 2))
                 (dadd (rd F.(max_loc) col) (rd F.(min_loc) col)))
            F.(last_loc))
      (set_last_scl
         (imap (fun (col : nat) (_ : double) =>
                  dmul (DFin (1 # 2)) (rd max_scl' col)) F.(last_scl))
         (set_max_scl max_scl'
            (set_min_scl (map (fun _ => d0) F.(min_scl)) F)))
  else F.

Definition load_segment (Sd : list (list double)) (S_n_rows : nat)
    (F : FILTER1D_INFO) : option FILTER1D_INFO :=
  let F1 :=
    if F.(n_row_alloc) <? S_n_rows then
      filter1d_allocate_data_space
        (set_n_row_alloc (Nat.max GMT_CHUNK S_n_rows) F)
    else F in
  let F2 :=
    if F1.(robust) || (F1.(filter_type) =? FILTER1D_MEDIAN)%Z then
      set_min_loc (map (fun _ => DBL_MAX) F1.(min_loc))
        (set_max_loc (map (fun _ => dopp DBL_MAX) F1.(max_loc)) F1)
    else F1 in
  match load_rows S_n_rows Sd (set_n_rows 0 F2) (dopp DBL_MAX) 0 with
  | None => None
  | Some F3 => Some (init_scales F3)
  end.

(** One segment: load it, take the table of filter widths [Wt] (times and
    widths) if the width is variable and set the filter up otherwise, then
    filter.  [None] is a fatal return of [GMT_filter1d]. *)
Definition prepare_segment (Sd : list (list double)) (S_n_rows : nat)
    (Wt : list double * list double) (F : FILTER1D_INFO)
    : option FILTER1D_INFO :=
  match load_segment Sd S_n_rows F with
  | None => None
  | Some F1 =>
      Some (if F1.(variable)
            then set_fw Wt.2 (set_ft Wt.1 F1)
            else filter1d_set_up_filter F1)
  end.

Definition filter_segment (Sd : list (list double)) (S_n_rows : nat)
    (Wt : list double * list double) (F : FILTER1D_INFO) : option run :=
  match prepare_segment Sd S_n_rows Wt F with
  | None => None
  | Some F2 => Some (filter1d_do_the_filter F2)
  end.

End Engine.

(** ** From the options to the control structure ([GMT_filter1d])

    The part of [struct FILTER1D_CTRL] the engine reads. *)
Record FILTER1D_CTRL : Type := mkCtrl {
  D_active : bool;  D_inc : double;        (* -D<inc> *)
  E_active : bool;                         (* -E *)
  F_filter : ascii;                        (* character code for the filter *)
  F_width : double;
  F_highpass : bool;
  F_variable : bool;
  F_mode : Z;
  L_active : bool;  L_value : double;      (* -L<lackwidth> *)
  N_col : nat;                             (* -N<t_col> *)
  Q_active : bool;  Q_value : double;      (* -Q<factor> *)
  S_active : bool;  S_value : double;      (* -S<symmetry> *)
  T_active : bool;                         (* -T<tmin/tmax/tinc> *)
  T_min : double;  T_max : double;  T_inc : double;
  T_T_set : nat
}.

(** [gmt_M_memset (&F, 1, struct FILTER1D_INFO); F.equidist = true;]
    followed by [filter1d_load_parameters (&F, Ctrl, n_cols)]. *)
Definition filter1d_load_parameters (Ctrl : FILTER1D_CTRL) (n_cols : nat)
    : FILTER1D_INFO :=
  {| use_ends := Ctrl.(E_active);
     check_asym := Ctrl.(S_active);
     check_lack := Ctrl.(L_active);
     check_q := Ctrl.(Q_active);
     robust := false;
     equidist := negb Ctrl.(D_active);
     out_at_time := Ctrl.(T_active);
     f_operator := false;
     highpass := Ctrl.(F_highpass);
     variable := Ctrl.(F_variable);
     n_cols := n_cols;
     t_col := Ctrl.(N_col);
     n_f_wts := 0;
     half_n_f_wts := 0;
     n_rows := 0;
     n_row_alloc := 0;
     filter_type := 0;
     kind := 0;
     way := 0;
     mode_selection := 0;
     n_multiples := 0;
     ft := [];
     fw := [];
     f_wt := [];
     min_loc := [];
     max_loc := [];
     last_loc := [];
     this_loc := [];
     min_scl := [];
     max_scl := [];
     last_scl := [];
     this_scl := [];
     data := [];
     dt := Ctrl.(D_inc);
     q_factor := Ctrl.(Q_value);
     filter_width := Ctrl.(F_width);
     half_width := d0;
     t_start := Ctrl.(T_min);
     t_stop := Ctrl.(T_max);
     t_start_t := Ctrl.(T_min);
     t_stop_t := Ctrl.(T_max);
     t_int := Ctrl.(T_inc);
     sym_coeff := Ctrl.(S_value);
     lack_width := Ctrl.(L_value);
     extreme := d0;
     Fin := [];
     T_set := Ctrl.(T_T_set);
     T_array := [] |}.

(** [strchr ("BCGMPF", Ctrl->F.filter)]: the robust versions. *)
Definition robust_code (c : ascii) : bool :=
  existsb (Ascii.eqb c) ["B"; "C"; "G"; "M"; "P"; "F"]%char.

(** [tolower] on the codes above. *)
Definition lower_code (c : ascii) : ascii :=
  if robust_code c then ascii_of_nat (nat_of_ascii c + 32) else c.

(** The fields the [switch (Ctrl->F.filter)] assigns. *)
Definition set_filter_kind (ty kd wy ms : Z) (ex : double) (rb : bool)
    (F : FILTER1D_INFO) : FILTER1D_INFO :=
  mkF (F.(use_ends)) (F.(check_asym)) (F.(check_lack)) (F.(check_q)) rb
    (F.(equidist)) (F.(out_at_time)) (F.(f_operator)) (F.(highpass))
    (F.(variable)) (F.(n_cols)) (F.(t_col)) (F.(n_f_wts)) (F.(half_n_f_wts))
    (F.(n_rows)) (F.(n_row_alloc)) ty kd wy ms (F.(n_multiples)) (F.(ft))
    (F.(fw)) (F.(f_wt)) (F.(min_loc)) (F.(max_loc)) (F.(last_loc))
    (F.(this_loc)) (F.(min_scl)) (F.(max_scl)) (F.(last_scl)) (F.(this_scl))
    (F.(data)) (F.(dt)) (F.(q_factor)) (F.(filter_width)) (F.(half_width))
    (F.(t_start)) (F.(t_stop)) (F.(t_start_t)) (F.(t_stop_t)) (F.(t_int))
    (F.(sym_coeff)) (F.(lack_width)) ex (F.(Fin)) (F.(T_set)) (F.(T_array)).

Definition set_Fin (v : list double) (F : FILTER1D_INFO) : FILTER1D_INFO :=
  mkF (F.(use_ends)) (F.(check_asym)) (F.(check_lack)) (F.(check_q))
    (F.(robust)) (F.(equidist)) (F.(out_at_time)) (F.(f_operator))
    (F.(highpass)) (F.(variable)) (F.(n_cols)) (F.(t_col)) (F.(n_f_wts))
    (F.(half_n_f_wts)) (F.(n_rows)) (F.(n_row_alloc)) (F.(filter_type))
    (F.(kind)) (F.(way)) (F.(mode_selection)) (F.(n_multiples)) (F.(ft))
    (F.(fw)) (F.(f_wt)) (F.(min_loc)) (F.(max_loc)) (F.(last_loc))
    (F.(this_loc)) (F.(min_scl)) (F.(max_scl)) (F.(last_scl)) (F.(this_scl))
    (F.(data)) (F.(dt)) (F.(q_factor)) (F.(filter_width)) (F.(half_width))
    (F.(t_start)) (F.(t_stop)) (F.(t_start_t)) (F.(t_stop_t)) (F.(t_int))
    (F.(sym_coeff)) (F.(lack_width)) (F.(extreme)) v (F.(T_set))
    (F.(T_array)).

(** First deal with robustness request, then set filter parameters, then
    [if (F.filter_type > FILTER1D_CONVOLVE) F.robust = false;].
    [coeffs] is the table read from the file of a custom filter. *)
Definition select_filter (Ctrl : FILTER1D_CTRL) (coeffs : list double)
    (F : FILTER1D_INFO) : FILTER1D_INFO :=
  let rb := robust_code Ctrl.(F_filter) in
  let c := lower_code Ctrl.(F_filter) in
  let pick ty kd wy ms ex :=
    set_filter_kind ty kd wy ms ex
      (if (FILTER1D_CONVOLVE <? ty)%Z then false else rb) F in
  if Ascii.eqb c "b" then pick FILTER1D_BOXCAR 0%Z 0%Z 0%Z d0
  else if Ascii.eqb c "c" then pick FILTER1D_COS_ARCH 0%Z 0%Z 0%Z d0
  else if Ascii.eqb c "g" then pick FILTER1D_GAUSSIAN 0%Z 0%Z 0%Z d0
  else if Ascii.eqb c "m" then pick FILTER1D_MEDIAN 0%Z 0%Z 0%Z d0
  else if Ascii.eqb c "p" then
    pick FILTER1D_MODE 0%Z 0%Z Ctrl.(F_mode) d0
  else if Ascii.eqb c "l" then
    pick FILTER1D_LOWER_ALL 0%Z (-1)%Z 0%Z DBL_MAX
  else if Ascii.eqb c "L" then pick FILTER1D_LOWER_POS 1%Z (-1)%Z 0%Z d0
  else if Ascii.eqb c "u" then
    pick FILTER1D_UPPER_ALL 0%Z 1%Z 0%Z (dopp DBL_MAX)
  else if Ascii.eqb c "U" then pick FILTER1D_UPPER_NEG (-1)%Z 1%Z 0%Z d0
  else if Ascii.eqb c "f" then
    set_Fin coeffs (pick FILTER1D_CUSTOM 0%Z 0%Z 0%Z d0)
  else pick 0%Z 0%Z 0%Z 0%Z d0.

(** [filter1d_allocate_space]: one cell per column in every per-column
    array, zeroed; the columns of [data] are not allocated yet. *)
Definition filter1d_allocate_space (F : FILTER1D_INFO) : FILTER1D_INFO :=
  let z := replicate F.(n_cols) d0 in
  let F1 := set_data (replicate F.(n_cols) []) F in
  if F.(robust) || (FILTER1D_CONVOLVE <? F.(filter_type))%Z then
    set_min_loc z (set_max_loc z (set_last_loc z (set_this_loc z
      (set_min_scl z (set_max_scl z (set_this_scl z (set_last_scl z F1)))))))
  else F1.

(** The control structure as it stands when the first segment is loaded. *)
Definition filter1d_init (Ctrl : FILTER1D_CTRL) (coeffs : list double)
    (n_cols : nat) : FILTER1D_INFO :=
  filter1d_allocate_space
    (select_filter Ctrl coeffs (filter1d_load_parameters Ctrl n_cols)).

(** ** The properties in the words of the specification *)

(** A row lies in the window of output time [Tk]:
    [Tk - t - eps <= half_width] and [t - Tk - eps <= half_width]. *)
Definition in_window (F : FILTER1D_INFO) (small Tk : double) (i : nat) : bool :=
  dle (dsub (dsub Tk (time_at F i)) small) F.(half_width)
  && dle (dsub (dsub (time_at F i) Tk) small) F.(half_width).

(** A row whose time lies within W/2 of [T]. *)
Definition within_half_width (F : FILTER1D_INFO) (T : double) (i : nat) : bool :=
  dle (dabs (dsub (time_at F i) T)) (dmul (DFin (1 # 2)) F.(filter_width)).

(** The rows among [rows] that hold a sample (not NaN) of column [i_col]. *)
Definition present (F : FILTER1D_INFO) (i_col : nat) (rows : list nat)
    : list nat :=
  filter (fun i => gmt_M_is_dnan (rd2 F.(data) i_col i) = false) rows.

Definition dsum (l : list double) : double := fold_left dadd l d0.

(** The arithmetic mean of the samples of column [i_col] on [rows]. *)
Definition mean_of (F : FILTER1D_INFO) (i_col : nat) (rows : list nat) : double :=
  ddiv (dsum (map (rd2 F.(data) i_col) rows)) (dnat (length rows)).

(** The arithmetic mean of the non-NaN input samples whose time lies within
    W/2 of [T]. *)
Definition mean_within (F : FILTER1D_INFO) (T : double) (i_col : nat) : double :=
  mean_of F i_col
    (present F i_col
       (filter (fun i => within_half_width F T i = true) (seq 0 F.(n_rows)))).

(** The non-NaN samples of a column in the window, with their times strictly
    before and strictly after [T]. *)
Definition window_rows (left right : nat) : list nat := seq left (right - left).

Definition rows_before (F : FILTER1D_INFO) (T : double) (rows : list nat)
    : list nat :=
  filter (fun i => dlt (time_at F i) T = true) rows.

Definition rows_after (F : FILTER1D_INFO) (T : double) (rows : list nat)
    : list nat :=
  filter (fun i => dgt (time_at F i) T = true) rows.

(** [|n_l - n_r| / (n_l + n_r) > sym_coeff]. *)
Definition symmetry_exceeded (n_l n_r : nat) (sym_coeff : double) : bool :=
  dgt (ddiv (dnat (if n_r <=? n_l then n_l - n_r else n_r - n_l))
            (dnat (n_l + n_r))) sym_coeff.

(** The rows of the window whose tap lies inside the coefficient array. *)
Definition tap_in_range (F : FILTER1D_INFO) (T : double) (i : nat) : bool :=
  (0 <=? tap_index F T i)%Z && (tap_index F T i <? Z.of_nat F.(n_f_wts))%Z.

Definition rows_on_taps (F : FILTER1D_INFO) (T : double) (rows : list nat)
    : list nat :=
  filter (fun i => tap_in_range F T i = true) rows.

(** The sample of a row as it enters the weighted sum of a robust filter:
    replaced by the location when farther than 2.5 scales from it. *)
Definition clipped (loc scl val : double) : double :=
  if dgt (dabs (dsub val loc)) (dmul (DFin (25 # 10)) scl) then loc else val.

(** What an output point leaves untouched: everything but the estimates
    kept from one output point to the next. *)
Definition config (F : FILTER1D_INFO) : FILTER1D_INFO :=
  set_last_loc [] (set_this_loc [] (set_last_scl [] (set_this_scl []
    (set_n_multiples 0 F)))).

(** The states [while (k <= last_k)] goes through, from [left = right = 0]
    at the first output point [k0]. *)
Inductive reached `{GmtLib} (F0 : FILTER1D_INFO) (small : double)
    (iq k0 last_k : nat) : FILTER1D_INFO -> nat -> nat -> nat -> Prop :=
| reached_first : reached F0 small iq k0 last_k F0 0 0 k0
| reached_next F left right k F' left' right' rec :
    reached F0 small iq k0 last_k F left right k ->
    k <= last_k ->
    filter_step F small iq left right k = Next F' left' right' rec ->
    reached F0 small iq k0 last_k F' left' right' (S k).

(** A series with finite, non-decreasing times, as loading leaves it. *)
Definition times_finite (F : FILTER1D_INFO) (tq : nat -> Q) : Prop :=
  forall i, i < F.(n_rows) -> time_at F i = DFin (tq i).

Definition times_sorted (F : FILTER1D_INFO) (tq : nat -> Q) : Prop :=
  forall i j, i <= j -> j < F.(n_rows) -> (tq i <= tq j)%Q.

(** Output times in increasing order. *)
Definition outputs_sorted (F : FILTER1D_INFO) (Tq : nat -> Q) (last_k : nat)
    : Prop :=
  (forall k, k <= last_k -> rd F.(T_array) k = DFin (Tq k))
  /\ (forall k, S k <= last_k -> (Tq k <= Tq (S k))%Q).

(** What the tracker knows of the rows it has passed, [n] rows in all: those
    before [left] lie before the window of [T], those before [right] do not
    lie after it. *)
Definition passed (n : nat) (tq : nat -> Q) (hw sm T : Q) (left right : nat)
    : Prop :=
  (forall i, i < left -> i < n -> (hw < T - tq i - sm)%Q)
  /\ (forall i, i < right -> i < n -> (tq i - T - sm <= hw)%Q).

(** ** A stand-in library, to run the engine on concrete inputs

    The median sorts; interpolation is linear between the knots; the output
    array steps from the start by the increment up to the stop.  No example
    reaches the mode, the extreme value, the cosine or the exponential. *)

Fixpoint insert_sorted (x : Q) (l : list Q) : list Q :=
  match l with
  | [] => [x]
  | y :: l' => if Qle_bool x y then x :: l else y :: insert_sorted x l'
  end.

Definition sort_Q (l : list Q) : list Q := foldr insert_sorted [] l.

Definition finite_part (l : list double) : list Q :=
  omap (fun x => match x with DFin q => Some q | _ => None end) l.

Definition test_median (x : list double) (_ _ _ : double) : double :=
  let s := sort_Q (finite_part x) in
  let n := length s in
  if n =? 0 then DNaN
  else if Nat.even n
       then DFin ((nth (n / 2 - 1) s 0%Q + nth (n / 2) s 0%Q) / 2)%Q
       else DFin (nth (n / 2) s 0%Q).

Definition test_create_array (inc lo hi : double) : option (list double) :=
  match inc, lo, hi with
  | DFin i, DFin a, DFin b =>
      if Qle_bool i 0 then None
      else Some (map (fun j => DFin (a + inject_Z (Z.of_nat j) * i)%Q)
                     (seq 0 (Z.to_nat (Qfloor ((b - a) / i)) + 1)))
  | _, _, _ => None
  end.

Fixpoint test_intpol (x y : list double) (u : double) : option double :=
  match x, y with
  | DFin x0 :: ((DFin x1 :: _) as x'), DFin y0 :: ((DFin y1 :: _) as y') =>
      match u with
      | DFin q =>
          if Qle_bool x0 q && Qle_bool q x1
          then Some (DFin (y0 + (y1 - y0) * (q - x0) / (x1 - x0))%Q)
          else test_intpol x' y' u
      | _ => None
      end
  | _, _ => None
  end.

Definition TestLib : GmtLib := {|
  gmt_median := test_median;
  gmt_mode := fun x _ _ _ n => (n, DNaN);
  gmt_extreme := fun _ d _ _ => d;
  gmt_intpol := test_intpol;
  gmt_create_array := test_create_array;
  d_cos := fun _ => DNaN;
  d_exp := fun _ => DNaN;
  M_PI := DFin (355 # 113) |}.

(** Options for the examples: filter code and width, -D1, and optionally
    -E, +h, a variable width, -L, -S and -T<min>/<max>/<inc>. *)
Definition test_ctrl (code : ascii) (width : Q) (ends hp var : bool)
    (lack sym : option Q) (T : option (Q * Q * Q)) : FILTER1D_CTRL :=
  {| D_active := true;
     D_inc := d1;
     E_active := ends;
     F_filter := code;
     F_width := DFin width;
     F_highpass := hp;
     F_variable := var;
     F_mode := 0%Z;
     L_active := match lack with Some _ => true | None => false end;
     L_value := match lack with Some l => DFin l | None => d0 end;
     N_col := 0;
     Q_active := false;
     Q_value := d0;
     S_active := match sym with Some _ => true | None => false end;
     S_value := match sym with Some c => DFin c | None => d0 end;
     T_active := match T with Some _ => true | None => false end;
     T_min := match T with Some (a, _, _) => DFin a | None => d0 end;
     T_max := match T with Some (_, b, _) => DFin b | None => d0 end;
     T_inc := match T with Some (_, _, i) => DFin i | None => d0 end;
     T_T_set := match T with Some _ => 3 | None => 0 end |}.

(** The records of a run that ends. *)
Definition records_of (r : option run) : option (list (list double)) :=
  match r with Some (Finished _ out) => Some out | _ => None end.

(** Two columns, time first. *)
Definition table (t v : list double) : list (list double) := [t; v].

(** ** Further definitions the properties are stated with *)

(** The structure, first output point and [last_k] with which the loop of
    [filter1d_do_the_filter] starts on a segment. *)
Definition start_of (Ctrl : FILTER1D_CTRL) (coeffs : list double)
    (Wt : list double * list double) (Sd : list (list double)) (n : nat)
    : FILTER1D_INFO * nat * nat :=
  let F := @filter1d_init Ctrl coeffs (length Sd) in
  match @prepare_segment TestLib Sd n Wt F with
  | Some F1 =>
      match @output_plan TestLib F1 with
      | Some p => p
      | None => (F1, 0, 0)
      end
  | None => (F, 0, 0)
  end.

Definition no_widths : list double * list double := ([], []).

(** The scenario of the specification: boxcar of width 2, -D1, native
    output, ends trimmed. *)
Definition scenario_series : list (list double) :=
  table (map dZ [0; 1; 2; 3; 4]%Z) (map dZ [1; 2; 3; 4; 5]%Z).

Definition scenario_ctrl : FILTER1D_CTRL :=
  test_ctrl "b" 2 false false false None None None.

Definition scenario_start : FILTER1D_INFO * nat * nat :=
  Eval vm_compute in start_of scenario_ctrl [] no_widths scenario_series 5.

(** A boxcar whose width is read from a table: 6 at time 2, 1 at time 3;
    output at times 2 and 3. *)
Definition var_series : list (list double) :=
  table (map dZ [0; 1; 2; 3; 4; 5; 6; 7; 8; 9]%Z)
        (map dZ [1; 2; 3; 4; 5; 6; 7; 8; 9; 10]%Z).

Definition var_widths : list double * list double :=
  (map dZ [2; 3]%Z, map dZ [6; 1]%Z).

Definition var_ctrl : FILTER1D_CTRL :=
  test_ctrl "b" 0 true false true None None (Some (2, 3, 1)%Q).

Definition var_start : FILTER1D_INFO * nat * nat :=
  Eval vm_compute in start_of var_ctrl [] var_widths var_series 10.

Definition tq_nat (i : nat) : Q := inject_Z (Z.of_nat i).

(** Whether column [i] is good when the columns of an output point are
    settled. *)
Definition passing `{GmtLib} (F : FILTER1D_INFO) (iq left right k i : nat)
    : bool :=
  match (settle_columns F iq left right k).2 !! i with
  | Some c => c.(good_one)
  | None => false
  end.

(** Skipped at once with -L0.5: the width 2 over 3 rows exceeds it. *)
Definition skip_ctrl : FILTER1D_CTRL :=
  test_ctrl "b" 2 false false false (Some (1 # 2)%Q) None None.

Definition skip_start : FILTER1D_INFO * nat * nat :=
  Eval vm_compute in start_of skip_ctrl [] no_widths scenario_series 5.

(** One column through the loop that fills the work arrays, and through the
    loop of the convolution. *)
Definition collect_col (F : FILTER1D_INFO) (t_time : double) (rows : list nat)
    (i_col : nat) (c : column) : column :=
  fold_left (fun c r => collect_cell F t_time r i_col c) rows c.

Definition convolve_col (F : FILTER1D_INFO) (t_time : double) (rows : list nat)
    (i_col : nat) (c : column) : column :=
  fold_left
    (fun c r =>
       if tap_in_range F t_time r
       then convolve_cell F t_time r (tap_index F t_time r) i_col c
       else c)
    rows c.

(** The weight of the tap a row falls on, and the sample as it enters the
    weighted sum. *)
Definition tap_weight (F : FILTER1D_INFO) (T : double) (r : nat) : double :=
  rd F.(f_wt) (Z.to_nat (tap_index F T r)).

Definition used_sample (F : FILTER1D_INFO) (i_col r : nat) : double :=
  if F.(robust)
  then clipped (rd F.(this_loc) i_col) (rd F.(this_scl) i_col)
               (rd2 F.(data) i_col r)
  else rd2 F.(data) i_col r.

(** The gates of the robust block on one column, in the order of the code. *)
Definition robust_gates (F : FILTER1D_INFO) (iq : nat) (c : column) : column :=
  let c1 := if F.(check_asym) then asym_gate F c else c in
  if (FILTER1D_CONVOLVE <? F.(filter_type))%Z && F.(check_q)
  then count_gate iq c1 else c1.

(** The asymmetry verdict on the rows [P]. *)
Definition lopsided (F : FILTER1D_INFO) (T : double) (P : list nat) : bool :=
  symmetry_exceeded (length (rows_before F T P)) (length (rows_after F T P))
    F.(sym_coeff).

(** Boxcar of width 1 with -D1 -E -S0.5 on times 0, 0.5, 1. *)
Definition sym_series : list (list double) :=
  table [DFin 0; DFin (1 # 2); DFin 1] (map dZ [1; 2; 3]%Z).

Definition sym_ctrl : FILTER1D_CTRL :=
  test_ctrl "b" 1 true false false None (Some (1 # 2)%Q) None.

Definition sym_start : FILTER1D_INFO * nat * nat :=
  Eval vm_compute in start_of sym_ctrl [] no_widths sym_series 3.

(** The location and the scale of a robust filter on the samples [W] of
    column [j]: the median within the running bounds of the column, started
    from the last location; and the median of the absolute deviations from
    that location, within the bounds of the scale, started from the last
    scale. *)
Definition robust_location `{GmtLib} (F : FILTER1D_INFO) (W : list double)
    (j : nat) : double :=
  gmt_median W (rd F.(min_loc) j) (rd F.(max_loc) j) (rd F.(last_loc) j).

Definition robust_scale `{GmtLib} (F : FILTER1D_INFO) (W : list double)
    (j : nat) : double :=
  gmt_median (map (fun x => dabs (dsub x (robust_location F W j))) W)
    (rd F.(min_scl) j) (rd F.(max_scl) j) (rd F.(last_scl) j).

(** The four estimates kept for column [j]. *)
Definition estimates_at (F : FILTER1D_INFO) (j : nat)
    : double * double * double * double :=
  (rd F.(this_loc) j, rd F.(last_loc) j, rd F.(this_scl) j, rd F.(last_scl) j).

(** The arrays of estimates hold one cell per column. *)
Definition estimates_allocated (F : FILTER1D_INFO) : Prop :=
  length F.(this_loc) = F.(n_cols) /\ length F.(last_loc) = F.(n_cols)
  /\ length F.(this_scl) = F.(n_cols) /\ length F.(last_scl) = F.(n_cols).

(** The weighted sum and the sum of the weights of column [i_col] at an
    output point: over the rows of the window whose tap lies in the
    coefficient array and that hold a sample, in row order.  [F1] is the
    structure once the estimates of the point are made; it gives a robust
    filter its location and scale. *)
Definition weighted_sum (F F1 : FILTER1D_INFO) (T : double)
    (left right i_col : nat) : double :=
  dsum (map (fun r => dmul (tap_weight F T r) (used_sample F1 i_col r))
            (present F i_col (rows_on_taps F T (window_rows left right)))).

Definition weight_sum (F : FILTER1D_INFO) (T : double) (left right i_col : nat)
    : double :=
  dsum (map (tap_weight F T)
            (present F i_col (rows_on_taps F T (window_rows left right)))).

(** The lowpass value turned into the output value. *)
Definition pass_value (F : FILTER1D_INFO) (i_col k : nat) (lowpass : double)
    : double :=
  if F.(highpass) then dsub (rd2 F.(data) i_col k) lowpass else lowpass.

Definition Qsum (qs : list Q) : Q := fold_left Qplus qs 0%Q.

(** A custom filter 1, 2, 1 on the series of the scenario. *)
Definition custom_ctrl : FILTER1D_CTRL :=
  test_ctrl "f" 0 true false false None None None.

Definition custom_loaded : FILTER1D_INFO :=
  Eval vm_compute in
    match @load_segment scenario_series 5
            (filter1d_init custom_ctrl (map dZ [1; 2; 1]%Z) 2) with
    | Some F => F
    | None => filter1d_init custom_ctrl [] 2
    end.

Definition custom_start : FILTER1D_INFO * nat * nat :=
  Eval vm_compute in
    start_of custom_ctrl (map dZ [1; 2; 1]%Z) no_widths scenario_series 5.

(** The number a finite double stands for. *)
Definition qval (x : double) : Q :=
  match x with DFin q => q | _ => 0%Q end.

(** Binary64 rounding, for the properties that turn on it.  [Qpow2 s] is
    2^s. *)
Definition Qpow2 (s : Z) : Q :=
  if (0 <=? s)%Z then inject_Z (2 ^ s) else 1 # Z.to_pos (2 ^ (- s)).

(** The exponent e of a positive number a: 2^e <= a < 2^(e+1). *)
Definition b64_exponent (a : Q) : Z :=
  let e := (Z.log2 (Qnum a) - Z.log2 (Zpos (Qden a)))%Z in
  if Qle_bool (Qpow2 e) a then e else (e - 1)%Z.

(** The binary64 number nearest to [q]: round to nearest, ties to even, on
    53 significant bits (the exponent is taken unbounded: no overflow, no
    underflow).  The embedding computes with exact rationals; where a
    property turns on the rounding of a [double], this is the rounding of
    one operation. *)
Definition b64_round (q : Q) : Q :=
  match Qcompare q 0 with
  | Eq => 0%Q
  | c =>
      let a := Qabs q in
      let s := (b64_exponent a - 52)%Z in
      let m := Qrint (a / Qpow2 s) in
      Qred ((match c with Lt => -1 | _ => 1 end) * inject_Z m * Qpow2 s)
  end.

Definition b64_add (a b : Q) : Q := b64_round (a + b).
Definition b64_div (a b : Q) : Q := b64_round (a / b).

(** Lines 472-477 of [filter1d_set_up_filter] on finite coefficients, every
    operation rounded:
    [for (i = 0, w_sum = 0.0; i < n_f_wts; ++i) w_sum += f_wt[i];
     if (w_sum > 1.0) for (i = 0; i < n_f_wts; ++i) f_wt[i] /= w_sum;] *)
Definition b64_normalise (f_wt : list Q) : list Q :=
  let w_sum := fold_left b64_add f_wt 0%Q in
  if Qltb 1 w_sum then map (fun w => b64_div w w_sum) f_wt else f_wt.

(** A custom filter of six coefficients 1 on the series of the scenario. *)
Definition six_ones_loaded : FILTER1D_INFO :=
  Eval vm_compute in
    match @load_segment scenario_series 5
            (filter1d_init custom_ctrl (map dZ [1; 1; 1; 1; 1; 1]%Z) 2) with
    | Some F => F
    | None => filter1d_init custom_ctrl [] 2
    end.

(** The distance of tap [j] from the centre tap. *)
Definition tap_offset (half_n j : nat) : nat :=
  if half_n <=? j then j - half_n else half_n - j.

(** What setting a filter up leaves untouched: everything but the
    coefficients, the half width, [dt], the range of output times and the
    estimates. *)
Definition series_view (F : FILTER1D_INFO) : FILTER1D_INFO :=
  config (set_t_start d0 (set_t_stop d0 (set_dt d0 (set_f_wt []
    (set_n_f_wts 0 (set_half_n_f_wts 0 (set_half_width d0 F))))))).

(** The fields holding the coefficients. *)
Definition coefficients (F : FILTER1D_INFO)
    : double * double * nat * nat * list double * double :=
  (F.(dt), F.(half_width), F.(half_n_f_wts), F.(n_f_wts), F.(f_wt),
   F.(filter_width)).

(** Every sample of the series is a number or NaN. *)
Definition samples_only (G : FILTER1D_INFO) : Prop :=
  forall i r, i < G.(n_cols) -> r < G.(n_rows) -> is_sample (rd2 G.(data) i r).

(** The distance of row [r] from the output time [T] in whole steps of
    [dt]: the step nearest to [(T - t) / dt], [floor (0.5 + (T - t) / dt)]. *)
Definition whole_steps (F : FILTER1D_INFO) (T : double) (r : nat) : Z :=
  lrint (dfloor (dadd (DFin (1 # 2))
                      (ddiv (dsub T (time_at F r)) F.(dt)))).

(** The distance of row [r] from [T], in whole steps [j] of [dt], is within
    half the filter width: [|j| <= half_n_f_wts] and not
    [|j| * dt > half_width]. *)
Definition steps_within (F : FILTER1D_INFO) (T : double) (r : nat) : bool :=
  (Z.abs (whole_steps F T r) <=? Z.of_nat F.(half_n_f_wts))%Z
  && negb (dgt (dmul (dZ (Z.abs (whole_steps F T r))) F.(dt)) F.(half_width)).

(** The tolerance of the scans for the first and the last output time:
    the first time step times 1e-8. *)
Definition scan_tolerance (tq : nat -> Q) : Q :=
  ((tq 1%nat + - tq 0%nat) * (1 # 100000000))%Q.

(** The tolerance of the window with output at the input times: the first
    time step times 1e-8. *)
Definition native_tolerance (F : FILTER1D_INFO) : double :=
  dmul (dsub (time_at F 1) (time_at F 0)) GMT_CONV8_LIMIT.

(** The rows a boxcar counts at the output time [T]: those whose time lies
    within W/2 of [T], up to the tolerance, and whose distance from [T] in
    whole steps of [dt] is within W/2 too. *)
Definition counted (F : FILTER1D_INFO) (T : double) (r : nat) : bool :=
  in_window F (native_tolerance F) T r && steps_within F T r.

(** The arithmetic mean of the samples (not NaN) of column [i_col] on the
    rows counted at [T]. *)
Definition mean_counted (F : FILTER1D_INFO) (T : double) (i_col : nat)
    : double :=
  mean_of F i_col
    (present F i_col
       (filter (fun r => counted F T r = true) (seq 0 F.(n_rows)))).

(** The coefficients [filter1d_set_up_filter] gives a boxcar. *)
Definition boxcar_taps `{GmtLib} (G : FILTER1D_INFO) : Prop :=
  G.(n_f_wts) = 2 * G.(half_n_f_wts) + 1
  /\ G.(f_wt)
     = fill_weights FILTER1D_BOXCAR G.(half_n_f_wts) G.(dt) G.(half_width)
         (replicate (2 * G.(half_n_f_wts) + 1) d0).

(** No quality gate, lowpass, one fixed width, output at the input times. *)
Definition no_gates (F : FILTER1D_INFO) : Prop :=
  F.(robust) = false /\ F.(check_asym) = false /\ F.(check_lack) = false
  /\ F.(check_q) = false /\ F.(highpass) = false /\ F.(f_operator) = false
  /\ F.(variable) = false /\ F.(out_at_time) = false.

(** The structure of the scenario once the segment is loaded, before the
    filter is set up. *)
Definition scenario_loaded : FILTER1D_INFO :=
  Eval vm_compute in
    match @load_segment scenario_series 5 (filter1d_init scenario_ctrl [] 2) with
    | Some F => F
    | None => filter1d_init scenario_ctrl [] 2
    end.

(** The scenario without -D: the resolution is computed from the evenly
    sampled series, (4 - 0) / 4. *)
Definition even_ctrl : FILTER1D_CTRL :=
  {| D_active := false; D_inc := d0; E_active := false;
     F_filter := "b"; F_width := DFin 2; F_highpass := false;
     F_variable := false; F_mode := 0%Z;
     L_active := false; L_value := d0; N_col := 0;
     Q_active := false; Q_value := d0; S_active := false; S_value := d0;
     T_active := false; T_min := d0; T_max := d0; T_inc := d0;
     T_T_set := 0 |}.

Definition even_loaded : FILTER1D_INFO :=
  Eval vm_compute in
    match @load_segment scenario_series 5 (filter1d_init even_ctrl [] 2) with
    | Some F => F
    | None => filter1d_init even_ctrl [] 2
    end.

(** Boxcar of width 3 with -D1 on times 0, 1.5, 3: every sample lies within
    W/2 of the output time 1.5. *)
Definition offgrid_series : list (list double) :=
  table [DFin 0; DFin (3 # 2); DFin 3] (map dZ [3; 6; 9]%Z).

Definition offgrid_ctrl : FILTER1D_CTRL :=
  test_ctrl "b" 3 false false false None None None.

Definition offgrid_prepared : FILTER1D_INFO :=
  Eval vm_compute in
    match @prepare_segment TestLib offgrid_series 3 no_widths
            (filter1d_init offgrid_ctrl [] 2) with
    | Some F => F
    | None => filter1d_init offgrid_ctrl [] 2
    end.

(** Samples at times 0, 1, 2, 10, 11, none of them NaN; boxcar of width 22
    with -D1 -E -L5. *)
Definition lack_series : list (list double) :=
  table (map dZ [0; 1; 2; 10; 11]%Z) (map dZ [1; 2; 3; 4; 5]%Z).

Definition lack_ctrl : FILTER1D_CTRL :=
  test_ctrl "b" 22 true false false (Some 5%Q) None None.

Definition lack_prepared : FILTER1D_INFO :=
  Eval vm_compute in
    match @prepare_segment TestLib lack_series 5 no_widths
            (filter1d_init lack_ctrl [] 2) with
    | Some F => F
    | None => filter1d_init lack_ctrl [] 2
    end.

(** Highpass boxcar of width 2 with -D1 -E, output at times 1 and 3
    (-T1/3/2), on times 0..4 with values 10, 20, 40, 80, 160; and the same
    filter without +h. *)
Definition highpass_series : list (list double) :=
  table (map dZ [0; 1; 2; 3; 4]%Z) (map dZ [10; 20; 40; 80; 160]%Z).

Definition highpass_ctrl (hp : bool) : FILTER1D_CTRL :=
  test_ctrl "b" 2 true hp false None None (Some (1, 3, 2)%Q).

(** Three rows, the second with NaN for time, loaded into a structure that
    has loaded nothing yet. *)
Definition nan_time_series : list (list double) :=
  table [DFin 0; DNaN; DFin 1] (map dZ [1; 2; 3]%Z).

(** Robust boxcar of width 2 with -D1 on the series of the scenario. *)
Definition robust_ctrl : FILTER1D_CTRL :=
  test_ctrl "B" 2 false false false None None None.

Definition robust_start : FILTER1D_INFO * nat * nat :=
  Eval vm_compute in start_of robust_ctrl [] no_widths scenario_series 5.

(** Samples at times 0..4 of which the whole second column is missing;
    boxcar of width 4 with -D1 -E -L1. *)
Definition missing_series : list (list double) :=
  table (map dZ [0; 1; 2; 3; 4]%Z) [DNaN; DNaN; DNaN; DNaN; DNaN].

Definition missing_ctrl : FILTER1D_CTRL :=
  test_ctrl "b" 4 true false false (Some 1%Q) None None.

Definition missing_prepared : FILTER1D_INFO :=
  Eval vm_compute in
    match @prepare_segment TestLib missing_series 5 no_widths
            (filter1d_init missing_ctrl [] 2) with
    | Some F => F
    | None => filter1d_init missing_ctrl [] 2
    end.

(** The magnitude of [DBL_MAX]. *)
Definition DBL_MAX_Q : Q := inject_Z (2 ^ 1024 - 2 ^ 971).

(** The columns of [data] hold at least [n] cells. *)
Definition rows_allocated (F : FILTER1D_INFO) (n : nat) : Prop :=
  forall col c, F.(data) !! col = Some c -> n <= length c.

(** Whether loading tracks the range of every column. *)
Definition tracks_range (F : FILTER1D_INFO) : bool :=
  F.(robust) || (F.(filter_type) =? FILTER1D_MEDIAN)%Z.

(** Three rows whose times go 0, 2, 1. *)
Definition unsorted_series : list (list double) :=
  table (map dZ [0; 2; 1]%Z) (map dZ [1; 2; 3]%Z).

(** A median filter of width 2 with -D1. *)
Definition median_ctrl : FILTER1D_CTRL :=
  test_ctrl "m" 2 false false false None None None.

(** The structure as the row loop finds it. *)
Definition before_rows (S_n_rows : nat) (F : FILTER1D_INFO) : FILTER1D_INFO :=
  let F1 :=
    if F.(n_row_alloc) <? S_n_rows then
      filter1d_allocate_data_space
        (set_n_row_alloc (Nat.max GMT_CHUNK S_n_rows) F)
    else F in
  let F2 :=
    if F1.(robust) || (F1.(filter_type) =? FILTER1D_MEDIAN)%Z then
      set_min_loc (map (fun _ => DBL_MAX) F1.(min_loc))
        (set_max_loc (map (fun _ => dopp DBL_MAX) F1.(max_loc)) F1)
    else F1 in
  set_n_rows 0 F2.

(** The cells of column [col] in the arrays of bounds and first guesses. *)
Definition column_tracked (F : FILTER1D_INFO) (col : nat) : Prop :=
  col < length F.(min_loc) /\ col < length F.(max_loc)
  /\ col < length F.(last_loc) /\ col < length F.(min_scl)
  /\ col < length F.(max_scl) /\ col < length F.(last_scl).

(** A row of the segment that is loaded: its time is not NaN. *)
Definition row_kept (Sd : list (list double)) (F : FILTER1D_INFO) (r : nat)
    : Prop :=
  gmt_M_is_dnan (rd2 Sd F.(t_col) r) = false.

(** The series of the scenario loaded for the median filter. *)
Definition median_loaded : FILTER1D_INFO :=
  Eval vm_compute in
    match @load_segment scenario_series 5 (filter1d_init median_ctrl [] 2) with
    | Some F => F
    | None => filter1d_init median_ctrl [] 2
    end.

(** The scenario of the specification once the filter is set up. *)
Definition scenario_prepared : FILTER1D_INFO :=
  Eval vm_compute in @filter1d_set_up_filter TestLib scenario_loaded.

(** What is taken off each end of the range of output times: nothing with
    -E, half the filter width otherwise. *)
Definition end_trim (F : FILTER1D_INFO) (W : Q) : Q :=
  if F.(use_ends) then 0%Q else ((1 # 2) * W)%Q.

(** The scenario with output every 2 from the first sample on (-T2), and
    with output every 2 from -1 to 6 (-T-1/6/2). *)
Definition every_two_ctrl : FILTER1D_CTRL :=
  {| D_active := true; D_inc := d1; E_active := false;
     F_filter := "b"; F_width := DFin 2; F_highpass := false;
     F_variable := false; F_mode := 0%Z;
     L_active := false; L_value := d0; N_col := 0;
     Q_active := false; Q_value := d0; S_active := false; S_value := d0;
     T_active := true; T_min := d0; T_max := d0; T_inc := DFin 2;
     T_T_set := 1 |}.

Definition every_two_loaded : FILTER1D_INFO :=
  Eval vm_compute in
    match @load_segment scenario_series 5 (filter1d_init every_two_ctrl [] 2) with
    | Some F => F
    | None => filter1d_init every_two_ctrl [] 2
    end.

Definition lattice_ctrl : FILTER1D_CTRL :=
  test_ctrl "b" 2 false false false None None (Some (-1, 6, 2)%Q).

Definition lattice_loaded : FILTER1D_INFO :=
  Eval vm_compute in
    match @load_segment scenario_series 5 (filter1d_init lattice_ctrl [] 2) with
    | Some F => F
    | None => filter1d_init lattice_ctrl [] 2
    end.

(** A double that holds the whole number [z], small enough for the
    arithmetic on whole numbers and their halves to be exact in a
    [double]. *)
Definition whole (x : double) (z : Z) : Prop :=
  x = dZ z /\ (Z.abs z < 2 ^ 51)%Z.

(** The scenario with -Q0.5, and the median filter of width 2 with -Q0.75 on
    the same series. *)
Definition quality_ctrl : FILTER1D_CTRL :=
  {| D_active := true; D_inc := d1; E_active := false;
     F_filter := "b"; F_width := DFin 2; F_highpass := false;
     F_variable := false; F_mode := 0%Z;
     L_active := false; L_value := d0; N_col := 0;
     Q_active := true; Q_value := DFin (1 # 2);
     S_active := false; S_value := d0;
     T_active := false; T_min := d0; T_max := d0; T_inc := d0;
     T_T_set := 0 |}.

Definition quality_start : FILTER1D_INFO * nat * nat :=
  Eval vm_compute in start_of quality_ctrl [] no_widths scenario_series 5.

Definition median_quality_ctrl : FILTER1D_CTRL :=
  {| D_active := true; D_inc := d1; E_active := false;
     F_filter := "m"; F_width := DFin 2; F_highpass := false;
     F_variable := false; F_mode := 0%Z;
     L_active := false; L_value := d0; N_col := 0;
     Q_active := true; Q_value := DFin (3 # 4);
     S_active := false; S_value := d0;
     T_active := false; T_min := d0; T_max := d0; T_inc := d0;
     T_T_set := 0 |}.

Definition median_quality_start : FILTER1D_INFO * nat * nat :=
  Eval vm_compute in
    start_of median_quality_ctrl [] no_widths scenario_series 5.

(** The location the median filter and the extreme-value filters take from
    the samples [W] of column [j]: the extreme value of the kind asked for,
    or the median searched within the bounds of the column from its last
    location. *)
Definition window_location `{GmtLib} (F : FILTER1D_INFO) (W : list double)
    (j : nat) : double :=
  if (FILTER1D_MODE <? F.(filter_type))%Z
  then gmt_extreme W F.(extreme) F.(kind) F.(way)
  else gmt_median W (rd F.(min_loc) j) (rd F.(max_loc) j) (rd F.(last_loc) j).

(** The median filter of width 2 with -D1 on the series of the scenario. *)
Definition median_start : FILTER1D_INFO * nat * nat :=
  Eval vm_compute in start_of median_ctrl [] no_widths scenario_series 5.

(** What no turn of the loop of [filter1d_do_the_filter] changes, whatever
    the kind of width: the table of widths, the output times and the
    columns. *)
Definition loop_view (F : FILTER1D_INFO)
    : bool * list double * list double * list double * nat * nat :=
  (F.(variable), F.(ft), F.(fw), F.(T_array), F.(n_cols), F.(t_col)).

(** The width is read from the table at output point [k], inside the times
    of the table, and the interpolation fails. *)
Definition width_fails `{GmtLib} (F : FILTER1D_INFO) (k : nat) : bool :=
  let Tk := rd F.(T_array) k in
  F.(variable)
  && negb (dlt Tk (rd F.(ft) 0) || dgt Tk (rd F.(ft) (length F.(ft) - 1)))
  && match gmt_intpol F.(ft) F.(fw) Tk with None => true | Some _ => false end.

(** The time a record holds. *)
Definition record_time (F : FILTER1D_INFO) (rec : list double) : double :=
  rd rec F.(t_col).

(** The robust boxcar of the scenario, loaded. *)
Definition robust_loaded : FILTER1D_INFO :=
  Eval vm_compute in
    match @load_segment scenario_series 5 (filter1d_init robust_ctrl [] 2) with
    | Some F => F
    | None => filter1d_init robust_ctrl [] 2
    end.

(** The scenario with output every 2 (-T2): the loop starts with the output
    times 1 and 3, the times of rows 1 and 3. *)
Definition every_two_start : FILTER1D_INFO * nat * nat :=
  Eval vm_compute in start_of every_two_ctrl [] no_widths scenario_series 5.

(** A convolution that is not robust, with one width, output at the input
    times and none of the lack, asymmetry and quality checks. *)
Definition plain_native (F : FILTER1D_INFO) : Prop :=
  F.(out_at_time) = false /\ F.(variable) = false /\ F.(robust) = false
  /\ (FILTER1D_CONVOLVE <? F.(filter_type))%Z = false
  /\ F.(check_lack) = false /\ F.(check_asym) = false
  /\ F.(check_q) = false.

#[global] Arguments dadd : simpl never.
#[global] Arguments dsub : simpl never.
#[global] Arguments dmul : simpl never.
#[global] Arguments ddiv : simpl never.
#[global] Arguments dabs : simpl never.
#[global] Arguments dlt : simpl never.
#[global] Arguments dgt : simpl never.
#[global] Arguments dle : simpl never.

(** * Properties *)

(** ** Arithmetic of the double model *)

Lemma Qltb_lt (a b : Q) : Qltb a b = true <-> (a < b)%Q.
Proof.
  unfold Qltb. rewrite (Qlt_alt a b). destruct (a ?= b)%Q; split; congruence.
Qed.

Lemma Qltb_ge (a b : Q) : Qltb a b = false <-> (b <= a)%Q.
Proof.
  rewrite <- not_true_iff_false, Qltb_lt. split.
  - apply Qnot_lt_le.
  - apply Qle_not_lt.
Qed.

Lemma dlt_fin (a b : Q) : dlt (DFin a) (DFin b) = true <-> (a < b)%Q.
Proof. apply Qltb_lt. Qed.

Lemma dgt_fin (a b : Q) : dgt (DFin a) (DFin b) = true <-> (b < a)%Q.
Proof. apply Qltb_lt. Qed.

Lemma dle_fin (a b : Q) : dle (DFin a) (DFin b) = true <-> (a <= b)%Q.
Proof.
  unfold dle. rewrite negb_true_iff. apply Qltb_ge.
Qed.

Lemma dgt_fin_false (a b : Q) : dgt (DFin a) (DFin b) = false <-> (a <= b)%Q.
Proof. apply Qltb_ge. Qed.

Lemma dle_fin_false (a b : Q) : dle (DFin a) (DFin b) = false <-> (b < a)%Q.
Proof.
  unfold dle. rewrite negb_false_iff. apply Qltb_lt.
Qed.

(** ** The window tracker *)

Lemma advance_left_ge fuel F small Tk left :
  left <= advance_left fuel F small Tk left.
Proof.
  revert left. induction fuel as [| fuel IH]; intros left; simpl; [lia |].
  destruct (_ && _); [| lia]. specialize (IH (S left)). lia.
Qed.

Lemma advance_right_ge fuel F small Tk right :
  right <= advance_right fuel F small Tk right.
Proof.
  revert right. induction fuel as [| fuel IH]; intros right; simpl; [lia |].
  destruct (_ && _); [| lia]. specialize (IH (S right)). lia.
Qed.

Section Frame.
Context `{GmtLib}.

Lemma get_robust_estimates_config F w j n both :
  config (filter1d_get_robust_estimates F w j n both).1 = config F.
Proof.
  unfold filter1d_get_robust_estimates.
  destruct (FILTER1D_MODE <? filter_type F)%Z.
  - destruct both; reflexivity.
  - destruct (filter_type F =? FILTER1D_MODE)%Z.
    + destruct (gmt_mode _ _ _ _ _) as [m t]. destruct both; reflexivity.
    + destruct both; reflexivity.
Qed.

Lemma estimate_columns_config cols : forall F i_col,
  config (estimate_columns F i_col cols).1 = config F.
Proof.
  induction cols as [| c cols IH]; intros F i_col; simpl; [reflexivity |].
  destruct (good_one c).
  - destruct (filter1d_get_robust_estimates F (work c) i_col (n_this_col c)
                (robust F)) as [F' w'] eqn:E.
    specialize (IH F' (S i_col)).
    destruct (estimate_columns F' (S i_col) cols) as [F2 cs]. simpl in *.
    rewrite IH. pose proof (get_robust_estimates_config F (work c) i_col
      (n_this_col c) (robust F)) as E'. rewrite E in E'. exact E'.
  - specialize (IH F (S i_col)).
    destruct (estimate_columns F (S i_col) cols) as [F2 cs]. exact IH.
Qed.

Lemma settle_columns_config F iq left right k :
  config (settle_columns F iq left right k).1 = config F.
Proof.
  unfold settle_columns.
  destruct (robust F || (FILTER1D_CONVOLVE <? filter_type F)%Z).
  - unfold robust_work.
    match goal with |- context [estimate_columns F 0 ?cs] =>
      pose proof (estimate_columns_config cs F 0) as E;
      destruct (estimate_columns F 0 cs) as [F1 cols1] end.
    simpl in E. destruct (FILTER1D_CONVOLVE <? filter_type F1)%Z; exact E.
  - destruct (FILTER1D_CONVOLVE <? filter_type F)%Z; reflexivity.
Qed.

Lemma filter_point_config F iq left right k :
  config (filter_point F iq left right k).1 = config F.
Proof.
  unfold filter_point.
  pose proof (settle_columns_config F iq left right k) as E.
  destruct (settle_columns F iq left right k) as [F1 cols]. exact E.
Qed.

End Frame.

Section Tracker.
Context `{GmtLib}.

Lemma filter_step_monotone F small iq left right k F' left' right' rec :
  filter_step F small iq left right k = Next F' left' right' rec ->
  left <= left' /\ right <= right'.
Proof.
  unfold filter_step, filter_window. intros E.
  pose proof (advance_left_ge) as AL. pose proof (advance_right_ge) as AR.
  repeat match type of E with
  | (if ?c then _ else _) = _ => destruct c
  | match ?o with Some _ => _ | None => _ end = _ => destruct o
  | (let '(_, _) := ?p in _) = _ => destruct p
  end; inversion E; subst; auto.
Qed.

Variable F : FILTER1D_INFO.
Variable tq : nat -> Q.
Variables hw sm T : Q.
Hypothesis Htime : times_finite F tq.
Hypothesis Hsorted : times_sorted F tq.
Hypothesis Hhw : F.(half_width) = DFin hw.

Lemma left_test i :
  i < F.(n_rows) ->
  dgt (dsub (dsub (DFin T) (time_at F i)) (DFin sm)) F.(half_width) = true
  <-> (hw < T - tq i - sm)%Q.
Proof.
  intros Hi. rewrite (Htime i Hi), Hhw. unfold dgt, dsub, dadd, dopp, dlt. rewrite Qltb_lt.
  split; intros; lra.
Qed.

Lemma right_test i :
  i < F.(n_rows) ->
  dle (dsub (dsub (time_at F i) (DFin T)) (DFin sm)) F.(half_width) = true
  <-> (tq i - T - sm <= hw)%Q.
Proof.
  intros Hi. rewrite (Htime i Hi), Hhw. unfold dle, dsub, dadd, dopp, dlt. rewrite negb_true_iff, Qltb_ge.
  split; intros; lra.
Qed.

Lemma in_window_iff i :
  i < F.(n_rows) ->
  in_window F (DFin sm) (DFin T) i = true
  <-> (T - tq i - sm <= hw /\ tq i - T - sm <= hw)%Q.
Proof.
  intros Hi. unfold in_window. rewrite andb_true_iff, (right_test i Hi).
  rewrite (Htime i Hi), Hhw. unfold dle, dsub, dadd, dopp, dlt. rewrite negb_true_iff, Qltb_ge.
  split; intros [? ?]; split; lra.
Qed.

Lemma advance_left_spec fuel : forall left,
  F.(n_rows) - left <= fuel ->
  let left' := advance_left fuel F (DFin sm) (DFin T) left in
  (forall i, left <= i < left' -> (hw < T - tq i - sm)%Q)
  /\ (left' < F.(n_rows) -> (T - tq left' - sm <= hw)%Q).
Proof.
  induction fuel as [| fuel IH]; intros left Hf; cbn [advance_left].
  - split; [intros; lia | intros; lia].
  - destruct (left <? n_rows F) eqn:Hlt; cbn [andb].
    + apply Nat.ltb_lt in Hlt.
      destruct (dgt _ _) eqn:Ht.
      * apply (proj1 (left_test left Hlt)) in Ht.
        destruct (IH (S left) ltac:(lia)) as [A B]. split; [| exact B].
        intros i Hi. destruct (decide (i = left)) as [-> | Hne]; [exact Ht |].
        apply A. lia.
      * split; [intros; lia |]. intros _.
        apply Qnot_lt_le. intros Hc. apply (proj2 (left_test left Hlt)) in Hc. congruence.
    + apply Nat.ltb_ge in Hlt. split; intros; lia.
Qed.

Lemma advance_right_spec fuel : forall right,
  F.(n_rows) - right <= fuel ->
  let right' := advance_right fuel F (DFin sm) (DFin T) right in
  (forall i, right <= i < right' -> (tq i - T - sm <= hw)%Q)
  /\ (right' < F.(n_rows) -> (hw < tq right' - T - sm)%Q)
  /\ right' <= Nat.max right F.(n_rows).
Proof.
  induction fuel as [| fuel IH]; intros right Hf; cbn [advance_right].
  - repeat split; intros; lia.
  - destruct (right <? n_rows F) eqn:Hlt; cbn [andb].
    + apply Nat.ltb_lt in Hlt.
      destruct (dle _ _) eqn:Ht.
      * apply (proj1 (right_test right Hlt)) in Ht.
        destruct (IH (S right) ltac:(lia)) as (A & B & C). split; [| split; [exact B | lia]].
        intros i Hi. destruct (decide (i = right)) as [-> | Hne]; [exact Ht |].
        apply A. lia.
      * split; [intros; lia |]. split; [| lia]. intros _.
        apply Qnot_le_lt. intros Hc. apply (proj2 (right_test right Hlt)) in Hc. congruence.
    + apply Nat.ltb_ge in Hlt. repeat split; intros; lia.
Qed.

Lemma window_exact left right :
  passed F.(n_rows) tq hw sm T left right ->
  let left' := advance_left (F.(n_rows) - left) F (DFin sm) (DFin T) left in
  let right' := advance_right (F.(n_rows) - right) F (DFin sm) (DFin T) right in
  passed F.(n_rows) tq hw sm T left' right'
  /\ forall i, i < F.(n_rows) ->
       (left' <= i < right' <-> in_window F (DFin sm) (DFin T) i = true).
Proof.
  intros [PL PR] left' right'.
  destruct (advance_left_spec (n_rows F - left) left ltac:(lia)) as [LA LB].
  destruct (advance_right_spec (n_rows F - right) right ltac:(lia)) as (RA & RB & RC).
  fold left' in LA, LB. fold right' in RA, RB, RC.
  assert (PL' : forall i, i < left' -> i < n_rows F -> (hw < T - tq i - sm)%Q).
  { intros i Hi Hn. destruct (decide (i < left)); [auto |]. apply LA. lia. }
  assert (PR' : forall i, i < right' -> i < n_rows F -> (tq i - T - sm <= hw)%Q).
  { intros i Hi Hn. destruct (decide (i < right)); [auto |]. apply RA. lia. }
  split; [split; assumption |].
  intros i Hi. rewrite (in_window_iff i Hi). split.
  - intros [Hl Hr]. split; [| auto].
    assert (left' < n_rows F) as Hl' by lia. specialize (LB Hl').
    pose proof (Hsorted left' i Hl Hi). lra.
  - intros [Hl Hr]. split.
    + destruct (decide (left' <= i)); [assumption |].
      specialize (PL' i ltac:(lia) Hi). lra.
    + destruct (decide (i < right')); [assumption |].
      assert (right' < n_rows F) as Hr' by lia. specialize (RB Hr').
      pose proof (Hsorted right' i ltac:(lia) Hi). lra.
Qed.

End Tracker.

Section Run.
Context `{GmtLib}.

Lemma filter_window_config F small iq left right k F' left' right' rec :
  filter_window F small iq left right k = Next F' left' right' rec ->
  config F' = config F
  /\ left' = advance_left (F.(n_rows) - left) F small (rd F.(T_array) k) left
  /\ right' = advance_right (F.(n_rows) - right) F small (rd F.(T_array) k) right.
Proof.
  unfold filter_window. intros E.
  destruct (_ || _).
  - inversion E; subst. auto.
  - pose proof (filter_point_config F iq
      (advance_left (n_rows F - left) F small (rd (T_array F) k) left)
      (advance_right (n_rows F - right) F small (rd (T_array F) k) right) k) as C.
    destruct (filter_point _ _ _ _ _) as [F1 r]. inversion E; subst. auto.
Qed.

Lemma filter_window_next F small iq left right k :
  exists F' left' right' rec,
    filter_window F small iq left right k = Next F' left' right' rec.
Proof.
  unfold filter_window. destruct (_ || _); [eauto |].
  destruct (filter_point _ _ _ _ _) as [F1 r]. eauto.
Qed.

Lemma passed_later n tq hw sm T T' left right :
  (T <= T')%Q ->
  passed n tq hw sm T left right -> passed n tq hw sm T' left right.
Proof.
  intros HT [PL PR]. split; intros i Hi Hn.
  - specialize (PL i Hi Hn). lra.
  - specialize (PR i Hi Hn). lra.
Qed.

Lemma times_finite_config F F' tq :
  config F' = config F -> times_finite F tq -> times_finite F' tq.
Proof.
  intros E Ht i Hi. unfold time_at.
  rewrite (f_equal data E : data F' = data F), (f_equal t_col E : t_col F' = t_col F).
  apply Ht. rewrite <- (f_equal n_rows E : n_rows F' = n_rows F). exact Hi.
Qed.

Lemma times_sorted_config F F' tq :
  config F' = config F -> times_sorted F tq -> times_sorted F' tq.
Proof.
  intros E Ht i j Hij Hj. apply Ht; [exact Hij |].
  rewrite <- (f_equal n_rows E : n_rows F' = n_rows F). exact Hj.
Qed.

Lemma in_window_config F F' small T i :
  config F' = config F -> in_window F' small T i = in_window F small T i.
Proof.
  intros E. unfold in_window, time_at.
  rewrite (f_equal data E : data F' = data F), (f_equal t_col E : t_col F' = t_col F),
    (f_equal half_width E : half_width F' = half_width F). reflexivity.
Qed.

(** With a fixed filter width, every state the loop reaches holds the
    configuration it started from, and the tracker has passed exactly rows
    that lie before, respectively not after, the window of the point. *)
Lemma reached_fixed_width F0 sm iq k0 last_k tq Tq hw F left right k :
  F0.(variable) = false ->
  times_finite F0 tq ->
  times_sorted F0 tq ->
  F0.(half_width) = DFin hw ->
  outputs_sorted F0 Tq last_k ->
  reached F0 (DFin sm) iq k0 last_k F left right k ->
  config F = config F0
  /\ (k <= last_k -> passed F0.(n_rows) tq hw sm (Tq k) left right).
Proof.
  intros Hvar Htime Hsorted Hhw [HT HTs] R.
  induction R as [| F left right k F' left' right' rec R [IHc IHp] Hk E].
  - split; [reflexivity |]. intros _. split; intros; lia.
  - unfold filter_step in E.
    rewrite (f_equal variable IHc : variable F = variable F0), Hvar in E.
    apply filter_window_config in E. destruct E as (C & -> & ->).
    split; [congruence |]. intros Hk'.
    rewrite (f_equal T_array IHc : T_array F = T_array F0), (HT k Hk).
    rewrite (f_equal n_rows IHc : n_rows F = n_rows F0).
    apply (passed_later _ tq hw sm (Tq k)); [apply HTs; lia |].
    specialize (IHp Hk).
    assert (Hhw' : half_width F = DFin hw)
      by (rewrite (f_equal half_width IHc : half_width F = half_width F0); exact Hhw).
    pose proof (window_exact F tq hw sm (Tq k)
      (times_finite_config _ _ _ IHc Htime)
      (times_sorted_config _ _ _ IHc Hsorted) Hhw' left right) as W.
    rewrite (f_equal n_rows IHc : n_rows F = n_rows F0) in W.
    destruct W as [W _]; [exact IHp | exact W].
Qed.

End Run.

(** C2, as amended: from one output point to the next [left] and [right]
    never decrease, whatever the mode; and when the filter width is fixed,
    the input times are non-decreasing and the output times are processed in
    increasing order, the range [left, right) the tracker settles on at
    every output point of the loop is exactly the set of rows in the window
    of that output time. *)
Theorem tracker_monotone_and_exact `{GmtLib} :
  (forall F small iq left right k F' left' right' rec,
     filter_step F small iq left right k = Next F' left' right' rec ->
     left <= left' /\ right <= right')
  /\ (forall F0 sm iq k0 last_k tq Tq hw F left right k,
        F0.(variable) = false ->
        times_finite F0 tq ->
        times_sorted F0 tq ->
        F0.(half_width) = DFin hw ->
        outputs_sorted F0 Tq last_k ->
        reached F0 (DFin sm) iq k0 last_k F left right k ->
        k <= last_k ->
        exists F' left' right' rec,
          filter_step F (DFin sm) iq left right k = Next F' left' right' rec
          /\ forall i, i < F0.(n_rows) ->
               (left' <= i < right'
                <-> in_window F0 (DFin sm) (rd F0.(T_array) k) i = true)).
Proof.
  split; [apply @filter_step_monotone |].
  intros F0 sm iq k0 last_k tq Tq hw F left right k Hvar Htime Hsorted Hhw HT R Hk.
  destruct (reached_fixed_width F0 sm iq k0 last_k tq Tq hw F left right k
              Hvar Htime Hsorted Hhw HT R) as [C P].
  specialize (P Hk).
  assert (E : filter_step F (DFin sm) iq left right k
              = filter_window F (DFin sm) iq left right k).
  { unfold filter_step.
    rewrite (f_equal variable C : variable F = variable F0), Hvar. reflexivity. }
  destruct (filter_window_next F (DFin sm) iq left right k)
    as (F' & left' & right' & rec & W).
  exists F', left', right', rec. split; [congruence |].
  apply filter_window_config in W. destruct W as (_ & -> & ->).
  destruct HT as [HT _].
  rewrite (f_equal T_array C : T_array F = T_array F0), (HT k Hk).
  assert (Hhw' : half_width F = DFin hw)
    by (rewrite (f_equal half_width C : half_width F = half_width F0); exact Hhw).
  pose proof (window_exact F tq hw sm (Tq k)
    (times_finite_config _ _ _ C Htime)
    (times_sorted_config _ _ _ C Hsorted) Hhw' left right) as W.
  rewrite (f_equal n_rows C : n_rows F = n_rows F0) in W.
  destruct (W P) as [_ X]. intros i Hi.
  rewrite (f_equal n_rows C : n_rows F = n_rows F0).
  rewrite <- (in_window_config F0 F _ _ _ C). apply X, Hi.
Qed.

Lemma tq_nat_sorted F : times_sorted F tq_nat.
Proof.
  intros i j Hij _. unfold tq_nat. rewrite <- Zle_Qle. lia.
Qed.

Lemma tracker_monotone_and_exact_witness :
  exists F' left' right' rec,
    @filter_step TestLib scenario_start.1.1 (DFin (1 # 100000000)) 0 0 0 1
    = Next F' left' right' rec
    /\ forall i, i < 5 ->
         (left' <= i < right'
          <-> in_window scenario_start.1.1 (DFin (1 # 100000000)) (DFin 1) i = true).
Proof.
  apply (proj2 (@tracker_monotone_and_exact TestLib)
           scenario_start.1.1 (1 # 100000000)%Q 0 1 3 tq_nat tq_nat
           ((1 # 2) * 2)%Q scenario_start.1.1 0 0 1).
  - reflexivity.
  - intros i Hi. do 5 (destruct i as [| i]; [reflexivity |]). simpl in Hi. lia.
  - apply tq_nat_sorted.
  - reflexivity.
  - split.
    + intros k Hk. do 4 (destruct k as [| k]; [reflexivity |]). lia.
    + intros k _. unfold tq_nat. rewrite <- Zle_Qle. lia.
  - apply reached_first.
  - lia.
Defined.

Lemma tracker_variable_width_counterexample :
  exists F1 l1 r1 rec1 F2 l2 r2 rec2,
    @filter_step TestLib var_start.1.1 (window_tolerance var_start.1.1) 0 0 0 0
    = Next F1 l1 r1 rec1
    /\ @filter_step TestLib F1 (window_tolerance var_start.1.1) 0 l1 r1 1
       = Next F2 l2 r2 rec2
    /\ ~ (forall i, i < F2.(n_rows) ->
            (l2 <= i < r2
             <-> in_window F2 (window_tolerance var_start.1.1)
                   (rd F2.(T_array) 1) i = true)).
Proof.
  do 8 eexists. split; [vm_compute; reflexivity |].
  split; [vm_compute; reflexivity |].
  intros Hc. specialize (Hc 4 ltac:(vm_compute; lia)).
  destruct Hc as [Hc _]. specialize (Hc ltac:(lia)). vm_compute in Hc. discriminate.
Qed.

Section Columns.
Context `{GmtLib}.

(** C7: when the window is empty, or the lack check is on and
    [filter_width / (right - left)] exceeds [lack_width], the output time is
    skipped: no record, the structure (and with it every estimate) is left
    as it was, and the loop goes on with the next output time and the same
    records. *)
Theorem empty_or_lacking_window_skipped F small iq left right k :
  let left' := advance_left (F.(n_rows) - left) F small (rd F.(T_array) k) left in
  let right' :=
    advance_right (F.(n_rows) - right) F small (rd F.(T_array) k) right in
  right' <= left'
  \/ (F.(check_lack) = true
      /\ dgt (ddiv F.(filter_width) (dZ (Z.of_nat right' - Z.of_nat left')))
             F.(lack_width) = true) ->
  filter_window F small iq left right k = Next F left' right' None
  /\ (F.(variable) = false ->
      forall turns out,
        filter_loop (S turns) F small iq left right k out
        = filter_loop turns F small iq left' right' (S k) out).
Proof.
  intros left' right' Hskip.
  assert (E : filter_window F small iq left right k = Next F left' right' None).
  { unfold filter_window. fold left' right'.
    destruct Hskip as [Hle | [Hl Hr]].
    - replace (Z.of_nat right' - Z.of_nat left' <=? 0)%Z with true
        by (symmetry; apply Z.leb_le; lia). reflexivity.
    - rewrite Hl, Hr, orb_true_r. reflexivity. }
  split; [exact E |]. intros Hvar turns out.
  cbn [filter_loop]. unfold filter_step. rewrite Hvar, E, app_nil_r. reflexivity.
Qed.

End Columns.

Lemma empty_or_lacking_window_skipped_witness :
  @filter_window TestLib skip_start.1.1 (DFin (1 # 100000000)) 0 0 0 1
  = Next skip_start.1.1 0 3 None.
Proof.
  apply (@empty_or_lacking_window_skipped TestLib skip_start.1.1
           (DFin (1 # 100000000)) 0 0 0 1).
  right. split; reflexivity.
Defined.

Section ColumnViews.
Context `{GmtLib}.

Lemma fold_imap_lookup {A : Type} (f : nat -> nat -> A -> A) rows :
  forall (cols : list A) (i : nat),
    fold_left (fun cs r => imap (f r) cs) rows cols !! i
    = (fun c => fold_left (fun c r => f r i c) rows c) <$> cols !! i.
Proof.
  induction rows as [| r rows IH]; intros cols i; simpl.
  - destruct (cols !! i); reflexivity.
  - rewrite IH, list_lookup_imap. destruct (cols !! i); reflexivity.
Qed.

Lemma fold_imap_length {A : Type} (f : nat -> nat -> A -> A) rows :
  forall cols : list A,
    length (fold_left (fun cs r => imap (f r) cs) rows cols) = length cols.
Proof.
  induction rows as [| r rows IH]; intros cols; simpl; [reflexivity |].
  rewrite IH, length_imap. reflexivity.
Qed.

Lemma collect_rows_lookup F T left right cols i :
  collect_rows F T left right cols !! i
  = collect_col F T (window_rows left right) i <$> cols !! i.
Proof.
  unfold collect_rows, collect_col, window_rows.
  apply (fold_imap_lookup (fun r i c => collect_cell F T r i c)).
Qed.

Lemma imap_id_ext {A : Type} (f : nat -> A -> A) (l : list A) :
  (forall i x, f i x = x) -> imap f l = l.
Proof.
  intros Hf. revert f Hf. induction l as [| x l IH]; intros f Hf; simpl; [reflexivity |].
  rewrite Hf. f_equal. apply IH. intros i y. apply Hf.
Qed.

Lemma convolve_row_imap F T cols r :
  convolve_row F T cols r
  = imap (fun i c =>
            if tap_in_range F T r
            then convolve_cell F T r (tap_index F T r) i c
            else c) cols.
Proof.
  unfold convolve_row, tap_in_range.
  destruct (tap_index F T r <? 0)%Z eqn:E1; simpl.
  - replace (0 <=? tap_index F T r)%Z with false by (symmetry; apply Z.leb_gt; lia).
    simpl. symmetry. apply imap_id_ext. reflexivity.
  - replace (0 <=? tap_index F T r)%Z with true by (symmetry; apply Z.leb_le; lia).
    simpl. destruct (Z.of_nat (n_f_wts F) <=? tap_index F T r)%Z eqn:E2.
    + replace (tap_index F T r <? Z.of_nat (n_f_wts F))%Z with false
        by (symmetry; apply Z.ltb_ge; lia).
      symmetry. apply imap_id_ext. reflexivity.
    + replace (tap_index F T r <? Z.of_nat (n_f_wts F))%Z with true
        by (symmetry; apply Z.ltb_lt; lia).
      reflexivity.
Qed.

Lemma fold_left_pointwise {A B : Type} (f g : A -> B -> A) (l : list B) :
  (forall a b, f a b = g a b) ->
  forall a, fold_left f l a = fold_left g l a.
Proof.
  intros E. induction l as [| b l IH]; intros a; simpl; [reflexivity |].
  rewrite E. apply IH.
Qed.

Lemma convolve_rows_lookup F T left right cols i :
  convolve_rows F T left right cols !! i
  = convolve_col F T (window_rows left right) i <$> cols !! i.
Proof.
  unfold convolve_rows, convolve_col, window_rows.
  rewrite <- (fold_imap_lookup
    (fun r i c => if tap_in_range F T r
                  then convolve_cell F T r (tap_index F T r) i c else c)).
  f_equal. apply fold_left_pointwise. intros cs r. apply convolve_row_imap.
Qed.

End ColumnViews.

Section ColumnResults.
Context `{GmtLib}.

Lemma filter_cons_true (f : nat -> bool) (x : nat) (l : list nat) :
  filter (fun i => f i = true) (x :: l)
  = if f x then x :: filter (fun i => f i = true) l
    else filter (fun i => f i = true) l.
Proof.
  rewrite filter_cons. destruct (f x) eqn:E.
  - rewrite decide_True by reflexivity. reflexivity.
  - rewrite decide_False by discriminate. reflexivity.
Qed.

Lemma present_cons F i r rows :
  present F i (r :: rows)
  = if gmt_M_is_dnan (rd2 F.(data) i r) then present F i rows
    else r :: present F i rows.
Proof.
  unfold present. rewrite filter_cons.
  destruct (gmt_M_is_dnan (rd2 (data F) i r)) eqn:E.
  - rewrite decide_False by discriminate. reflexivity.
  - rewrite decide_True by reflexivity. reflexivity.
Qed.

Lemma rows_on_taps_cons F T r rows :
  rows_on_taps F T (r :: rows)
  = if tap_in_range F T r then r :: rows_on_taps F T rows
    else rows_on_taps F T rows.
Proof. apply (filter_cons_true (tap_in_range F T)). Qed.

Lemma rows_before_cons F T r rows :
  rows_before F T (r :: rows)
  = if dlt (time_at F r) T then r :: rows_before F T rows
    else rows_before F T rows.
Proof. apply (filter_cons_true (fun i => dlt (time_at F i) T)). Qed.

Lemma rows_after_cons F T r rows :
  rows_after F T (r :: rows)
  = if dgt (time_at F r) T then r :: rows_after F T rows
    else rows_after F T rows.
Proof. apply (filter_cons_true (fun i => dgt (time_at F i) T)). Qed.

(** A column that is not good goes through both loops untouched. *)
Lemma collect_col_bad F T rows i c :
  c.(good_one) = false -> collect_col F T rows i c = c.
Proof.
  intros Hb. unfold collect_col. induction rows as [| r rows IH]; simpl; [reflexivity |].
  unfold collect_cell at 2. rewrite Hb. simpl. exact IH.
Qed.

Lemma convolve_col_bad F T rows i c :
  c.(good_one) = false -> convolve_col F T rows i c = c.
Proof.
  intros Hb. unfold convolve_col. induction rows as [| r rows IH]; simpl; [reflexivity |].
  destruct (tap_in_range F T r); [| exact IH].
  unfold convolve_cell at 2. rewrite Hb. simpl. exact IH.
Qed.

(** A good column after the loop that fills the work arrays: the samples of
    the window that are not NaN, counted, copied in row order and, with
    the asymmetry check on, counted on either side of the output time. *)
Lemma collect_col_good F T rows i : forall c,
  c.(good_one) = true ->
  collect_col F T rows i c
  = let P := present F i rows in
    {| n_this_col := c.(n_this_col) + length P;
       n_left := c.(n_left)
                 + (if F.(check_asym) then length (rows_before F T P) else 0);
       n_right := c.(n_right)
                  + (if F.(check_asym) then length (rows_after F T P) else 0);
       work := c.(work) ++ map (rd2 F.(data) i) P;
       good_one := true;
       wt_sum := c.(wt_sum);
       data_sum := c.(data_sum) |}.
Proof.
  induction rows as [| r rows IH]; intros c Hg; cbn zeta.
  - destruct c; simpl in *. subst. unfold collect_col. simpl.
    rewrite app_nil_r. f_equal; destruct (check_asym F); simpl; lia.
  - unfold collect_col in *. cbn [fold_left]. rewrite present_cons.
    unfold collect_cell at 2. rewrite Hg. cbn [negb].
    destruct (gmt_M_is_dnan (rd2 (data F) i r)) eqn:En; cbn [negb].
    + apply IH, Hg.
    + rewrite rows_before_cons, rows_after_cons.
      destruct (check_asym F); rewrite IH by exact Hg; cbn.
      * destruct (dlt (time_at F r) T), (dgt (time_at F r) T); cbn;
          rewrite <- app_assoc; f_equal; lia.
      * rewrite <- app_assoc. f_equal; lia.
Qed.

Lemma convolve_cell_good F T r i c :
  c.(good_one) = true ->
  gmt_M_is_dnan (rd2 F.(data) i r) = false ->
  convolve_cell F T r (tap_index F T r) i c
  = let sides := negb F.(robust) && F.(check_asym) in
    {| n_this_col := S c.(n_this_col);
       n_left := c.(n_left)
                 + (if sides && dlt (time_at F r) T then 1 else 0);
       n_right := c.(n_right)
                  + (if sides && dgt (time_at F r) T then 1 else 0);
       work := c.(work);
       good_one := true;
       wt_sum := dadd c.(wt_sum) (tap_weight F T r);
       data_sum :=
         dadd c.(data_sum) (dmul (tap_weight F T r) (used_sample F i r)) |}.
Proof.
  intros Hg En. unfold convolve_cell, used_sample, clipped, tap_weight.
  rewrite Hg, En. cbn [negb].
  destruct (robust F), (check_asym F); cbn;
    try (destruct (dlt (time_at F r) T), (dgt (time_at F r) T); cbn);
    f_equal; solve [lia | exact Hg].
Qed.

(** A good column after the loop of the convolution: the samples that are
    not NaN on the rows of the window whose tap lies in the coefficient
    array, counted, weighted and summed in row order; they are counted on
    either side of the output time when the asymmetry check is on and the
    filter is not robust. *)
Lemma convolve_col_good F T rows i : forall c,
  c.(good_one) = true ->
  convolve_col F T rows i c
  = let P := present F i (rows_on_taps F T rows) in
    let sides := negb F.(robust) && F.(check_asym) in
    {| n_this_col := c.(n_this_col) + length P;
       n_left := c.(n_left)
                 + (if sides then length (rows_before F T P) else 0);
       n_right := c.(n_right)
                  + (if sides then length (rows_after F T P) else 0);
       work := c.(work);
       good_one := true;
       wt_sum := fold_left dadd (map (tap_weight F T) P) c.(wt_sum);
       data_sum :=
         fold_left dadd
           (map (fun r => dmul (tap_weight F T r) (used_sample F i r)) P)
           c.(data_sum) |}.
Proof.
  induction rows as [| r rows IH]; intros c Hg; cbn zeta.
  - destruct c; simpl in *. subst. unfold convolve_col. simpl.
    f_equal; destruct (negb (robust F) && check_asym F); simpl; lia.
  - unfold convolve_col in *. cbn [fold_left]. rewrite rows_on_taps_cons.
    destruct (tap_in_range F T r) eqn:Et; [| apply IH, Hg].
    rewrite present_cons.
    destruct (gmt_M_is_dnan (rd2 (data F) i r)) eqn:En.
    + unfold convolve_cell at 2. rewrite Hg, En. cbn [negb]. apply IH, Hg.
    + rewrite (convolve_cell_good F T r i c Hg En). cbn zeta.
      rewrite IH by reflexivity.
      rewrite rows_before_cons, rows_after_cons.
      destruct (negb (robust F) && check_asym F); cbn;
        try (destruct (dlt (time_at F r) T), (dgt (time_at F r) T); cbn);
        f_equal; lia.
Qed.

End ColumnResults.

Section Settle.
Context `{GmtLib}.

Lemma set_work_same c : set_work c.(work) c = c.
Proof. destruct c; reflexivity. Qed.

Lemma estimate_columns_lookup cols : forall F j i c,
  cols !! i = Some c ->
  exists w, (estimate_columns F j cols).2 !! i = Some (set_work w c).
Proof.
  induction cols as [| c0 cols IH]; intros F j i c Hc; [discriminate |].
  cbn [estimate_columns].
  destruct (good_one c0) eqn:Eg.
  - destruct (filter1d_get_robust_estimates F (work c0) j (n_this_col c0) (robust F))
      as [F' w'].
    specialize (IH F' (S j)).
    destruct (estimate_columns F' (S j) cols) as [F2 cs]. cbn [snd] in *.
    destruct i as [| i]; cbn in *.
    + inversion Hc; subst. eauto.
    + apply IH, Hc.
  - specialize (IH F (S j)).
    destruct (estimate_columns F (S j) cols) as [F2 cs]. cbn [snd] in *.
    destruct i as [| i]; cbn in *.
    + inversion Hc; subst. exists (work c). rewrite set_work_same. reflexivity.
    + apply IH, Hc.
Qed.

Lemma estimate_columns_length cols : forall F j,
  length (estimate_columns F j cols).2 = length cols.
Proof.
  induction cols as [| c0 cols IH]; intros F j; [reflexivity |].
  cbn [estimate_columns].
  destruct (good_one c0).
  - destruct (filter1d_get_robust_estimates F (work c0) j (n_this_col c0) (robust F))
      as [F' w'].
    specialize (IH F' (S j)).
    destruct (estimate_columns F' (S j) cols) as [F2 cs]. cbn in *. lia.
  - specialize (IH F (S j)).
    destruct (estimate_columns F (S j) cols) as [F2 cs]. cbn in *. lia.
Qed.

Lemma robust_work_lookup F iq T left right cols i c :
  cols !! i = Some c ->
  exists w,
    (robust_work F iq T left right cols).2 !! i
    = Some (set_work w
              (robust_gates F iq (collect_col F T (window_rows left right) i c))).
Proof.
  intros Hc. unfold robust_work, robust_gates.
  apply estimate_columns_lookup.
  pose proof (collect_rows_lookup F T left right cols i) as E. rewrite Hc in E.
  cbn in E.
  destruct (check_asym F);
    destruct ((FILTER1D_CONVOLVE <? filter_type F)%Z && check_q F);
    rewrite ?list_lookup_fmap, E; reflexivity.
Qed.

Lemma init_columns_lookup F left right i :
  i < F.(n_cols) ->
  init_columns F left right !! i = Some (init_column F left right i).
Proof.
  intros Hi. unfold init_columns. rewrite list_lookup_fmap.
  rewrite (lookup_seq_lt 0 _ i Hi). reflexivity.
Qed.

Lemma init_columns_length F left right :
  length (init_columns F left right) = F.(n_cols).
Proof. unfold init_columns. rewrite length_map, length_seq. reflexivity. Qed.

(** The column of a settled output point, for each of the three ways
    through the loop body. *)
Lemma settle_columns_plain F iq left right k i :
  F.(robust) = false ->
  (FILTER1D_CONVOLVE <? F.(filter_type))%Z = false ->
  i < F.(n_cols) ->
  settle_columns F iq left right k
  = (F, map (conv_gate F)
          (convolve_rows F (rd F.(T_array) k) left right
             (init_columns F left right)))
  /\ (settle_columns F iq left right k).2 !! i
     = Some (conv_gate F
               (convolve_col F (rd F.(T_array) k) (window_rows left right) i
                  (init_column F left right i))).
Proof.
  intros Hr Ht Hi. unfold settle_columns. rewrite Hr, Ht. cbn [orb].
  rewrite Ht, Hr. split; [reflexivity |]. cbn [snd].
  rewrite list_lookup_fmap, convolve_rows_lookup, (init_columns_lookup _ _ _ _ Hi).
  reflexivity.
Qed.

Lemma settle_columns_nonconv F iq left right k i :
  (FILTER1D_CONVOLVE <? F.(filter_type))%Z = true ->
  i < F.(n_cols) ->
  exists w,
    (settle_columns F iq left right k).2 !! i
    = Some (set_work w
              (robust_gates F iq
                 (collect_col F (rd F.(T_array) k) (window_rows left right) i
                    (init_column F left right i)))).
Proof.
  intros Ht Hi. unfold settle_columns. rewrite Ht, orb_true_r.
  destruct (robust_work_lookup F iq (rd (T_array F) k) left right
              (init_columns F left right) i _ (init_columns_lookup F left right i Hi))
    as [w Hw].
  pose proof (estimate_columns_config
    (let cols1 := collect_rows F (rd (T_array F) k) left right (init_columns F left right) in
     let cols2 := if check_asym F then map (asym_gate F) cols1 else cols1 in
     if (FILTER1D_CONVOLVE <? filter_type F)%Z && check_q F
     then map (count_gate iq) cols2 else cols2) F 0) as C.
  unfold robust_work in *. cbn zeta in C.
  destruct (estimate_columns F 0 _) as [F1 cols1]. cbn [fst snd] in *.
  rewrite (f_equal filter_type C : filter_type F1 = filter_type F), Ht.
  exists w. exact Hw.
Qed.

Lemma settle_columns_robust F iq left right k i :
  F.(robust) = true ->
  (FILTER1D_CONVOLVE <? F.(filter_type))%Z = false ->
  i < F.(n_cols) ->
  exists w,
    let F1 := (settle_columns F iq left right k).1 in
    (settle_columns F iq left right k).2 !! i
    = Some (conv_gate F1
              (convolve_col F1 (rd F.(T_array) k) (window_rows left right) i
                 (set_n_this_col 0
                    (set_work w
                       (robust_gates F iq
                          (collect_col F (rd F.(T_array) k)
                             (window_rows left right) i
                             (init_column F left right i))))))).
Proof.
  intros Hr Ht Hi. unfold settle_columns. rewrite Hr. cbn [orb].
  destruct (robust_work_lookup F iq (rd (T_array F) k) left right
              (init_columns F left right) i _ (init_columns_lookup F left right i Hi))
    as [w Hw].
  pose proof (estimate_columns_config
    (let cols1 := collect_rows F (rd (T_array F) k) left right (init_columns F left right) in
     let cols2 := if check_asym F then map (asym_gate F) cols1 else cols1 in
     if (FILTER1D_CONVOLVE <? filter_type F)%Z && check_q F
     then map (count_gate iq) cols2 else cols2) F 0) as C.
  unfold robust_work in *. cbn zeta in C.
  destruct (estimate_columns F 0 _) as [F1 cols1]. cbn [fst snd] in *.
  rewrite (f_equal filter_type C : filter_type F1 = filter_type F), Ht.
  rewrite (f_equal robust C : robust F1 = robust F), Hr.
  exists w. cbn [fst snd].
  rewrite list_lookup_fmap, convolve_rows_lookup, list_lookup_fmap, Hw.
  reflexivity.
Qed.

Lemma settle_columns_length F iq left right k :
  length (settle_columns F iq left right k).2 = F.(n_cols).
Proof.
  unfold settle_columns.
  destruct (robust F || (FILTER1D_CONVOLVE <? filter_type F)%Z).
  - unfold robust_work.
    match goal with |- context [estimate_columns F 0 ?cs] =>
      pose proof (estimate_columns_length cs F 0) as L;
      assert (Lc : length cs = n_cols F);
      [| destruct (estimate_columns F 0 cs) as [F1 cols1] ] end.
    { destruct (_ && _), (check_asym F); rewrite ?length_map;
        unfold collect_rows; rewrite fold_imap_length; apply init_columns_length. }
    cbn [snd] in L.
    destruct (FILTER1D_CONVOLVE <? filter_type F1)%Z; cbn [snd]; [lia |].
    rewrite length_map. unfold convolve_rows.
    rewrite (fold_left_pointwise _ _ _ (convolve_row_imap F1 (rd (T_array F) k))).
    rewrite (fold_imap_length (fun r i c =>
      if tap_in_range F1 (rd (T_array F) k) r
      then convolve_cell F1 (rd (T_array F) k) r (tap_index F1 (rd (T_array F) k) r) i c
      else c)).
    destruct (robust F1); rewrite ?length_map; lia.
  - destruct (FILTER1D_CONVOLVE <? filter_type F)%Z; cbn [snd].
    + apply init_columns_length.
    + rewrite length_map. unfold convolve_rows.
      rewrite (fold_left_pointwise _ _ _ (convolve_row_imap F (rd (T_array F) k))).
      rewrite (fold_imap_length (fun r i c =>
        if tap_in_range F (rd (T_array F) k) r
        then convolve_cell F (rd (T_array F) k) r (tap_index F (rd (T_array F) k) r) i c
        else c)).
      destruct (robust F); rewrite ?length_map; apply init_columns_length.
Qed.

End Settle.

Section Emit.
Context `{GmtLib}.

Lemma count_true_zero {A : Type} (f : A -> bool) (l : list A) :
  (length (filter (fun x => f x = true) l) =? 0) = true
  <-> forall i x, l !! i = Some x -> f x = false.
Proof.
  rewrite Nat.eqb_eq. induction l as [| y l IH].
  - split; [intros _ i x Hx; discriminate | reflexivity].
  - rewrite filter_cons. destruct (decide (f y = true)) as [E | E].
    + cbn. split; [lia |].
      intros Hall. specialize (Hall 0 y eq_refl). congruence.
    + rewrite IH. apply not_true_is_false in E. split.
      * intros Hall [| i] x Hx; cbn in Hx; [congruence | eauto].
      * intros Hall i x Hx. apply (Hall (S i)). exact Hx.
Qed.

Lemma if_none_iff {A : Type} (b : bool) (x : A) :
  (if b then None else Some x) = None <-> b = true.
Proof. destruct b; split; congruence. Qed.

Lemma if_some_inv {A : Type} (b : bool) (x y : A) :
  (if b then None else Some x) = Some y -> x = y.
Proof. destruct b; congruence. Qed.

Lemma robust_gates_bad F iq c :
  c.(good_one) = false -> (robust_gates F iq c).(good_one) = false.
Proof.
  intros Hb. unfold robust_gates, asym_gate, count_gate. rewrite Hb. cbn [negb].
  destruct (check_asym F), ((FILTER1D_CONVOLVE <? filter_type F)%Z && check_q F);
    try destruct (n_this_col c <? iq); cbn; auto.
Qed.

Lemma conv_gate_bad F c :
  c.(good_one) = false -> conv_gate F c = c.
Proof. intros Hb. unfold conv_gate. rewrite Hb. reflexivity. Qed.

Lemma init_time_column_bad F left right :
  (init_column F left right F.(t_col)).(good_one) = false.
Proof. cbn. rewrite Nat.eqb_refl. reflexivity. Qed.

(** The time column is never good in a convolution. *)
Lemma time_column_not_passing F iq left right k :
  (FILTER1D_CONVOLVE <? F.(filter_type))%Z = false ->
  passing F iq left right k F.(t_col) = false.
Proof.
  intros Ht. unfold passing.
  destruct (decide (t_col F < n_cols F)) as [Hi | Hi].
  - destruct (robust F) eqn:Hr.
    + destruct (settle_columns_robust F iq left right k _ Hr Ht Hi) as [w ->].
      rewrite convolve_col_bad, conv_gate_bad; cbn.
      all: apply robust_gates_bad; rewrite collect_col_bad;
        apply init_time_column_bad.
    + destruct (settle_columns_plain F iq left right k _ Hr Ht Hi) as [_ ->].
      rewrite convolve_col_bad, conv_gate_bad; apply init_time_column_bad.
  - rewrite lookup_ge_None_2; [reflexivity |].
    rewrite settle_columns_length. lia.
Qed.

(** The record of an output point and the columns that are good. *)
Lemma filter_point_record F iq left right k :
  ((filter_point F iq left right k).2 = None
   <-> forall i, i <> F.(t_col) -> passing F iq left right k i = false)
  /\ forall r, (filter_point F iq left right k).2 = Some r ->
       length r = F.(n_cols)
       /\ (F.(t_col) < F.(n_cols) -> r !! F.(t_col) = Some (rd F.(T_array) k))
       /\ forall i, i < F.(n_cols) -> i <> F.(t_col) ->
            passing F iq left right k i = false -> r !! i = Some DNaN.
Proof.
  pose proof (time_column_not_passing F iq left right k) as Htime.
  pose proof (settle_columns_length F iq left right k) as Hlen.
  pose proof (settle_columns_config F iq left right k) as C.
  unfold filter_point, passing in *.
  destruct (settle_columns F iq left right k) as [F1 cols]. cbn [fst snd] in *.
  assert (Etc : t_col F1 = t_col F) by exact (f_equal t_col C).
  assert (Ety : filter_type F1 = filter_type F) by exact (f_equal filter_type C).
  unfold emit_record, emit_nonconv, emit_conv. rewrite Ety.
  destruct (FILTER1D_CONVOLVE <? filter_type F)%Z eqn:Ht.
  - (* median, mode and extreme filters *)
    split.
    + rewrite if_none_iff, (count_true_zero (fun b : bool => b)). split.
      * intros Hall i Hi. destruct (cols !! i) as [c |] eqn:Ec; [| reflexivity].
        specialize (Hall i (nonconv_good F1 i c)).
        rewrite list_lookup_imap, Ec in Hall. specialize (Hall eq_refl).
        unfold nonconv_good in Hall. rewrite Etc in Hall.
        apply Nat.eqb_neq in Hi. rewrite Hi in Hall. exact Hall.
      * intros Hall i b. rewrite list_lookup_imap.
        destruct (cols !! i) as [c |] eqn:Ec; [| discriminate].
        intros [= <-]. unfold nonconv_good. rewrite Etc.
        destruct (i =? t_col F) eqn:Ei; [reflexivity |].
        apply Nat.eqb_neq in Ei. specialize (Hall i Ei). rewrite Ec in Hall.
        exact Hall.
    + intros r Hr. apply if_some_inv in Hr. subst r.
      rewrite length_imap. split; [exact Hlen |]. split.
      * intros Hi. rewrite list_lookup_imap.
        destruct (lookup_lt_is_Some_2 cols (t_col F) ltac:(lia)) as [c ->].
        cbn. unfold nonconv_value. rewrite Etc, Nat.eqb_refl. reflexivity.
      * intros i Hi Hne Hp. rewrite list_lookup_imap.
        destruct (lookup_lt_is_Some_2 cols i ltac:(lia)) as [c Ec].
        rewrite Ec in *. cbn. unfold nonconv_value. rewrite Etc.
        apply Nat.eqb_neq in Hne. rewrite Hne, Hp. reflexivity.
  - (* convolutions *)
    specialize (Htime eq_refl). split.
    + rewrite if_none_iff, (count_true_zero good_one). split.
      * intros Hall i Hi. destruct (cols !! i) as [c |] eqn:Ec; [| reflexivity].
        apply (Hall i c Ec).
      * intros Hall i c Ec.
        destruct (decide (i = t_col F)) as [-> | Hne].
        -- rewrite Ec in Htime. exact Htime.
        -- specialize (Hall i Hne). rewrite Ec in Hall. exact Hall.
    + intros r Hr. apply if_some_inv in Hr. subst r.
      rewrite length_imap. split; [exact Hlen |]. split.
      * intros Hi. rewrite list_lookup_imap.
        destruct (lookup_lt_is_Some_2 cols (t_col F) ltac:(lia)) as [c ->].
        cbn. unfold conv_value. rewrite Etc, Nat.eqb_refl. reflexivity.
      * intros i Hi Hne Hp. rewrite list_lookup_imap.
        destruct (lookup_lt_is_Some_2 cols i ltac:(lia)) as [c Ec].
        rewrite Ec in *. cbn. unfold conv_value. rewrite Etc.
        apply Nat.eqb_neq in Hne. rewrite Hne, Hp. reflexivity.
Qed.

(** C8: the record of an output point is dropped if and only if no column
    other than the time column is good once the columns are settled;
    a record that is emitted has one cell per column, the output time in the
    time column and NaN in every other column that is not good. *)
Theorem record_dropped_iff_no_column_passes F iq left right k :
  ((filter_point F iq left right k).2 = None
   <-> forall i, i <> F.(t_col) -> passing F iq left right k i = false)
  /\ forall r, (filter_point F iq left right k).2 = Some r ->
       length r = F.(n_cols)
       /\ (F.(t_col) < F.(n_cols) -> r !! F.(t_col) = Some (rd F.(T_array) k))
       /\ forall i, i < F.(n_cols) -> i <> F.(t_col) ->
            passing F iq left right k i = false -> r !! i = Some DNaN.
Proof. apply filter_point_record. Qed.

End Emit.

Section Asymmetry.
Context `{GmtLib}.

Lemma tap_index_config F F' T r :
  config F' = config F -> tap_index F' T r = tap_index F T r.
Proof.
  intros C. unfold tap_index, time_at.
  rewrite (f_equal data C : data F' = data F), (f_equal t_col C : t_col F' = t_col F),
    (f_equal dt C : dt F' = dt F),
    (f_equal half_n_f_wts C : half_n_f_wts F' = half_n_f_wts F).
  reflexivity.
Qed.

Lemma rows_on_taps_config F F' T rows :
  config F' = config F -> rows_on_taps F' T rows = rows_on_taps F T rows.
Proof.
  intros C. unfold rows_on_taps, tap_in_range.
  induction rows as [| r rows IH]; [reflexivity |].
  rewrite !filter_cons, IH, (tap_index_config F F' T r C),
    (f_equal n_f_wts C : n_f_wts F' = n_f_wts F). reflexivity.
Qed.

Lemma present_config F F' i rows :
  config F' = config F -> present F' i rows = present F i rows.
Proof.
  intros C. unfold present. rewrite (f_equal data C : data F' = data F). reflexivity.
Qed.

Lemma lopsided_config F F' T P :
  config F' = config F -> lopsided F' T P = lopsided F T P.
Proof.
  intros C. unfold lopsided, rows_before, rows_after, time_at.
  rewrite (f_equal data C : data F' = data F), (f_equal t_col C : t_col F' = t_col F),
    (f_equal sym_coeff C : sym_coeff F' = sym_coeff F). reflexivity.
Qed.

Lemma robust_gates_asym F iq c :
  F.(check_asym) = true -> F.(check_q) = false ->
  robust_gates F iq c = asym_gate F c.
Proof.
  intros Ha Hq. unfold robust_gates. rewrite Ha, Hq, andb_false_r. reflexivity.
Qed.

Lemma asymmetric_eq F c :
  asymmetric F c = symmetry_exceeded c.(n_left) c.(n_right) F.(sym_coeff).
Proof. reflexivity. Qed.

Lemma asym_gate_good F c :
  c.(good_one) = true ->
  (asym_gate F c).(good_one) = negb (asymmetric F c)
  /\ (asymmetric F c = false -> asym_gate F c = c).
Proof.
  intros Hg. unfold asym_gate. rewrite Hg. cbn [negb].
  destruct (asymmetric F c); cbn; split; auto; discriminate.
Qed.

Lemma conv_gate_good F c :
  c.(good_one) = true ->
  (conv_gate F c).(good_one)
  = negb (c.(n_this_col) =? 0)
    && negb (F.(check_asym) && negb F.(robust) && asymmetric F c)
    && negb (F.(check_q)
             && dlt (ddiv c.(wt_sum) (dnat c.(n_this_col))) F.(q_factor)).
Proof.
  intros Hg. unfold conv_gate. rewrite Hg. cbn [negb].
  destruct (n_this_col c =? 0); [reflexivity |].
  destruct (check_asym F && negb (robust F) && asymmetric F c); [reflexivity |].
  destruct (check_q F && _); cbn; auto.
Qed.

(** C5, as amended: with the asymmetry check on (and the quality check
    off), a column that was good after the lack check stays good exactly when
    |n_left - n_right| / (n_left + n_right) does not exceed sym_coeff, where
    n_left and n_right count the samples that are not NaN with time strictly
    before and strictly after the output time: among all rows of the window
    for the median, mode, extreme and robust filters, but only among the rows
    whose tap lies inside the coefficient array for a convolution that is
    not robust (there, and for the robust convolutions, the column also needs
    one such row with a sample).  With n_left = 3 and n_right = 0 the
    verdict is: rejected for sym_coeff 0.5, accepted for sym_coeff 1. *)
Theorem asymmetry_gate_counts F iq left right k i :
  F.(check_asym) = true ->
  F.(check_q) = false ->
  i < F.(n_cols) ->
  let T := rd F.(T_array) k in
  let rows := window_rows left right in
  let good0 := (init_column F left right i).(good_one) in
  passing F iq left right k i
  = (if (FILTER1D_CONVOLVE <? F.(filter_type))%Z then
       good0 && negb (lopsided F T (present F i rows))
     else if F.(robust) then
       good0 && negb (lopsided F T (present F i rows))
       && negb (length (present F i (rows_on_taps F T rows)) =? 0)
     else
       good0 && negb (length (present F i (rows_on_taps F T rows)) =? 0)
       && negb (lopsided F T (present F i (rows_on_taps F T rows))))
  /\ (forall c, c.(n_left) = 3 -> c.(n_right) = 0 ->
        (F.(sym_coeff) = DFin (1 # 2) -> asymmetric F c = true)
        /\ (F.(sym_coeff) = DFin 1 -> asymmetric F c = false)).
Proof.
  intros Ha Hq Hi T rows good0. split.
  2: { intros c Hl Hr. unfold asymmetric. rewrite Hl, Hr.
       split; intros ->; reflexivity. }
  unfold passing. subst good0.
  destruct (FILTER1D_CONVOLVE <? filter_type F)%Z eqn:Ht.
  - destruct (settle_columns_nonconv F iq left right k i Ht Hi) as [w ->].
    rewrite (robust_gates_asym F iq _ Ha Hq). fold T rows.
    change (good_one (set_work w ?c)) with (good_one c).
    destruct (good_one (init_column F left right i)) eqn:Eg.
    + rewrite (collect_col_good F T rows i _ Eg). cbn zeta. rewrite Ha.
      match goal with |- good_one (asym_gate F ?c) = _ =>
        destruct (asym_gate_good F c eq_refl) as [-> _] end.
      reflexivity.
    + rewrite (collect_col_bad F T rows i _ Eg). unfold asym_gate. rewrite Eg.
      exact Eg.
  - destruct (robust F) eqn:Hr.
    + destruct (settle_columns_robust F iq left right k i Hr Ht Hi) as [w ->].
      pose proof (settle_columns_config F iq left right k) as C.
      set (F1 := (settle_columns F iq left right k).1) in *.
      rewrite (robust_gates_asym F iq _ Ha Hq). fold T rows.
      destruct (good_one (init_column F left right i)) eqn:Eg.
      * rewrite (collect_col_good F T rows i _ Eg). cbn zeta. rewrite Ha.
        match goal with |- context [asym_gate F ?c] =>
          destruct (asym_gate_good F c eq_refl) as [Eg' Eid];
          change (asymmetric F c) with (lopsided F T (present F i rows)) in Eg', Eid;
          set (c1 := c) in * end.
        destruct (lopsided F T (present F i rows)).
        -- rewrite convolve_col_bad, conv_gate_bad by exact Eg'. exact Eg'.
        -- rewrite (Eid eq_refl).
           rewrite convolve_col_good by reflexivity. cbn zeta.
           rewrite conv_gate_good by reflexivity.
           rewrite (f_equal robust C : robust F1 = robust F), Hr,
             (f_equal check_q C : check_q F1 = check_q F), Hq.
           rewrite andb_false_r. cbn [negb andb n_this_col set_n_this_col Nat.add].
           rewrite (present_config F F1 i _ C), (rows_on_taps_config F F1 T rows C).
           rewrite !andb_true_r. reflexivity.
      * rewrite (collect_col_bad F T rows i _ Eg).
        unfold asym_gate at 1. rewrite Eg. cbn [negb].
        rewrite convolve_col_bad, conv_gate_bad by exact Eg. exact Eg.
    + destruct (settle_columns_plain F iq left right k i Hr Ht Hi) as [_ ->].
      fold T rows.
      destruct (good_one (init_column F left right i)) eqn:Eg.
      * rewrite (convolve_col_good F T rows i _ Eg). cbn zeta.
        rewrite conv_gate_good by reflexivity.
        rewrite Hr, Ha, Hq. cbn [negb andb n_this_col init_column Nat.add].
        rewrite andb_true_r. reflexivity.
      * rewrite (convolve_col_bad F T rows i _ Eg), conv_gate_bad by exact Eg.
        exact Eg.
Qed.

End Asymmetry.

Lemma asymmetry_gate_counts_witness :
  @passing TestLib sym_start.1.1 0 1 3 2 1 = true.
Proof.
  exact (proj1 (@asymmetry_gate_counts TestLib sym_start.1.1 0 1 3 2 1
                  eq_refl eq_refl ltac:(vm_compute; lia))).
Defined.

(** On times 0, 0.5, 1 the boxcar of width 1 (-D1) emits a value at time 1,
    although the window holds one sample before the output time and none
    after it: the sample at 0.5 falls on a tap outside the coefficient array
    and is not counted. *)
Lemma asymmetry_counts_all_window_samples_counterexample :
  exists F1 l1 r1 o1 F2 l2 r2 o2 F3 l3 r3 v,
    @filter_step TestLib sym_start.1.1 (window_tolerance sym_start.1.1) 0 0 0 0
    = Next F1 l1 r1 o1
    /\ @filter_step TestLib F1 (window_tolerance sym_start.1.1) 0 l1 r1 1
       = Next F2 l2 r2 o2
    /\ @filter_step TestLib F2 (window_tolerance sym_start.1.1) 0 l2 r2 2
       = Next F3 l3 r3 (Some [DFin 1; DFin v])
    /\ length (rows_before F2 (DFin 1) (present F2 1 (window_rows l3 r3))) = 1
    /\ length (rows_after F2 (DFin 1) (present F2 1 (window_rows l3 r3))) = 0
    /\ symmetry_exceeded 1 0 F2.(sym_coeff) = true.
Proof.
  do 12 eexists.
  split; [vm_compute; reflexivity |].
  split; [vm_compute; reflexivity |].
  split; [vm_compute; reflexivity |].
  split; [vm_compute; reflexivity |].
  split; vm_compute; reflexivity.
Qed.

Section Robust.
Context `{GmtLib}.

Lemma take_absdev {A : Type} (f : A -> A) n : forall w : list A,
  take n (map f (take n w) ++ drop n w) = map f (take n w).
Proof.
  induction n as [| n IH]; intros [| x w]; cbn; try reflexivity.
  f_equal. apply IH.
Qed.

Lemma estimates_lengths F w j n both :
  let F' := (filter1d_get_robust_estimates F w j n both).1 in
  length F'.(this_loc) = length F.(this_loc)
  /\ length F'.(last_loc) = length F.(last_loc)
  /\ length F'.(this_scl) = length F.(this_scl)
  /\ length F'.(last_scl) = length F.(last_scl).
Proof.
  unfold filter1d_get_robust_estimates.
  destruct (if (FILTER1D_MODE <? filter_type F)%Z then _ else _) as [m t].
  destruct both; cbn; rewrite ?length_insert; auto.
Qed.

Lemma estimates_elsewhere F w j n both j' :
  j' <> j ->
  estimates_at (filter1d_get_robust_estimates F w j n both).1 j'
  = estimates_at F j'.
Proof.
  intros Hne. unfold filter1d_get_robust_estimates, estimates_at, rd.
  destruct (if (FILTER1D_MODE <? filter_type F)%Z then _ else _) as [m t].
  destruct both; cbn;
    rewrite ?list_lookup_total_insert_ne by congruence; reflexivity.
Qed.

(** [filter1d_get_robust_estimates] with [both] set, for a convolution. *)
Lemma estimates_here F w j n :
  (FILTER1D_CONVOLVE <? F.(filter_type))%Z = false ->
  j < length F.(this_loc) -> j < length F.(last_loc) ->
  j < length F.(this_scl) -> j < length F.(last_scl) ->
  let loc := robust_location F (take n w) j in
  let scl := robust_scale F (take n w) j in
  estimates_at (filter1d_get_robust_estimates F w j n true).1 j
  = (loc, loc, scl, scl).
Proof.
  intros Ht H1 H2 H3 H4 loc scl.
  unfold filter1d_get_robust_estimates, estimates_at, rd.
  assert (E1 : (FILTER1D_MODE <? filter_type F)%Z = false).
  { apply Z.ltb_ge. apply Z.ltb_ge in Ht. unfold FILTER1D_MODE, FILTER1D_CONVOLVE in *. lia. }
  assert (E2 : (filter_type F =? FILTER1D_MODE)%Z = false).
  { apply Z.eqb_neq. apply Z.ltb_ge in Ht. unfold FILTER1D_MODE, FILTER1D_CONVOLVE in *. lia. }
  rewrite E1, E2. cbn.
  rewrite take_absdev.
  rewrite (list_lookup_total_insert_eq (this_loc F)) by assumption.
  rewrite (list_lookup_total_insert_eq (last_loc F)) by assumption.
  rewrite (list_lookup_total_insert_eq (this_scl F)) by assumption.
  rewrite (list_lookup_total_insert_eq (last_scl F)) by assumption.
  reflexivity.
Qed.

Lemma robust_estimates_same F F' W q :
  config F' = config F ->
  estimates_at F' q = estimates_at F q ->
  robust_location F' W q = robust_location F W q
  /\ robust_scale F' W q = robust_scale F W q.
Proof.
  intros C E. unfold estimates_at in E. injection E as E1 E2 E3 E4.
  assert (L : robust_location F' W q = robust_location F W q).
  { unfold robust_location.
    rewrite (f_equal min_loc C : min_loc F' = min_loc F),
      (f_equal max_loc C : max_loc F' = max_loc F), E2. reflexivity. }
  split; [exact L |]. unfold robust_scale.
  rewrite L, (f_equal min_scl C : min_scl F' = min_scl F),
    (f_equal max_scl C : max_scl F' = max_scl F), E4. reflexivity.
Qed.

(** The loop over the columns: the estimates of a good column are those of
    its own work array, started from what the structure held on entry. *)
Lemma estimate_columns_estimates cols : forall F j n,
  F.(robust) = true ->
  (FILTER1D_CONVOLVE <? F.(filter_type))%Z = false ->
  length F.(this_loc) = n -> length F.(last_loc) = n ->
  length F.(this_scl) = n -> length F.(last_scl) = n ->
  j + length cols <= n ->
  let F' := (estimate_columns F j cols).1 in
  (length F'.(this_loc) = n /\ length F'.(last_loc) = n
   /\ length F'.(this_scl) = n /\ length F'.(last_scl) = n)
  /\ (forall q, q < j -> estimates_at F' q = estimates_at F q)
  /\ (forall p c, cols !! p = Some c -> c.(good_one) = true ->
        let W := take c.(n_this_col) c.(work) in
        estimates_at F' (j + p)
        = (robust_location F W (j + p), robust_location F W (j + p),
           robust_scale F W (j + p), robust_scale F W (j + p))).
Proof.
  induction cols as [| c0 cols IH]; intros F j n Hr Ht L1 L2 L3 L4 Hn.
  - cbn. repeat split; auto. intros p c Hc. discriminate.
  - cbn [estimate_columns]. cbn [length] in Hn.
    destruct (good_one c0) eqn:Eg.
    + rewrite Hr.
      pose proof (get_robust_estimates_config F (work c0) j (n_this_col c0) true) as C.
      pose proof (estimates_lengths F (work c0) j (n_this_col c0) true) as (M1 & M2 & M3 & M4).
      pose proof (fun j' => estimates_elsewhere F (work c0) j (n_this_col c0) true j') as Eo.
      pose proof (estimates_here F (work c0) j (n_this_col c0) Ht
                    ltac:(lia) ltac:(lia) ltac:(lia) ltac:(lia)) as Eh.
      destruct (filter1d_get_robust_estimates F (work c0) j (n_this_col c0) true)
        as [F1 w1]. cbn [fst] in *.
      specialize (IH F1 (S j) n
        ltac:(rewrite (f_equal robust C : robust F1 = robust F); exact Hr)
        ltac:(rewrite (f_equal filter_type C : filter_type F1 = filter_type F); exact Ht)
        ltac:(lia) ltac:(lia) ltac:(lia) ltac:(lia) ltac:(lia)).
      destruct (estimate_columns F1 (S j) cols) as [F2 cs]. cbn [fst] in *.
      destruct IH as (IHl & IHq & IHp).
      split; [exact IHl |]. split.
      * intros q Hq. rewrite IHq by lia. apply Eo. lia.
      * intros [| p] c Hc Hg; cbn in Hc.
        -- injection Hc as <-. rewrite Nat.add_0_r. rewrite (IHq j) by lia. exact Eh.
        -- specialize (IHp p c Hc Hg).
           replace (j + S p) with (S j + p) by lia. rewrite IHp.
           destruct (robust_estimates_same F F1 (take (n_this_col c) (work c))
                       (S j + p) C (Eo (S j + p) ltac:(lia))) as [-> ->].
           reflexivity.
    + specialize (IH F (S j) n Hr Ht L1 L2 L3 L4 ltac:(lia)).
      destruct (estimate_columns F (S j) cols) as [F2 cs]. cbn [fst] in *.
      destruct IH as (IHl & IHq & IHp).
      split; [exact IHl |]. split.
      * intros q Hq. apply IHq. lia.
      * intros [| p] c Hc Hg; cbn in Hc.
        -- injection Hc as <-. congruence.
        -- replace (j + S p) with (S j + p) by lia. apply IHp; assumption.
Qed.

End Robust.

Section RobustPoint.
Context `{GmtLib}.

Lemma conv_gate_passing F c :
  (conv_gate F c).(good_one) = true -> conv_gate F c = c.
Proof.
  unfold conv_gate. destruct (good_one c) eqn:Eg; cbn [negb]; [| reflexivity].
  destruct (n_this_col c =? 0); [discriminate |].
  destruct (_ && asymmetric F c); [discriminate |].
  destruct (check_q F && _); [discriminate | reflexivity].
Qed.

Lemma asym_gate_passing F c :
  (asym_gate F c).(good_one) = true -> asym_gate F c = c.
Proof.
  unfold asym_gate. destruct (good_one c) eqn:Eg; cbn [negb]; [| reflexivity].
  destruct (asymmetric F c); [discriminate | reflexivity].
Qed.

Lemma count_gate_passing iq c :
  (count_gate iq c).(good_one) = true -> count_gate iq c = c.
Proof.
  unfold count_gate. destruct (n_this_col c <? iq); [discriminate | reflexivity].
Qed.

Lemma robust_gates_passing F iq c :
  (robust_gates F iq c).(good_one) = true -> robust_gates F iq c = c.
Proof.
  unfold robust_gates.
  destruct ((FILTER1D_CONVOLVE <? filter_type F)%Z && check_q F), (check_asym F);
    intros Hp.
  - pose proof (count_gate_passing _ _ Hp) as E. rewrite E in Hp |- *.
    apply asym_gate_passing, Hp.
  - apply count_gate_passing, Hp.
  - apply asym_gate_passing, Hp.
  - reflexivity.
Qed.

Lemma robust_work_gates F iq T left right cols :
  robust_work F iq T left right cols
  = estimate_columns F 0
      (map (robust_gates F iq) (collect_rows F T left right cols)).
Proof.
  unfold robust_work. f_equal. unfold robust_gates.
  destruct (check_asym F), ((FILTER1D_CONVOLVE <? filter_type F)%Z && check_q F);
    rewrite ?map_map, ?map_id; reflexivity.
Qed.

Lemma tap_weight_config F F' T r :
  config F' = config F -> tap_weight F' T r = tap_weight F T r.
Proof.
  intros C. unfold tap_weight.
  rewrite (tap_index_config F F' T r C), (f_equal f_wt C : f_wt F' = f_wt F).
  reflexivity.
Qed.

Lemma map_ext_list {A B : Type} (f g : A -> B) (l : list A) :
  (forall x, f x = g x) -> map f l = map g l.
Proof.
  intros E. induction l as [| x l IH]; cbn; [reflexivity |].
  rewrite E, IH. reflexivity.
Qed.

(** C9: in a robust convolution, a column that passes has for location the
    median of the samples of the window that are not NaN, searched within
    the bounds of the column from the previous location, and for scale the
    median of their absolute deviations from that location, searched
    within the bounds of the scale from the previous scale; both are kept
    as the starting points of the next output point; and in the weighted
    sum every sample farther than 2.5 scales from the location is
    replaced by the location, the others being used as they are. *)
Theorem robust_location_scale_and_clipping F iq left right k i :
  F.(robust) = true ->
  (FILTER1D_CONVOLVE <? F.(filter_type))%Z = false ->
  estimates_allocated F ->
  i < F.(n_cols) ->
  passing F iq left right k i = true ->
  let T := rd F.(T_array) k in
  let rows := window_rows left right in
  let W := map (rd2 F.(data) i) (present F i rows) in
  let loc := robust_location F W i in
  let scl := robust_scale F W i in
  let used := present F i (rows_on_taps F T rows) in
  estimates_at (settle_columns F iq left right k).1 i = (loc, loc, scl, scl)
  /\ exists c,
       (settle_columns F iq left right k).2 !! i = Some c
       /\ c.(data_sum)
          = dsum (map (fun r => dmul (tap_weight F T r)
                                  (clipped loc scl (rd2 F.(data) i r))) used)
       /\ c.(wt_sum) = dsum (map (tap_weight F T) used)
       /\ forall val,
            clipped loc scl val
            = if dgt (dabs (dsub val loc)) (dmul (DFin (25 # 10)) scl)
              then loc else val.
Proof.
  intros Hr Ht (L1 & L2 & L3 & L4) Hi Hp T rows W loc scl used.
  unfold passing in Hp.
  destruct (settle_columns_robust F iq left right k i Hr Ht Hi) as [w Hc].
  cbn zeta in Hc. rewrite Hc in Hp.
  pose proof (settle_columns_config F iq left right k) as C.
  fold T rows in Hc, Hp.
  set (c0 := init_column F left right i) in *.
  set (cC := collect_col F T rows i c0) in *.
  (* the column was good all along *)
  destruct (good_one (robust_gates F iq cC)) eqn:Eg.
  2: { rewrite convolve_col_bad, conv_gate_bad in Hp by exact Eg. cbn in Hp. congruence. }
  pose proof (robust_gates_passing F iq cC Eg) as Egates.
  destruct (good_one c0) eqn:Eg0.
  2: { subst cC. rewrite (collect_col_bad F T rows i c0 Eg0) in Eg.
       rewrite robust_gates_bad in Eg by exact Eg0. discriminate. }
  assert (EcC : cC = _) by exact (collect_col_good F T rows i c0 Eg0).
  cbn zeta in EcC.
  (* the estimates *)
  assert (Est : estimates_at (settle_columns F iq left right k).1 i = (loc, loc, scl, scl)).
  { unfold settle_columns. rewrite Hr. cbn [orb]. fold T.
    rewrite robust_work_gates.
    pose proof (estimate_columns_estimates
      (map (robust_gates F iq) (collect_rows F T left right (init_columns F left right)))
      F 0 (n_cols F) Hr Ht L1 L2 L3 L4) as E.
    rewrite length_map in E. unfold collect_rows in E at 1.
    rewrite fold_imap_length, init_columns_length in E.
    specialize (E ltac:(lia)). cbn zeta in E. destruct E as (_ & _ & E).
    specialize (E i (robust_gates F iq cC)).
    rewrite list_lookup_fmap, collect_rows_lookup,
      (init_columns_lookup F left right i Hi) in E.
    specialize (E eq_refl Eg). cbn [Nat.add] in E.
    destruct (estimate_columns F 0 _) as [F1 cols1]. cbn [fst] in *.
    assert (EW : take (n_this_col (robust_gates F iq cC)) (work (robust_gates F iq cC)) = W).
    { rewrite Egates, EcC. cbn [n_this_col work]. subst c0. cbn [init_column work app].
      apply take_ge. unfold W. rewrite length_map. cbn. lia. }
    rewrite EW in E.
    destruct (FILTER1D_CONVOLVE <? filter_type F1)%Z; exact E. }
  split; [exact Est |].
  set (F1 := (settle_columns F iq left right k).1) in *.
  unfold estimates_at in Est. injection Est as E1 _ E3 _.
  eexists. split; [exact Hc |].
  rewrite conv_gate_passing by exact Hp.
  rewrite Egates.
  rewrite convolve_col_good by (cbn; rewrite EcC; reflexivity).
  cbn zeta. cbn [data_sum wt_sum set_n_this_col set_work].
  rewrite EcC. cbn [data_sum wt_sum]. subst c0. cbn [init_column data_sum wt_sum].
  rewrite (present_config F F1 i _ C), (rows_on_taps_config F F1 T rows C).
  fold used. unfold dsum. split; [| split; [| reflexivity]].
  - f_equal. apply map_ext_list. intros r.
    rewrite (tap_weight_config F F1 T r C). unfold used_sample.
    rewrite (f_equal robust C : robust F1 = robust F), Hr, E1, E3,
      (f_equal data C : data F1 = data F). reflexivity.
  - f_equal. apply map_ext_list. intros r. apply tap_weight_config, C.
Qed.

End RobustPoint.

Section Sums.
Context `{GmtLib}.

(** The sums of a column that passes, in a convolution. *)
Lemma settled_sums F iq left right k i :
  (FILTER1D_CONVOLVE <? F.(filter_type))%Z = false ->
  i < F.(n_cols) ->
  passing F iq left right k i = true ->
  let T := rd F.(T_array) k in
  let F1 := (settle_columns F iq left right k).1 in
  exists c,
    (settle_columns F iq left right k).2 !! i = Some c
    /\ c.(good_one) = true
    /\ c.(data_sum) = weighted_sum F F1 T left right i
    /\ c.(wt_sum) = weight_sum F T left right i
    /\ c.(n_this_col)
       = length (present F i (rows_on_taps F T (window_rows left right))).
Proof.
  intros Ht Hi Hp T F1. unfold passing in Hp.
  pose proof (settle_columns_config F iq left right k) as C. fold F1 in C.
  unfold weighted_sum, weight_sum, dsum.
  destruct (robust F) eqn:Hr.
  - destruct (settle_columns_robust F iq left right k i Hr Ht Hi) as [w Hc].
    cbn zeta in Hc. fold F1 T in Hc. rewrite Hc in Hp.
    set (cC := collect_col F T (window_rows left right) i (init_column F left right i)) in *.
    destruct (good_one (robust_gates F iq cC)) eqn:Eg.
    2: { rewrite convolve_col_bad, conv_gate_bad in Hp by exact Eg.
         cbn in Hp. congruence. }
    eexists. split; [exact Hc |]. split; [exact Hp |].
    rewrite conv_gate_passing by exact Hp.
    rewrite convolve_col_good by exact Eg. cbn zeta.
    cbn [data_sum wt_sum n_this_col set_n_this_col set_work Nat.add].
    rewrite (present_config F F1 i _ C), (rows_on_taps_config F F1 T _ C).
    assert (D0 : data_sum (robust_gates F iq cC) = d0 /\ wt_sum (robust_gates F iq cC) = d0).
    { rewrite (robust_gates_passing F iq cC Eg). subst cC.
      destruct (good_one (init_column F left right i)) eqn:Eg0.
      - rewrite (collect_col_good _ _ _ _ _ Eg0). split; reflexivity.
      - rewrite (collect_col_bad _ _ _ _ _ Eg0). split; reflexivity. }
    destruct D0 as [-> ->].
    split; [| split; [| reflexivity]].
    + f_equal. apply map_ext_list. intros r.
      rewrite (tap_weight_config F F1 T r C). reflexivity.
    + f_equal. apply map_ext_list. intros r. apply tap_weight_config, C.
  - destruct (settle_columns_plain F iq left right k i Hr Ht Hi) as [E Hc].
    assert (EF : F1 = F) by (unfold F1; rewrite E; reflexivity).
    fold T in Hc. rewrite Hc in Hp. rewrite EF.
    destruct (good_one (init_column F left right i)) eqn:Eg0.
    2: { rewrite convolve_col_bad, conv_gate_bad in Hp by exact Eg0. congruence. }
    eexists. split; [exact Hc |]. split; [exact Hp |].
    rewrite conv_gate_passing by exact Hp.
    rewrite convolve_col_good by exact Eg0. cbn zeta.
    split; [| split]; reflexivity.
Qed.

(** What a convolution emits for a column that passes. *)
Lemma emitted_value F iq left right k i :
  (FILTER1D_CONVOLVE <? F.(filter_type))%Z = false ->
  i < F.(n_cols) ->
  i <> F.(t_col) ->
  passing F iq left right k i = true ->
  let T := rd F.(T_array) k in
  let F1 := (settle_columns F iq left right k).1 in
  exists rec,
    (filter_point F iq left right k).2 = Some rec
    /\ rec !! i
       = Some (pass_value F i k
                 (if F.(f_operator) then weighted_sum F F1 T left right i
                  else ddiv (weighted_sum F F1 T left right i)
                            (weight_sum F T left right i))).
Proof.
  intros Ht Hi Hne Hp T F1.
  destruct (settled_sums F iq left right k i Ht Hi Hp) as (c & Hc & Hg & Hd & Hw & _).
  fold T F1 in Hd, Hw.
  pose proof (settle_columns_config F iq left right k) as C. fold F1 in C.
  unfold filter_point. unfold F1 in *.
  destruct (settle_columns F iq left right k) as [G cols]. cbn [fst snd] in *.
  unfold emit_record.
  rewrite (f_equal filter_type C : filter_type G = filter_type F), Ht.
  unfold emit_conv.
  destruct (length (filter (fun c => good_one c = true) cols) =? 0) eqn:En.
  - apply (count_true_zero good_one) with (i := i) (x := c) in En; congruence.
  - eexists. split; [reflexivity |].
    rewrite list_lookup_imap, Hc. cbn. unfold conv_value, pass_value.
    apply Nat.eqb_neq in Hne.
    rewrite (f_equal t_col C : t_col G = t_col F), Hne, Hg, Hd, Hw,
      (f_equal f_operator C : f_operator G = f_operator F),
      (f_equal highpass C : highpass G = highpass F),
      (f_equal data C : data G = data F).
    reflexivity.
Qed.

End Sums.

(** ** Binary64 rounding and the custom coefficients *)

(** The rounding on a few numbers: 1/10 and -1/3 go to the nearest
    doubles, 1/2 is a double, and of two doubles equally near the one with
    the even significand is taken. *)
Lemma b64_round_examples :
  b64_round (1 # 10) = (3602879701896397 # 36028797018963968)%Q
  /\ b64_round (- (1 # 3)) = (- (6004799503160661 # 18014398509481984))%Q
  /\ b64_round (1 # 2) = (1 # 2)%Q
  /\ b64_round (inject_Z (2 ^ 53 + 1)) = inject_Z (2 ^ 53)
  /\ b64_round (inject_Z (2 ^ 53 + 3)) = inject_Z (2 ^ 53 + 4).
Proof. repeat split; vm_compute; reflexivity. Qed.

Section Custom.
Context `{GmtLib}.

Lemma fold_dadd_fin qs : forall a,
  fold_left dadd (map DFin qs) (DFin a) = DFin (fold_left Qplus qs a).
Proof.
  induction qs as [| q qs IH]; intros a; cbn; [reflexivity |].
  apply IH.
Qed.

Lemma fold_Qplus_compat qs : forall a b,
  (a == b)%Q -> (fold_left Qplus qs a == fold_left Qplus qs b)%Q.
Proof.
  induction qs as [| q qs IH]; intros a b E; cbn; [exact E |].
  apply IH. rewrite E. reflexivity.
Qed.

Lemma fold_Qplus_div s qs : forall a,
  ~ (s == 0)%Q ->
  (fold_left Qplus (map (fun q => q / s) qs) (a / s)
   == fold_left Qplus qs a / s)%Q.
Proof.
  induction qs as [| q qs IH]; intros a Hs; cbn; [reflexivity |].
  rewrite <- (IH (a + q)%Q Hs). apply fold_Qplus_compat. field. exact Hs.
Qed.

Lemma Qzero_false q : ~ (q == 0)%Q -> Qzero q = false.
Proof.
  intros Hq. unfold Qzero. destruct (q ?= 0)%Q eqn:E; try reflexivity.
  apply Qeq_alt in E. contradiction.
Qed.

Lemma Qzero_true q : (q == 0)%Q -> Qzero q = true.
Proof.
  intros Hq. unfold Qzero. apply Qeq_alt in Hq. rewrite Hq. reflexivity.
Qed.

Lemma set_up_filter_coefficients F :
  let G := if F.(equidist)
           then set_dt (ddiv (dsub (time_at F (F.(n_rows) - 1)) (time_at F 0))
                             (dnat (F.(n_rows) - 1))) F
           else F in
  (filter1d_set_up_filter F).(f_wt) = (set_up_coefficients G).(f_wt)
  /\ (filter1d_set_up_filter F).(f_operator) = (set_up_coefficients G).(f_operator).
Proof.
  unfold filter1d_set_up_filter, set_up_range. cbn zeta.
  match goal with |- context [set_up_coefficients ?X] => generalize (set_up_coefficients X) end.
  intros G.
  destruct (out_at_time G), (negb (use_ends G)), (use_ends G); split; reflexivity.
Qed.

(** What [filter1d_set_up_filter] makes of the coefficients read from
    file, whatever they are. *)
Lemma custom_set_up F :
  F.(filter_type) = FILTER1D_CUSTOM ->
  let F' := filter1d_set_up_filter F in
  let w_sum := dsum F.(Fin) in
  F'.(f_operator) = gmt_M_is_zero w_sum
  /\ F'.(f_wt) = if dgt w_sum d1
                 then map (fun w => ddiv w w_sum) F.(Fin)
                 else F.(Fin).
Proof.
  intros Ht F' w_sum. destruct (set_up_filter_coefficients F) as [E1 E2].
  fold F' in E1, E2. rewrite E1, E2. clear E1 E2.
  unfold set_up_coefficients.
  assert (Et : forall G : FILTER1D_INFO, filter_type G = filter_type F ->
                 (filter_type G =? FILTER1D_CUSTOM)%Z = true).
  { intros G ->. rewrite Ht. reflexivity. }
  destruct (equidist F); rewrite Et by reflexivity; split; reflexivity.
Qed.

(** A sum above 1 is not numerically zero. *)
Lemma above_one_not_zero w : dgt w d1 = true -> gmt_M_is_zero w = false.
Proof.
  destruct w as [| s | q]; [discriminate | |].
  - intros _. reflexivity.
  - intros Hq. apply dgt_fin in Hq.
    unfold gmt_M_is_zero, GMT_CONV8_LIMIT, dabs.
    apply not_true_iff_false. rewrite dlt_fin.
    pose proof (Qle_Qabs q). lra.
Qed.

(** Without rounding, finite coefficients that sum to more than 1 sum to 1
    once rescaled. *)
Lemma rescaled_sum_exact qs :
  (1 < Qsum qs)%Q ->
  deq (dsum (map (fun w => ddiv w (dsum (map DFin qs))) (map DFin qs))) d1.
Proof.
  intros Hs. unfold dsum at 2, d0. rewrite fold_dadd_fin. fold (Qsum qs).
  assert (Hs0 : ~ (Qsum qs == 0)%Q) by (intros E; rewrite E in Hs; lra).
  rewrite map_map.
  rewrite (map_ext_list _ (fun q => DFin (q / Qsum qs)%Q)).
  2: { intros q. unfold ddiv. rewrite (Qzero_false _ Hs0). reflexivity. }
  rewrite <- (map_map (fun q => (q / Qsum qs)%Q) DFin).
  unfold dsum, d0. rewrite fold_dadd_fin. unfold deq, d1.
  assert (E0 : (0 == 0 / Qsum qs)%Q) by (field; exact Hs0).
  rewrite (fold_Qplus_compat _ _ _ E0), fold_Qplus_div by exact Hs0.
  fold (Qsum qs). field. exact Hs0.
Qed.

End Custom.

Section CustomClaim.
Context `{GmtLib}.

(** C3, as amended: for a custom filter set up by [filter1d_set_up_filter]
    from the coefficients read from file, with [w_sum] their sum as the
    program adds it: if [w_sum > 1.0] every coefficient is divided by
    [w_sum] (so that they sum to 1 up to the rounding of these divisions)
    and the filter is no operator; otherwise the coefficients are left as
    read; the filter is an operator exactly when [w_sum] is numerically zero
    (below 1e-8 in magnitude), and then the value emitted for a passing
    column is the raw weighted sum; when it is not, so in particular when
    the coefficients sum to 1, the value emitted is the weighted sum divided
    by the sum of the weights.  (With +h the value is subtracted from the
    input sample, as for every filter.) *)
Theorem custom_filter_rescaled_or_operator F G iq left right k i :
  F.(filter_type) = FILTER1D_CUSTOM ->
  G.(filter_type) = FILTER1D_CUSTOM ->
  G.(f_operator) = (filter1d_set_up_filter F).(f_operator) ->
  i < G.(n_cols) ->
  i <> G.(t_col) ->
  passing G iq left right k i = true ->
  let F' := filter1d_set_up_filter F in
  let w_sum := dsum F.(Fin) in
  let T := rd G.(T_array) k in
  let G1 := (settle_columns G iq left right k).1 in
  let ws := weighted_sum G G1 T left right i in
  (dgt w_sum d1 = true ->
     F'.(f_wt) = map (fun w => ddiv w w_sum) F.(Fin)
     /\ F'.(f_operator) = false)
  /\ (dgt w_sum d1 = false -> F'.(f_wt) = F.(Fin))
  /\ (gmt_M_is_zero w_sum = true ->
        F'.(f_operator) = true /\ F'.(f_wt) = F.(Fin)
        /\ exists rec,
             (filter_point G iq left right k).2 = Some rec
             /\ rec !! i = Some (pass_value G i k ws))
  /\ (gmt_M_is_zero w_sum = false ->
        F'.(f_operator) = false
        /\ exists rec,
             (filter_point G iq left right k).2 = Some rec
             /\ rec !! i
                = Some (pass_value G i k
                          (ddiv ws (weight_sum G T left right i)))).
Proof.
  intros Ht Hgt Hop Hi Hne Hp F' w_sum T G1 ws. subst F'.
  destruct (custom_set_up F Ht) as [Eop Ewt]. fold w_sum in Eop, Ewt.
  assert (Hconv : (FILTER1D_CONVOLVE <? filter_type G)%Z = false)
    by (rewrite Hgt; reflexivity).
  destruct (emitted_value G iq left right k i Hconv Hi Hne Hp) as (rec & Hrec & Hv).
  fold T G1 ws in Hv. rewrite Hop, Eop in Hv.
  split; [| split; [| split]].
  - intros Hs. rewrite Ewt, Hs, Eop. split; [reflexivity |].
    apply above_one_not_zero, Hs.
  - intros Hs. rewrite Ewt, Hs. reflexivity.
  - intros Hz. rewrite Hz in Hv. split; [congruence |]. split.
    + rewrite Ewt. destruct (dgt w_sum d1) eqn:Hs; [| reflexivity].
      apply above_one_not_zero in Hs. congruence.
    + exists rec. split; assumption.
  - intros Hz. rewrite Hz in Hv. split; [congruence |].
    exists rec. split; assumption.
Qed.

End CustomClaim.

Lemma custom_filter_rescaled_or_operator_witness :
  (@filter1d_set_up_filter TestLib custom_loaded).(f_wt)
  = map (fun w => ddiv w (dsum custom_loaded.(Fin))) custom_loaded.(Fin)
  /\ (@filter1d_set_up_filter TestLib custom_loaded).(f_operator) = false.
Proof.
  apply (@custom_filter_rescaled_or_operator TestLib custom_loaded
           custom_start.1.1 0 0 3 1 1
           eq_refl eq_refl eq_refl ltac:(vm_compute; lia)
           ltac:(vm_compute; lia) eq_refl).
  reflexivity.
Defined.

(** The sum of the rescaled coefficients is not exactly 1.0: six
    coefficients 1 sum to 6 and become six times 1/6, which no [double]
    holds; the six doubles nearest to it, the quotients the program stores,
    sum to 1 - 2^-53, whether they are added exactly or as doubles. *)
Lemma custom_rescaled_sum_counterexample :
  let F' := @filter1d_set_up_filter TestLib six_ones_loaded in
  let stored := b64_normalise [1; 1; 1; 1; 1; 1]%Q in
  dgt (dsum six_ones_loaded.(Fin)) d1 = true
  /\ stored = map (fun w => b64_round (qval w)) F'.(f_wt)
  /\ (fold_left b64_add stored 0 == 1 - (1 # 2 ^ 53))%Q
  /\ ~ (fold_left b64_add stored 0 == 1)%Q
  /\ ~ (Qsum stored == 1)%Q.
Proof.
  cbn zeta. split; [reflexivity |]. split; [vm_compute; reflexivity |].
  split; [vm_compute; reflexivity |].
  split; intros E; vm_compute in E; discriminate E.
Qed.

Section Weights.
Context `{GmtLib}.

Lemma fill_weights_prefix ty half_n dt hw w0 m :
  m <= half_n ->
  length w0 = 2 * half_n + 1 ->
  let w := fold_left
             (fun (w : list double) (i : nat) =>
                let v := get_weight ty (dmul (dnat i) dt) hw in
                <[half_n - i := v]> (<[half_n + i := v]> w))
             (seq 0 (S m)) w0 in
  length w = 2 * half_n + 1
  /\ forall j, j < 2 * half_n + 1 -> tap_offset half_n j <= m ->
       rd w j = get_weight ty (dmul (dnat (tap_offset half_n j)) dt) hw.
Proof.
  intros Hm Hl. induction m as [| m IH].
  - cbn. rewrite !length_insert. split; [exact Hl |].
    intros j Hj Ho. unfold tap_offset in *.
    assert (j = half_n) as -> by (destruct (half_n <=? j) eqn:E;
      [apply Nat.leb_le in E | apply Nat.leb_gt in E]; lia).
    rewrite Nat.leb_refl, Nat.sub_diag, Nat.sub_0_r, Nat.add_0_r.
    unfold rd. rewrite list_lookup_total_insert_eq; [reflexivity |].
    rewrite length_insert. lia.
  - rewrite seq_S, fold_left_app. cbn [fold_left Nat.add].
    destruct (IH ltac:(lia)) as [IHl IHv]. cbn zeta in IHl, IHv.
    set (w := fold_left _ (seq 0 (S m)) w0) in *.
    cbn zeta. rewrite !length_insert. split; [exact IHl |].
    intros j Hj Ho. unfold rd.
    destruct (decide (j = half_n - S m)) as [-> | N1].
    { rewrite list_lookup_total_insert_eq by (rewrite length_insert; lia).
      unfold tap_offset. replace (half_n <=? half_n - S m) with false
        by (symmetry; apply Nat.leb_gt; lia).
      do 3 f_equal. lia. }
    rewrite list_lookup_total_insert_ne by congruence.
    destruct (decide (j = half_n + S m)) as [-> | N2].
    { rewrite list_lookup_total_insert_eq by lia.
      unfold tap_offset. replace (half_n <=? half_n + S m) with true
        by (symmetry; apply Nat.leb_le; lia).
      do 3 f_equal. lia. }
    rewrite list_lookup_total_insert_ne by congruence.
    apply IHv; [exact Hj |].
    unfold tap_offset in *. destruct (half_n <=? j) eqn:E;
      [apply Nat.leb_le in E | apply Nat.leb_gt in E]; lia.
Qed.

(** The coefficients of a boxcar, cosine or Gaussian filter: each tap holds
    the weight of its distance from the centre. *)
Lemma fill_weights_taps ty half_n dt hw j :
  j < 2 * half_n + 1 ->
  rd (fill_weights ty half_n dt hw (replicate (2 * half_n + 1) d0)) j
  = get_weight ty (dmul (dnat (tap_offset half_n j)) dt) hw.
Proof.
  intros Hj. unfold fill_weights.
  destruct (fill_weights_prefix ty half_n dt hw (replicate (2 * half_n + 1) d0)
              half_n (Nat.le_refl _) (length_replicate _ _)) as [_ Hv].
  apply Hv; [exact Hj |].
  unfold tap_offset. destruct (half_n <=? j) eqn:E;
    [apply Nat.leb_le in E | apply Nat.leb_gt in E]; lia.
Qed.

End Weights.

Section Rounding.

Lemma Qfloor_unique (q : Q) (z : Z) :
  (inject_Z z <= q)%Q -> (q < inject_Z (z + 1))%Q -> Qfloor q = z.
Proof.
  intros Hl Hu.
  pose proof (Qfloor_le q) as F1. pose proof (Qlt_floor q) as F2.
  assert (A : (Qfloor q < z + 1)%Z).
  { rewrite Zlt_Qlt. eapply Qle_lt_trans; [exact F1 | exact Hu]. }
  assert (B : (z < Qfloor q + 1)%Z).
  { rewrite Zlt_Qlt. eapply Qle_lt_trans; [exact Hl | exact F2]. }
  lia.
Qed.

Lemma Qfloor_half_plus (q : Q) (z : Z) :
  (q == inject_Z z)%Q -> Qfloor ((1 # 2) + q) = z.
Proof.
  intros E. apply Qfloor_unique.
  - rewrite E. lra.
  - rewrite E, inject_Z_plus. change (inject_Z 1) with 1%Q. lra.
Qed.

Lemma Qrint_Z (z : Z) : Qrint (inject_Z z) = z.
Proof.
  unfold Qrint. rewrite Qfloor_Z.
  replace (inject_Z z - inject_Z z ?= 1 # 2)%Q with Lt; [reflexivity |].
  symmetry. apply (proj1 (Qlt_alt _ _)). lra.
Qed.

Lemma lrint_dfloor_half (q : Q) (z : Z) :
  (q == inject_Z z)%Q ->
  lrint (dfloor (dadd (DFin (1 # 2)) (DFin q))) = z.
Proof.
  intros E. unfold dadd, dfloor, dZ, lrint.
  rewrite (Qfloor_half_plus q z E). apply Qrint_Z.
Qed.

End Rounding.

Section BoxcarSetUp.
Context `{GmtLib}.

Lemma set_up_range_view t_0 t_1 F :
  series_view (set_up_range t_0 t_1 F) = series_view F
  /\ coefficients (set_up_range t_0 t_1 F) = coefficients F.
Proof.
  unfold set_up_range.
  destruct (out_at_time F); [destruct (negb (use_ends F)) | destruct (use_ends F)];
    split; reflexivity.
Qed.

(** What [filter1d_set_up_filter] makes of a boxcar. *)
Lemma boxcar_set_up F0 W dtq :
  F0.(filter_type) = FILTER1D_BOXCAR ->
  F0.(filter_width) = DFin W ->
  (filter1d_set_up_filter F0).(dt) = DFin dtq ->
  ~ (dtq == 0)%Q ->
  let half_n := u64 (Qrint ((1 # 2) * W / dtq)) in
  coefficients (filter1d_set_up_filter F0)
  = (DFin dtq, DFin ((1 # 2) * W), half_n, 2 * half_n + 1,
     fill_weights FILTER1D_BOXCAR half_n (DFin dtq) (DFin ((1 # 2) * W))
       (replicate (2 * half_n + 1) d0),
     DFin W)
  /\ series_view (filter1d_set_up_filter F0) = series_view F0.
Proof.
  intros Ht Hw Hdt Hdq half_n.
  unfold filter1d_set_up_filter in *.
  set (F1 := if equidist F0
             then set_dt (ddiv (dsub (time_at F0 (n_rows F0 - 1)) (time_at F0 0))
                            (dnat (n_rows F0 - 1))) F0
             else F0) in *.
  assert (E1 : filter_type F1 = FILTER1D_BOXCAR /\ filter_width F1 = DFin W
               /\ series_view F1 = series_view F0).
  { unfold F1. destruct (equidist F0); repeat split; assumption. }
  destruct E1 as (Ht1 & Hw1 & Hv1).
  destruct (set_up_range_view (time_at F0 0) (time_at F0 (n_rows F0 - 1))
              (set_up_coefficients F1)) as [Rv Rc].
  rewrite Rv, Rc.
  assert (Hdt' : dt (set_up_coefficients F1) = DFin dtq).
  { rewrite <- Hdt. injection Rc as Rdt _ _ _ _ _. symmetry. exact Rdt. }
  clear Hdt Rv Rc. rename Hdt' into Hdt.
  unfold set_up_coefficients in *. rewrite Ht1 in *.
  change (FILTER1D_BOXCAR =? FILTER1D_CUSTOM)%Z with false in *.
  change (FILTER1D_BOXCAR <=? FILTER1D_CONVOLVE)%Z with true in *.
  cbv iota in *.
  assert (Hdt1 : dt F1 = DFin dtq) by exact Hdt.
  split; [| exact Hv1].
  unfold coefficients.
  cbn [dt half_width half_n_f_wts n_f_wts f_wt filter_width
       set_f_wt set_n_f_wts set_half_n_f_wts set_half_width].
  rewrite Hw1, Hdt1.
  assert (Ehw : dmul (DFin (1 # 2)) (DFin W) = DFin ((1 # 2) * W)) by reflexivity.
  rewrite Ehw.
  assert (En : u64 (lrint (ddiv (DFin ((1 # 2) * W)) (DFin dtq))) = half_n).
  { unfold ddiv. rewrite (Qzero_false _ Hdq). reflexivity. }
  rewrite En. reflexivity.
Qed.

End BoxcarSetUp.

Section BoxcarTaps.
Context `{GmtLib}.
Variable G : FILTER1D_INFO.
Hypothesis HB : boxcar_taps G.

Lemma tap_index_steps T r :
  tap_index G T r = (Z.of_nat G.(half_n_f_wts) + whole_steps G T r)%Z.
Proof. reflexivity. Qed.

Lemma tap_in_range_steps T r :
  tap_in_range G T r
  = (Z.abs (whole_steps G T r) <=? Z.of_nat G.(half_n_f_wts))%Z.
Proof.
  destruct HB as [En _]. unfold tap_in_range.
  rewrite tap_index_steps, En.
  apply eq_true_iff_eq.
  rewrite andb_true_iff, !Z.leb_le, Z.ltb_lt. lia.
Qed.

(** A row that meets a coefficient meets 1 or 0: 1 when its distance in
    whole steps is within half the width. *)
Lemma tap_weight_boxcar T r :
  tap_in_range G T r = true ->
  tap_weight G T r = if steps_within G T r then d1 else d0.
Proof.
  intros Hin. pose proof Hin as Hs. rewrite tap_in_range_steps in Hs.
  destruct HB as [En Ew].
  unfold tap_in_range in Hin. apply andb_true_iff in Hin.
  destruct Hin as [H0 H1]. apply Z.leb_le in H0. apply Z.ltb_lt in H1.
  rewrite En in H1. rewrite tap_index_steps in H0, H1.
  unfold tap_weight. rewrite tap_index_steps, Ew.
  rewrite fill_weights_taps by lia.
  change (get_weight FILTER1D_BOXCAR) with filter1d_boxcar_weight.
  unfold filter1d_boxcar_weight, steps_within. rewrite Hs. cbn [andb].
  assert (Eo : Z.of_nat (tap_offset G.(half_n_f_wts)
                 (Z.to_nat (Z.of_nat G.(half_n_f_wts) + whole_steps G T r)))
               = Z.abs (whole_steps G T r)).
  { unfold tap_offset.
    destruct (_ <=? _) eqn:E;
      [apply Nat.leb_le in E | apply Nat.leb_gt in E]; lia. }
  unfold dnat. rewrite Eo.
  destruct (dgt _ _); reflexivity.
Qed.

End BoxcarTaps.

Section Filters.

Lemma bfilter_ext (f g : nat -> bool) (l : list nat) :
  (forall x, In x l -> f x = g x) ->
  filter (fun x => f x = true) l = filter (fun x => g x = true) l.
Proof.
  induction l as [| y l IH]; intros E; [reflexivity |].
  rewrite !filter_cons_true, (E y (or_introl eq_refl)), IH; [reflexivity |].
  intros x Hx. apply E. right. exact Hx.
Qed.

Lemma bfilter_filter (f g : nat -> bool) (l : list nat) :
  filter (fun x => f x = true) (filter (fun x => g x = true) l)
  = filter (fun x => g x && f x = true) l.
Proof.
  induction l as [| y l IH]; [reflexivity |].
  rewrite (filter_cons_true g), (filter_cons_true (fun x => g x && f x)).
  destruct (g y); cbn [andb]; [| exact IH].
  rewrite filter_cons_true, IH. reflexivity.
Qed.

Lemma bfilter_nil (f : nat -> bool) (l : list nat) :
  (forall x, In x l -> f x = false) -> filter (fun x => f x = true) l = [].
Proof.
  induction l as [| y l IH]; intros E; [reflexivity |].
  rewrite filter_cons_true, (E y (or_introl eq_refl)). apply IH.
  intros x Hx. apply E. right. exact Hx.
Qed.

Lemma bfilter_In (f : nat -> bool) (l : list nat) x :
  In x (filter (fun x => f x = true) l) <-> In x l /\ f x = true.
Proof.
  rewrite <- !list_elem_of_In, list_elem_of_filter. tauto.
Qed.

(** A filter over all rows only sees the rows of a range that holds all
    the rows it keeps. *)
Lemma bfilter_seq_restrict (f : nat -> bool) (l r n : nat) :
  r <= n ->
  (forall x, x < n -> f x = true -> l <= x < r) ->
  filter (fun x => f x = true) (seq 0 n)
  = filter (fun x => f x = true) (seq l (r - l)).
Proof.
  intros Hr Hf.
  destruct (decide (l <= r)) as [Hl | Hl].
  - replace n with (l + ((r - l) + (n - r))) at 1 by lia.
    rewrite !seq_app, !filter_app. cbn [Nat.add].
    rewrite (bfilter_nil f (seq 0 l)), (bfilter_nil f (seq (l + (r - l)) (n - r))).
    + rewrite app_nil_r. reflexivity.
    + intros x Hx. apply in_seq in Hx. apply not_true_is_false. intros E.
      specialize (Hf x ltac:(lia) E). lia.
    + intros x Hx. apply in_seq in Hx. apply not_true_is_false. intros E.
      specialize (Hf x ltac:(lia) E). lia.
  - replace (r - l) with 0 by lia. cbn [seq]. apply bfilter_nil.
    intros x Hx. apply in_seq in Hx. apply not_true_is_false. intros E.
    specialize (Hf x ltac:(lia) E). lia.
Qed.

Lemma present_bfilter F i rows :
  present F i rows
  = filter (fun r => negb (gmt_M_is_dnan (rd2 F.(data) i r)) = true) rows.
Proof.
  induction rows as [| r rows IH]; [reflexivity |].
  rewrite present_cons, filter_cons_true, IH.
  destruct (gmt_M_is_dnan _); reflexivity.
Qed.

End Filters.

Section Sums01.

Lemma deq_refl x : deq x x.
Proof. destruct x; cbn; auto. reflexivity. Qed.

Lemma ddiv_deq x x' y y' : deq x x' -> deq y y' -> deq (ddiv x y) (ddiv x' y').
Proof.
  assert (Z : forall a b, (a == b)%Q -> Qzero a = Qzero b).
  { intros a b E. unfold Qzero. rewrite E. reflexivity. }
  assert (N : forall a b, (a == b)%Q -> Qneg a = Qneg b).
  { intros a b E. unfold Qneg. rewrite E. reflexivity. }
  destruct x as [| s | a], x' as [| s' | a']; cbn; try tauto;
    destruct y as [| t | b], y' as [| t' | b']; cbn; try tauto;
    intros Ex Ey; unfold ddiv; try reflexivity.
  - subst. rewrite (N _ _ Ey). reflexivity.
  - rewrite (Z _ _ Ey), (Z _ _ Ex), (N _ _ Ex).
    destruct (Qzero b'); [destruct (Qzero a'); cbn; auto |].
    cbn. rewrite Ex, Ey. reflexivity.
Qed.

(** A sum of samples weighted 1 or 0 is the sum of the samples weighted 1,
    and the sum of these weights is their number. *)
Lemma weighted_01_sum (w : nat -> bool) (tw dat : nat -> double) used :
  (forall r, In r used -> tw r = if w r then d1 else d0) ->
  (forall r, In r used -> is_finite (dat r)) ->
  forall a b, (a == b)%Q ->
    deq (fold_left dadd (map (fun r => dmul (tw r) (dat r)) used) (DFin a))
        (fold_left dadd (map dat (filter (fun r => w r = true) used)) (DFin b)).
Proof.
  induction used as [| r used IH]; intros Hw Hd a b E.
  - cbn. exact E.
  - rewrite filter_cons_true. cbn [map fold_left].
    rewrite (Hw r (or_introl eq_refl)).
    pose proof (Hd r (or_introl eq_refl)) as Hf.
    destruct (dat r) as [| s | q] eqn:Eq; try contradiction.
    assert (Hw' : forall r, In r used -> tw r = if w r then d1 else d0)
      by (intros; apply Hw; right; assumption).
    assert (Hd' : forall r, In r used -> is_finite (dat r))
      by (intros; apply Hd; right; assumption).
    destruct (w r); cbn [map fold_left].
    + rewrite Eq. apply (IH Hw' Hd'). rewrite E. ring.
    + apply (IH Hw' Hd'). rewrite E. ring.
Qed.

Lemma weighted_01_count (w : nat -> bool) (tw : nat -> double) used :
  (forall r, In r used -> tw r = if w r then d1 else d0) ->
  forall a b,
    (a == b + inject_Z (Z.of_nat (length (filter (fun r => w r = true) used))))%Q
    -> forall c, (c == b)%Q ->
    deq (fold_left dadd (map tw used) (DFin c)) (DFin a).
Proof.
  induction used as [| r used IH]; intros Hw a b E c Ec.
  - cbn in *. rewrite Ec, E. ring.
  - rewrite filter_cons_true in E. cbn [map fold_left].
    rewrite (Hw r (or_introl eq_refl)).
    assert (Hw' : forall r, In r used -> tw r = if w r then d1 else d0)
      by (intros; apply Hw; right; assumption).
    destruct (w r).
    + apply (IH Hw' a (b + 1)%Q).
      * rewrite E. cbn [length]. rewrite Nat2Z.inj_succ, <- Z.add_1_l, inject_Z_plus.
        change (inject_Z 1) with 1%Q. ring.
      * rewrite Ec. reflexivity.
    + apply (IH Hw' a b E). rewrite Ec. ring.
Qed.

End Sums01.

Section BoxcarPoint.
Context `{GmtLib}.
Variable G : FILTER1D_INFO.
Hypothesis Hty : G.(filter_type) = FILTER1D_BOXCAR.
Hypothesis Hrb : G.(robust) = false.
Hypothesis Has : G.(check_asym) = false.
Hypothesis Hlk : G.(check_lack) = false.
Hypothesis Hq : G.(check_q) = false.
Hypothesis Hhp : G.(highpass) = false.
Hypothesis Hop : G.(f_operator) = false.
Hypothesis HB : boxcar_taps G.
Hypothesis HS : samples_only G.
Variables (iq left right k : nat).
Hypothesis Hright : right <= G.(n_rows).
Hypothesis Hwin : forall i, i < G.(n_rows) ->
  (left <= i < right
   <-> in_window G (native_tolerance G) (rd G.(T_array) k) i = true).

Local Abbreviation T := (rd G.(T_array) k).

(** The rows that enter the sum with weight 1 are the rows counted at [T]
    that hold a sample. *)
Lemma counted_rows i :
  filter (fun r => steps_within G T r = true)
    (present G i (rows_on_taps G T (window_rows left right)))
  = present G i
      (filter (fun r => counted G T r = true) (seq 0 G.(n_rows))).
Proof.
  rewrite (bfilter_seq_restrict (counted G T) left right (n_rows G) Hright).
  2: { intros x Hx E. apply Hwin; [exact Hx |].
       unfold counted in E. apply andb_true_iff in E. apply E. }
  unfold window_rows, rows_on_taps. rewrite !present_bfilter, !bfilter_filter.
  apply bfilter_ext. intros x Hx. apply in_seq in Hx.
  assert (Hn : x < n_rows G) by lia.
  assert (Ew : in_window G (native_tolerance G) T x = true)
    by (apply Hwin; [exact Hn | lia]).
  unfold counted. rewrite Ew. cbn [andb].
  rewrite (tap_in_range_steps G HB). unfold steps_within.
  destruct (_ <=? _)%Z, (negb (gmt_M_is_dnan _)), (negb (dgt _ _)); reflexivity.
Qed.

(** What the record of an output point holds for a data column: the mean of
    the samples on the rows counted, NaN when there is none. *)
Lemma boxcar_point_mean i rec :
  i < G.(n_cols) ->
  i <> G.(t_col) ->
  (filter_point G iq left right k).2 = Some rec ->
  exists v, rec !! i = Some v /\ deq v (mean_counted G T i).
Proof.
  intros Hi Hne Hrec.
  assert (Hconv : (FILTER1D_CONVOLVE <? filter_type G)%Z = false)
    by (rewrite Hty; reflexivity).
  set (used := present G i (rows_on_taps G T (window_rows left right))).
  assert (Hused : forall r, In r used -> r < n_rows G /\ tap_in_range G T r = true
                              /\ gmt_M_is_dnan (rd2 (data G) i r) = false).
  { intros r Hr. unfold used in Hr. rewrite present_bfilter in Hr.
    apply bfilter_In in Hr. destruct Hr as [Hr Hp].
    unfold rows_on_taps in Hr. apply bfilter_In in Hr. destruct Hr as [Hr Ht].
    unfold window_rows in Hr. apply in_seq in Hr.
    apply negb_true_iff in Hp. repeat split; [lia | exact Ht | exact Hp]. }
  unfold mean_counted. rewrite <- counted_rows. fold used.
  destruct (passing G iq left right k i) eqn:Hp.
  - destruct (emitted_value G iq left right k i Hconv Hi Hne Hp) as (rec' & Hr' & Hv).
    rewrite Hrec in Hr'. injection Hr' as <-.
    destruct (settle_columns_plain G iq left right k i Hrb Hconv Hi) as [Es _].
    rewrite Es in Hv. cbn [fst] in Hv.
    rewrite Hop in Hv. unfold pass_value in Hv. rewrite Hhp in Hv.
    eexists. split; [exact Hv |].
    unfold weighted_sum, weight_sum, mean_of, dsum. fold used.
    apply ddiv_deq.
    + unfold d0.
      rewrite (map_ext_in _ (fun r => dmul (tap_weight G T r) (rd2 (data G) i r))).
      2: { intros r _. unfold used_sample. rewrite Hrb. reflexivity. }
      apply (weighted_01_sum (steps_within G T)); [| | reflexivity].
      * intros r Hr. destruct (Hused r Hr) as (Hn & Ht & _).
        apply (tap_weight_boxcar G HB); assumption.
      * intros r Hr. destruct (Hused r Hr) as (Hn & _ & Hd).
        specialize (HS i r Hi Hn).
        destruct (rd2 (data G) i r); cbn in *; try discriminate; tauto.
    + unfold d0, dnat, dZ.
      apply (weighted_01_count (steps_within G T) _ used) with (b := 0%Q);
        [| ring | reflexivity].
      intros r Hr. destruct (Hused r Hr) as (Hn & Ht & _).
      apply (tap_weight_boxcar G HB); assumption.
  - destruct (filter_point_record G iq left right k) as [_ Hr].
    destruct (Hr rec Hrec) as (_ & _ & Hnan).
    exists DNaN. split; [apply Hnan; assumption |].
    (* no row of the window holds a sample on a tap: the mean is 0/0 *)
    assert (Eu : used = []).
    { unfold passing in Hp.
      destruct (settle_columns_plain G iq left right k i Hrb Hconv Hi) as [_ Ec].
      rewrite Ec in Hp.
      assert (Eg : good_one (init_column G left right i) = true).
      { cbn. apply Nat.eqb_neq in Hne. rewrite Hne, Hlk. reflexivity. }
      rewrite conv_gate_good in Hp by (rewrite convolve_col_good by exact Eg; reflexivity).
      rewrite Has, Hq in Hp. cbn [andb negb] in Hp. rewrite !andb_true_r in Hp.
      rewrite convolve_col_good in Hp by exact Eg. cbn zeta in Hp.
      cbn [n_this_col init_column Nat.add] in Hp. fold used in Hp.
      apply negb_false_iff, Nat.eqb_eq in Hp.
      destruct used; [reflexivity | discriminate]. }
    rewrite Eu. reflexivity.
Qed.

End BoxcarPoint.

Section Loop.
Context `{GmtLib}.

Lemma advance_right_le fuel F small Tk : forall right,
  right <= F.(n_rows) -> advance_right fuel F small Tk right <= F.(n_rows).
Proof.
  induction fuel as [| fuel IH]; intros right Hr; cbn [advance_right]; [exact Hr |].
  destruct (right <? n_rows F) eqn:E; cbn [andb]; [| exact Hr].
  apply Nat.ltb_lt in E. destruct (dle _ _); [apply IH; lia | exact Hr].
Qed.

Lemma reached_right_bound F0 small iq k0 last_k F left right k :
  F0.(variable) = false ->
  reached F0 small iq k0 last_k F left right k ->
  config F = config F0 /\ right <= F0.(n_rows).
Proof.
  intros Hvar R.
  induction R as [| F left right k F' left' right' rec R [IHc IHr] Hk E].
  - split; [reflexivity | lia].
  - unfold filter_step in E.
    rewrite (f_equal variable IHc : variable F = variable F0), Hvar in E.
    apply filter_window_config in E. destruct E as (C & _ & ->).
    split; [congruence |].
    rewrite <- (f_equal n_rows IHc : n_rows F = n_rows F0).
    apply advance_right_le.
    rewrite (f_equal n_rows IHc : n_rows F = n_rows F0). exact IHr.
Qed.

(** With a fixed width the loop ends, and every record it writes is the
    record of one of its output points. *)
Lemma filter_loop_records F0 small iq k0 last_k :
  F0.(variable) = false ->
  forall turns F left right k out,
    reached F0 small iq k0 last_k F left right k ->
    turns <= S last_k - k ->
    exists F' out',
      filter_loop turns F small iq left right k out = Finished F' out'
      /\ forall rec, In rec out' ->
           In rec out
           \/ exists Fa la ra ka Fb lb rb,
                reached F0 small iq k0 last_k Fa la ra ka
                /\ ka <= last_k
                /\ filter_step Fa small iq la ra ka = Next Fb lb rb (Some rec).
Proof.
  intros Hvar. induction turns as [| turns IH]; intros F left right k out R Hk.
  - exists F, out. split; [reflexivity |]. intros rec Hr. left. exact Hr.
  - cbn [filter_loop].
    destruct (reached_right_bound F0 small iq k0 last_k F left right k Hvar R) as [C _].
    destruct (filter_window_next F small iq left right k)
      as (F' & left' & right' & rec & W).
    assert (E : filter_step F small iq left right k = Next F' left' right' rec).
    { unfold filter_step.
      rewrite (f_equal variable C : variable F = variable F0), Hvar. exact W. }
    rewrite E.
    destruct (IH F' left' right' (S k)
                (out ++ match rec with Some r => [r] | None => [] end)
                (reached_next F0 small iq k0 last_k F left right k F' left' right' rec
                   R ltac:(lia) E) ltac:(lia)) as (F2 & out2 & E2 & Hin).
    exists F2, out2. split; [exact E2 |].
    intros r Hr. destruct (Hin r Hr) as [Hr' | Hr']; [| right; exact Hr'].
    apply in_app_or in Hr'. destruct Hr' as [Hr' | Hr']; [left; exact Hr' |].
    right. destruct rec as [r0 |]; [| destruct Hr'].
    destruct Hr' as [-> | []].
    exists F, left, right, k, F', left', right'.
    repeat split; [exact R | lia | exact E].
Qed.

Lemma find_last_k_le t t_stop : forall n, find_last_k t t_stop n <= n.
Proof.
  induction n as [| n IH]; cbn [find_last_k]; [lia |].
  destruct (dgt _ _); lia.
Qed.

End Loop.

Section BoxcarRun.
Context `{GmtLib}.

Lemma filter_window_some F small iq left right k F' left' right' rec :
  filter_window F small iq left right k = Next F' left' right' (Some rec) ->
  (filter_point F iq left' right' k).2 = Some rec.
Proof.
  unfold filter_window. intros E.
  destruct (_ || _); [discriminate |].
  destruct (filter_point _ _ _ _ _) as [F1 r] eqn:Ep.
  injection E as <- <- <- ->. rewrite Ep. reflexivity.
Qed.

Lemma rd_time_column F r : rd (time_column F) r = time_at F r.
Proof.
  unfold time_column, time_at, rd2. destruct (data F !! t_col F); reflexivity.
Qed.

Variable F0 : FILTER1D_INFO.
Variables W dtq : Q.
Variable tq : nat -> Q.
Hypothesis Hty : F0.(filter_type) = FILTER1D_BOXCAR.
Hypothesis Hng : no_gates F0.
Hypothesis Hw : F0.(filter_width) = DFin W.
Hypothesis Hdt : (filter1d_set_up_filter F0).(dt) = DFin dtq.
Hypothesis Hdq : (0 < dtq)%Q.
Hypothesis Hrows : 2 <= F0.(n_rows).
Hypothesis Htcol : F0.(t_col) < F0.(n_cols).
Hypothesis Htimes : times_finite F0 tq.
Hypothesis Hsorted : times_sorted F0 tq.
Hypothesis Hsamples : samples_only F0.

Local Abbreviation F := (filter1d_set_up_filter F0).
Local Abbreviation Tarr := (take F.(n_rows) (time_column F)).
Local Abbreviation Fs := (set_T_array Tarr F).

Lemma set_up_view :
  series_view F = series_view F0
  /\ F.(half_width) = DFin ((1 # 2) * W)
  /\ boxcar_taps F.
Proof.
  destruct (boxcar_set_up F0 W dtq Hty Hw Hdt ltac:(lra)) as [C V].
  split; [exact V |].
  unfold coefficients in C. injection C as E1 E2 E3 E4 E5 E6.
  split; [exact E2 |].
  unfold boxcar_taps. rewrite E1, E2, E3, E4, E5. split; reflexivity.
Qed.

(** What every state of the loop holds. *)
Lemma loop_state_facts G :
  config G = config Fs ->
  (G.(filter_type) = FILTER1D_BOXCAR
   /\ G.(robust) = false /\ G.(check_asym) = false /\ G.(check_lack) = false
   /\ G.(check_q) = false /\ G.(highpass) = false /\ G.(f_operator) = false)
  /\ boxcar_taps G /\ samples_only G
  /\ G.(n_rows) = F0.(n_rows) /\ G.(n_cols) = F0.(n_cols)
  /\ G.(t_col) = F0.(t_col)
  /\ (forall r, r < F0.(n_rows) -> time_at G r = DFin (tq r))
  /\ (forall k, k < F0.(n_rows) -> rd G.(T_array) k = DFin (tq k))
  /\ native_tolerance G = DFin (scan_tolerance tq)
  /\ (forall T i, mean_counted G T i = mean_counted F T i).
Proof.
  intros CG. destruct set_up_view as (SV & _ & HB).
  set (Fx := filter1d_set_up_filter F0) in *.
  destruct Hng as (N1 & N2 & N3 & N4 & N5 & N6 & N7 & N8).
  assert (Ed : data G = data F0)
    by (transitivity (data Fx); [exact (f_equal data CG) | exact (f_equal data SV)]).
  assert (Et : t_col G = t_col F0)
    by (transitivity (t_col Fx); [exact (f_equal t_col CG) | exact (f_equal t_col SV)]).
  assert (En : n_rows G = n_rows F0)
    by (transitivity (n_rows Fx); [exact (f_equal n_rows CG) | exact (f_equal n_rows SV)]).
  assert (Ec : n_cols G = n_cols F0)
    by (transitivity (n_cols Fx); [exact (f_equal n_cols CG) | exact (f_equal n_cols SV)]).
  assert (Etime : forall r, time_at G r = time_at F0 r).
  { intros r. unfold time_at. rewrite Ed, Et. reflexivity. }
  split.
  { repeat split;
      match goal with |- ?f G = _ =>
        transitivity (f Fx); [exact (f_equal f CG) |];
        transitivity (f F0); [exact (f_equal f SV) | assumption] end. }
  split.
  { destruct HB as [B1 B2]. unfold boxcar_taps.
    rewrite (f_equal n_f_wts CG : n_f_wts G = n_f_wts Fx),
      (f_equal f_wt CG : f_wt G = f_wt Fx),
      (f_equal half_n_f_wts CG : half_n_f_wts G = half_n_f_wts Fx),
      (f_equal dt CG : dt G = dt Fx),
      (f_equal half_width CG : half_width G = half_width Fx).
    split; assumption. }
  split. { intros i r Hi Hr. rewrite Ed. apply Hsamples; lia. }
  split; [exact En |]. split; [exact Ec |]. split; [exact Et |].
  split. { intros r Hr. rewrite Etime. apply Htimes, Hr. }
  split.
  { intros k Hk.
    replace (T_array G) with (take (n_rows Fx) (time_column Fx))
      by (symmetry; exact (f_equal T_array CG)).
    unfold rd. rewrite lookup_total_take_lt.
    2: { rewrite (f_equal n_rows SV : n_rows Fx = n_rows F0). exact Hk. }
    fold (rd (time_column Fx) k). rewrite rd_time_column.
    unfold time_at.
    rewrite (f_equal data SV : data Fx = data F0), (f_equal t_col SV : t_col Fx = t_col F0).
    apply Htimes, Hk. }
  split.
  { unfold native_tolerance. rewrite !Etime, (Htimes 0), (Htimes 1) by lia.
    reflexivity. }
  intros T i.
  unfold mean_counted, mean_of, present, counted, in_window, native_tolerance,
    steps_within, whole_steps, time_at.
  rewrite Ed, Et, En.
  rewrite (f_equal data SV : data Fx = data F0), (f_equal t_col SV : t_col Fx = t_col F0),
    (f_equal n_rows SV : n_rows Fx = n_rows F0).
  rewrite (f_equal half_n_f_wts CG : half_n_f_wts G = half_n_f_wts Fx),
    (f_equal dt CG : dt G = dt Fx),
    (f_equal half_width CG : half_width G = half_width Fx).
  reflexivity.
Qed.

Lemma boxcar_run_mean :
  exists F' records,
    filter1d_do_the_filter F = Finished F' records
    /\ forall rec, In rec records ->
         exists k, k < F0.(n_rows)
           /\ rec !! F0.(t_col) = Some (time_at F0 k)
           /\ forall i, i < F0.(n_cols) -> i <> F0.(t_col) ->
                exists v, rec !! i = Some v
                          /\ deq v (mean_counted F (time_at F0 k) i).
Proof.
  destruct set_up_view as (SV & Ehw0 & _).
  pose proof Hng as (N1 & N2 & N3 & N4 & N5 & N6 & N7 & N8).
  assert (Eoat : out_at_time F = false)
    by (rewrite <- N8; exact (f_equal out_at_time SV)).
  assert (Enr : n_rows F = n_rows F0) by exact (f_equal n_rows SV).
  unfold filter1d_do_the_filter, output_plan. rewrite Eoat.
  set (k0 := first_k _ _ _ _).
  set (last_k := find_last_k _ _ _).
  set (iq := u64 _).
  assert (Hlast : last_k < n_rows F0).
  { pose proof (find_last_k_le (time_column F) (t_stop F) (n_rows F - 1)) as L.
    fold last_k in L. lia. }
  destruct (loop_state_facts Fs eq_refl)
    as (_ & _ & _ & _ & _ & _ & Etime & ET & _ & _).
  (* the tolerance of the window *)
  set (sm := scan_tolerance tq).
  assert (Esm : window_tolerance Fs = DFin sm).
  { unfold window_tolerance. rewrite (ET 1), (ET 0) by lia. reflexivity. }
  rewrite Esm.
  assert (Hvar : variable Fs = false)
    by (rewrite <- N7; exact (f_equal variable SV)).
  destruct (filter_loop_records Fs (DFin sm) iq k0 last_k Hvar
              (S last_k - k0) Fs 0 0 k0 []
              (reached_first Fs (DFin sm) iq k0 last_k) ltac:(lia))
    as (F' & records & Erun & Hrec).
  exists F', records. split; [exact Erun |].
  intros rec Hin.
  destruct (Hrec rec Hin) as [[] | (Fa & la & ra & ka & Fb & lb & rb & R & Hka & Estep)].
  (* the state the record was written from *)
  assert (Tf : times_finite Fs tq).
  { intros r Hr. apply Etime.
    change (n_rows Fs) with (n_rows F) in Hr. lia. }
  assert (Ts : times_sorted Fs tq).
  { intros i j Hij Hj. apply Hsorted; [exact Hij |].
    change (n_rows Fs) with (n_rows F) in Hj. lia. }
  assert (Os : outputs_sorted Fs tq last_k).
  { split.
    - intros k Hk. apply ET. lia.
    - intros k Hk. apply Hsorted; lia. }
  assert (Ehw : half_width Fs = DFin ((1 # 2) * W)) by exact Ehw0.
  destruct (reached_fixed_width Fs sm iq k0 last_k tq tq ((1 # 2) * W)%Q
              Fa la ra ka Hvar Tf Ts Ehw Os R) as [Ca Pa].
  specialize (Pa Hka).
  destruct (reached_right_bound Fs (DFin sm) iq k0 last_k Fa la ra ka Hvar R)
    as [_ Hra].
  change (n_rows Fs) with (n_rows F) in Hra, Pa.
  destruct (loop_state_facts Fa Ca)
    as ((G1 & G2 & G3 & G4 & G5 & G6 & G7) & HB & SO & En & Ec & Etc & Eta
        & ETa & Etol & Emean).
  unfold filter_step in Estep.
  rewrite (f_equal variable Ca : variable Fa = variable Fs), Hvar in Estep.
  pose proof (filter_window_config Fa (DFin sm) iq la ra ka Fb lb rb _ Estep)
    as (_ & El & Er).
  apply filter_window_some in Estep.
  assert (Hk : ka < n_rows F0) by lia.
  rewrite (ETa ka Hk) in El, Er.
  (* the window of the point *)
  assert (Tfa : times_finite Fa tq)
    by (intros r Hr; apply Eta; lia).
  assert (Tsa : times_sorted Fa tq)
    by (intros i j Hij Hj; apply Hsorted; [exact Hij | lia]).
  assert (Ehwa : half_width Fa = DFin ((1 # 2) * W))
    by (rewrite <- Ehw; exact (f_equal half_width Ca)).
  rewrite Enr, <- En in Pa.
  pose proof (window_exact Fa tq ((1 # 2) * W)%Q sm (tq ka) Tfa Tsa Ehwa
                la ra Pa) as Wx.
  cbn zeta in Wx. rewrite <- El, <- Er in Wx. destruct Wx as [_ Wx].
  exists ka. split; [exact Hk |].
  destruct (filter_point_record Fa iq lb rb ka) as [_ Hfp].
  destruct (Hfp rec Estep) as (_ & Htime & _).
  split.
  { rewrite <- Etc, Htime by lia. rewrite (ETa ka Hk), (Htimes ka Hk). reflexivity. }
  intros i Hi Hne.
  destruct (boxcar_point_mean Fa G1 G2 G3 G4 G5 G6 G7 HB SO iq lb rb ka
              ltac:(rewrite Er; apply advance_right_le; lia)
              ltac:(intros x Hx; rewrite Etol, (ETa ka Hk); apply Wx; exact Hx)
              i rec ltac:(lia) ltac:(congruence) Estep) as (v & Hv & Hd).
  exists v. split; [exact Hv |].
  rewrite (Htimes ka Hk). rewrite <- Emean, <- (ETa ka Hk). exact Hd.
Qed.

End BoxcarRun.


Lemma scenario_times : times_finite scenario_loaded tq_nat.
Proof. intros i Hi. do 5 (destruct i as [|i]; [reflexivity|]). cbn in Hi. lia. Qed.

Lemma even_times : times_finite even_loaded tq_nat.
Proof. intros i Hi. do 5 (destruct i as [|i]; [reflexivity|]). cbn in Hi. lia. Qed.



(** C4 (the code misses the claim): with every sample of the window
    present at times 0, 1, 2, 10, 11 and lack_width 5, the lack check of
    the column reports no lack, and the run writes a record at every input
    time: the gap of 8 between 2 and 10 goes unnoticed. *)
Theorem lack_check_misses_gap :
  filter1d_lack_check lack_prepared 1 0 5 = false
  /\ exists records,
       records_of (Some (@filter1d_do_the_filter TestLib lack_prepared))
       = Some records
       /\ map (fun r => rd r 0) records = map dZ [0; 1; 2; 10; 11]%Z
       /\ Forall (fun r => deq (rd r 1) (DFin 3)) records.
Proof.
  split; [reflexivity |].
  eexists. split; [vm_compute; reflexivity |].
  split; [reflexivity |]. repeat constructor.
Qed.

(** C6 (the code misses the claim): with output times 1 and 3 made by -T,
    the lowpass value at time 1 is 70/3 and the input sample at time 1 is
    20, but the highpass value written is 10 - 70/3: the sample subtracted
    from is row 0, the row with the index of the output time, whose time
    is 0. *)
Theorem highpass_resampled_uses_output_index :
  records_of (@filter_segment TestLib highpass_series 5 no_widths
                (filter1d_init (highpass_ctrl false) [] 2))
  = Some [[DFin 1; DFin (70 # 3)]; [DFin 3; DFin (280 # 3)]]
  /\ records_of (@filter_segment TestLib highpass_series 5 no_widths
                   (filter1d_init (highpass_ctrl true) [] 2))
     = Some [[DFin 1; DFin (-40 # 3)]; [DFin 3; DFin (-220 # 3)]]
  /\ rd2 highpass_series 0 1 = DFin 1
  /\ rd2 highpass_series 1 1 = DFin 20
  /\ rd2 highpass_series 1 0 = DFin 10.
Proof.
  split; [vm_compute; reflexivity |].
  split; [vm_compute; reflexivity |].
  repeat split.
Qed.

(** C10 (the code misses the claim): a row whose time is NaN is not
    stored, but it is counted: after rows (0,1), (NaN,2), (1,3) the
    structure holds three rows, and the second is the untouched cell of
    the buffer, (0,0). *)
Theorem nan_time_row_is_counted :
  exists F,
    load_segment nan_time_series 3 (filter1d_init scenario_ctrl [] 2) = Some F
    /\ F.(n_rows) = 3
    /\ map (take 3) F.(data)
       = [[DFin 0; DFin 0; DFin 1]; [DFin 1; DFin 0; DFin 3]].
Proof.
  eexists. split; [vm_compute; reflexivity |]. split; reflexivity.
Qed.

Lemma robust_location_scale_and_clipping_witness :
  estimates_at (@settle_columns TestLib robust_start.1.1 0 0 3 1).1 1
  = (DFin 2, DFin 2, DFin 1, DFin 1).
Proof.
  refine (proj1 (@robust_location_scale_and_clipping TestLib robust_start.1.1
                   0 0 3 1 1 eq_refl eq_refl _ _ _)).
  - repeat split.
  - vm_compute. lia.
  - vm_compute. reflexivity.
Defined.

(** ** The lack-of-data check on whole columns *)

Lemma skip_present_run F col bound : forall fuel row,
  row + fuel = bound ->
  (forall r, row <= r < bound -> gmt_M_is_dnan (rd2 F.(data) col r) = false) ->
  skip_present fuel F col row bound = bound.
Proof.
  induction fuel as [|fuel IH]; intros row Hf Hp; cbn [skip_present].
  - lia.
  - rewrite (Hp row) by lia. cbn [negb andb].
    destruct (Nat.ltb_spec row bound); [|lia].
    apply IH; [lia|]. intros r Hr. apply Hp. lia.
Qed.

Lemma skip_present_stops F col bound fuel row :
  gmt_M_is_dnan (rd2 F.(data) col row) = true ->
  skip_present fuel F col row bound = row.
Proof.
  intros Hn. destruct fuel; cbn [skip_present]; [reflexivity|].
  rewrite Hn. reflexivity.
Qed.

Lemma lack_loop_missing F col left right :
  (forall r, left <= r < right - 1 -> gmt_M_is_dnan (rd2 F.(data) col r) = true) ->
  (forall r, left <= r -> S r < right ->
     dgt (dsub (time_at F (S r)) (time_at F r)) F.(lack_width) = false) ->
  forall fuel this_row,
    left < this_row ->
    lack_loop fuel F col right (time_at F (this_row - 1)) this_row = false.
Proof.
  intros Hm Hs. induction fuel as [|fuel IH]; intros this_row Hl;
    cbn [lack_loop]; [reflexivity|].
  destruct (Nat.ltb_spec this_row (right - 1)); [|reflexivity].
  rewrite skip_present_stops by (apply Hm; lia).
  replace this_row with (S (this_row - 1)) at 1 by lia.
  rewrite Hs by lia.
  specialize (IH (S this_row) ltac:(lia)).
  replace (S this_row - 1) with this_row in IH by lia. exact IH.
Qed.

(** X1.  On a window that is not empty, a column that holds a sample in
    every row but possibly the last is never found lacking, however far
    apart in time its samples are: the scan for the next row stops only at
    a NaN or at the last row of the window. *)
Theorem lack_check_blind_to_time_gaps F i_col left right :
  left < right ->
  (forall r, left <= r < right - 1 ->
     gmt_M_is_dnan (rd2 F.(data) i_col r) = false) ->
  filter1d_lack_check F i_col left right = false.
Proof.
  intros Hw Hp. unfold filter1d_lack_check.
  rewrite (skip_present_run F i_col (right - 1)) by (try lia; exact Hp).
  replace (right - (right - 1 + 1)) with 0 by lia. reflexivity.
Qed.

Lemma lack_check_blind_to_time_gaps_witness :
  (forall r, 0 <= r < 5 - 1 ->
     gmt_M_is_dnan (rd2 lack_prepared.(data) 1 r) = false)
  /\ filter1d_lack_check lack_prepared 1 0 5 = false.
Proof.
  assert (Hp : forall r, 0 <= r < 5 - 1 ->
                 gmt_M_is_dnan (rd2 lack_prepared.(data) 1 r) = false).
  { intros r Hr. do 4 (destruct r as [|r]; [reflexivity|]). lia. }
  split; [exact Hp|].
  exact (lack_check_blind_to_time_gaps lack_prepared 1 0 5 ltac:(lia) Hp).
Defined.

(** X2.  On a window that is not empty, a column whose every sample is
    missing is not found lacking either, as long as no two successive rows
    of the window are more than [lack_width] apart in time. *)
Theorem lack_check_passes_missing_column F i_col left right :
  left < right ->
  (forall r, left <= r < right - 1 ->
     gmt_M_is_dnan (rd2 F.(data) i_col r) = true) ->
  (forall r, left <= r -> S r < right ->
     dgt (dsub (time_at F (S r)) (time_at F r)) F.(lack_width) = false) ->
  filter1d_lack_check F i_col left right = false.
Proof.
  intros Hw Hm Hs. unfold filter1d_lack_check.
  destruct (Nat.le_gt_cases (right - 1) left) as [Hge|Hlt].
  - replace (right - 1 - left) with 0 by lia. cbn [skip_present].
    replace (right - (left + 1)) with 0 by lia. reflexivity.
  - rewrite skip_present_stops by (apply Hm; lia).
    pose proof (lack_loop_missing F i_col left right Hm Hs
                  (right - (left + 1)) (left + 1) ltac:(lia)) as HL.
    replace (left + 1 - 1) with left in HL by lia. exact HL.
Qed.

Lemma lack_check_passes_missing_column_witness :
  (forall r, 0 <= r < 5 - 1 ->
     gmt_M_is_dnan (rd2 missing_prepared.(data) 1 r) = true)
  /\ (forall r, 0 <= r -> S r < 5 ->
        dgt (dsub (time_at missing_prepared (S r)) (time_at missing_prepared r))
            missing_prepared.(lack_width) = false)
  /\ filter1d_lack_check missing_prepared 1 0 5 = false.
Proof.
  assert (Hm : forall r, 0 <= r < 5 - 1 ->
                 gmt_M_is_dnan (rd2 missing_prepared.(data) 1 r) = true).
  { intros r Hr. do 4 (destruct r as [|r]; [reflexivity|]). lia. }
  assert (Hs : forall r, 0 <= r -> S r < 5 ->
            dgt (dsub (time_at missing_prepared (S r))
                      (time_at missing_prepared r))
                missing_prepared.(lack_width) = false).
  { intros r _ Hr. do 4 (destruct r as [|r]; [vm_compute; reflexivity|]). lia. }
  split; [exact Hm|]. split; [exact Hs|].
  exact (lack_check_passes_missing_column missing_prepared 1 0 5 ltac:(lia)
           Hm Hs).
Defined.

(** ** Loading a segment *)

Lemma rd_imap (f : nat -> double -> double) l i :
  i < length l -> rd (imap f l) i = f i (rd l i).
Proof.
  intros Hi. unfold rd. apply list_lookup_total_correct.
  rewrite list_lookup_imap.
  destruct (lookup_lt_is_Some_2 l i Hi) as [x Hx]. rewrite Hx. cbn.
  f_equal. f_equal. symmetry. apply list_lookup_total_correct. exact Hx.
Qed.

Lemma rd_map (f : double -> double) l i :
  i < length l -> rd (map f l) i = f (rd l i).
Proof.
  intros Hi. unfold rd. apply list_lookup_total_correct.
  rewrite list_lookup_fmap.
  destruct (lookup_lt_is_Some_2 l i Hi) as [x Hx]. rewrite Hx. cbn.
  f_equal. f_equal. symmetry. apply list_lookup_total_correct. exact Hx.
Qed.

Lemma store_row_frame Sd row F :
  let F' := store_row Sd row F in
  F'.(t_col) = F.(t_col) /\ F'.(n_rows) = F.(n_rows)
  /\ F'.(robust) = F.(robust) /\ F'.(filter_type) = F.(filter_type)
  /\ length F'.(min_loc) = length F.(min_loc)
  /\ length F'.(max_loc) = length F.(max_loc)
  /\ F'.(data) = imap (fun (col : nat) (c : list double) =>
                         <[F.(n_rows) := rd2 Sd col row]> c) F.(data).
Proof.
  unfold store_row.
  destruct (robust F || (filter_type F =? FILTER1D_MEDIAN)%Z); cbn;
    rewrite ?length_imap; repeat split; reflexivity.
Qed.

Lemma store_row_data Sd row F col r :
  rows_allocated F (S F.(n_rows)) ->
  col < length F.(data) ->
  rd2 (store_row Sd row F).(data) col r
  = if r =? F.(n_rows) then rd2 Sd col row else rd2 F.(data) col r.
Proof.
  intros Ha Hc.
  destruct (store_row_frame Sd row F) as (_ & _ & _ & _ & _ & _ & ->).
  unfold rd2 at 1. rewrite list_lookup_imap.
  destruct (lookup_lt_is_Some_2 _ _ Hc) as [c Hcol].
  rewrite Hcol. cbn. pose proof (Ha _ _ Hcol) as Hlen. unfold rd.
  destruct (Nat.eqb_spec r F.(n_rows)) as [->|Hne].
  - apply list_lookup_total_insert_eq. lia.
  - rewrite list_lookup_total_insert_ne by congruence.
    unfold rd2. rewrite Hcol. reflexivity.
Qed.

Lemma store_row_allocated Sd row F n :
  rows_allocated F n -> rows_allocated (store_row Sd row F) n.
Proof.
  intros Ha col c.
  destruct (store_row_frame Sd row F) as (_ & _ & _ & _ & _ & _ & ->).
  rewrite list_lookup_imap.
  destruct (F.(data) !! col) as [c0|] eqn:E; cbn; [|discriminate].
  intros [= <-]. rewrite length_insert. eapply Ha; eassumption.
Qed.

Lemma store_row_columns Sd row F :
  length (store_row Sd row F).(data) = length F.(data).
Proof.
  destruct (store_row_frame Sd row F) as (_ & _ & _ & _ & _ & _ & ->).
  apply length_imap.
Qed.

(** The row loop on rows with finite times in non-decreasing order. *)
Lemma load_rows_sorted Sd tc (tq : nat -> Q) : forall todo F last row,
  F.(t_col) = tc ->
  F.(n_rows) = row ->
  rows_allocated F (row + todo) ->
  (forall r, row <= r < row + todo -> rd2 Sd tc r = DFin (tq r)) ->
  (forall r, row <= r -> S r < row + todo -> (tq r <= tq (S r))%Q) ->
  (0 < todo -> dlt (DFin (tq row)) last = false) ->
  exists F',
    load_rows todo Sd F last row = Some F'
    /\ F'.(n_rows) = row + todo
    /\ length F'.(data) = length F.(data)
    /\ (forall m, rows_allocated F m -> rows_allocated F' m)
    /\ F'.(n_row_alloc) = F.(n_row_alloc)
    /\ forall col r, col < length F.(data) ->
         rd2 F'.(data) col r
         = if (row <=? r) && (r <? row + todo) then rd2 Sd col r
           else rd2 F.(data) col r.
Proof.
  induction todo as [|todo IH]; intros F last row Htc Hn Ha Ht Hs Hl;
    cbn [load_rows].
  - exists F. repeat split; [lia|tauto|]. intros col r _.
    destruct (Nat.leb_spec row r), (Nat.ltb_spec r (row + 0)); cbn; try lia;
      reflexivity.
  - rewrite Htc, (Ht row) by lia. cbn [gmt_M_is_dnan].
    rewrite (Hl ltac:(lia)).
    destruct (store_row_frame Sd row F) as (Et & En & _).
    cbn zeta in Et, En.
    destruct (IH (set_n_rows (S (store_row Sd row F).(n_rows))
                    (store_row Sd row F)) (DFin (tq row)) (S row))
      as (F' & EF & EN & EL & EA & ER & ED).
    + cbn. congruence.
    + cbn. congruence.
    + intros col c Hc. cbn in Hc.
      replace (S row + todo) with (row + S todo) by lia.
      eapply (store_row_allocated Sd row F); eassumption.
    + intros r Hr. apply Ht. lia.
    + intros r Hr1 Hr2. apply Hs; lia.
    + intros Htodo. apply (proj2 (Qltb_ge (tq (S row)) (tq row))).
      apply Hs; lia.
    + exists F'. split; [exact EF|]. split; [lia|].
      cbn in EL. rewrite store_row_columns in EL. split; [exact EL|].
      split.
      { intros m Hm. apply EA. intros col c Hc. cbn in Hc.
        eapply (store_row_allocated Sd row F); eassumption. }
      split.
      { rewrite ER. cbn. unfold store_row.
        destruct (robust F || (filter_type F =? FILTER1D_MEDIAN)%Z);
          reflexivity. }
      intros col r Hc. rewrite ED by (cbn; rewrite store_row_columns; exact Hc).
      cbn [data set_n_rows].
      rewrite store_row_data;
        [|intros c0 c1 Hc1; rewrite Hn;
          pose proof (Ha _ _ Hc1); lia|exact Hc].
      rewrite Hn.
      destruct (Nat.eqb_spec r row) as [->|Hne].
      * destruct (Nat.leb_spec (S row) row), (Nat.leb_spec row row),
          (Nat.ltb_spec row (row + S todo)); cbn; try lia; reflexivity.
      * destruct (Nat.leb_spec (S row) r), (Nat.leb_spec row r),
          (Nat.ltb_spec r (S row + todo)), (Nat.ltb_spec r (row + S todo));
          cbn; try lia; reflexivity.
Qed.

Lemma init_scales_frame F :
  (init_scales F).(data) = F.(data)
  /\ (init_scales F).(n_rows) = F.(n_rows)
  /\ (init_scales F).(n_row_alloc) = F.(n_row_alloc)
  /\ (init_scales F).(min_loc) = F.(min_loc)
  /\ (init_scales F).(max_loc) = F.(max_loc).
Proof.
  unfold init_scales.
  destruct (robust F || (filter_type F =? FILTER1D_MEDIAN)%Z);
    repeat split; reflexivity.
Qed.

Lemma load_segment_rows Sd n F :
  load_segment Sd n F
  = match load_rows n Sd (before_rows n F) (dopp DBL_MAX) 0 with
    | None => None
    | Some F3 => Some (init_scales F3)
    end.
Proof. reflexivity. Qed.

Lemma before_rows_frame n F :
  let G := before_rows n F in
  G.(t_col) = F.(t_col) /\ G.(n_rows) = 0
  /\ G.(robust) = F.(robust) /\ G.(filter_type) = F.(filter_type)
  /\ length G.(data) = length F.(data)
  /\ G.(last_loc) = F.(last_loc) /\ G.(min_scl) = F.(min_scl)
  /\ G.(max_scl) = F.(max_scl) /\ G.(last_scl) = F.(last_scl)
  /\ (tracks_range F = true ->
      G.(min_loc) = map (fun _ => DBL_MAX) F.(min_loc)
      /\ G.(max_loc) = map (fun _ => dopp DBL_MAX) F.(max_loc)).
Proof.
  unfold before_rows, tracks_range.
  destruct (n_row_alloc F <? n); cbn [robust filter_type
    filter1d_allocate_data_space set_data set_n_row_alloc];
    destruct (robust F || (filter_type F =? FILTER1D_MEDIAN)%Z); cbn;
    rewrite ?length_map; repeat split; try reflexivity; discriminate.
Qed.

Lemma before_rows_allocated n F :
  rows_allocated F F.(n_row_alloc) ->
  let G := before_rows n F in
  rows_allocated G n /\ rows_allocated G G.(n_row_alloc).
Proof.
  intros Ha. unfold before_rows.
  destruct (Nat.ltb_spec (n_row_alloc F) n) as [Hlt|Hge].
  - assert (Hnew : forall m, m <= Nat.max GMT_CHUNK n ->
              rows_allocated
                (filter1d_allocate_data_space
                   (set_n_row_alloc (Nat.max GMT_CHUNK n) F)) m).
    { intros m Hm col c. cbn. rewrite list_lookup_fmap.
      destruct (F.(data) !! col) as [c0|]; cbn; [|discriminate].
      intros [= <-]. rewrite length_app, length_replicate. lia. }
    destruct (robust _ || _); cbn; split; intros col c Hc; cbn in Hc;
      eapply Hnew; try eassumption; lia.
  - destruct (robust F || _); cbn; split; intros col c Hc; cbn in Hc;
      pose proof (Ha _ _ Hc); lia.
Qed.

(** X3.  A segment whose times are finite and never decrease is loaded
    whole: the row count is that of the segment, and every cell of every
    column is the cell of the segment. *)
Theorem load_segment_keeps_every_row Sd n F (tq : nat -> Q) :
  rows_allocated F F.(n_row_alloc) ->
  (forall r, r < n -> rd2 Sd F.(t_col) r = DFin (tq r)) ->
  (forall r, S r < n -> (tq r <= tq (S r))%Q) ->
  (0 < n -> (- DBL_MAX_Q <= tq 0%nat)%Q) ->
  exists F',
    load_segment Sd n F = Some F'
    /\ F'.(n_rows) = n
    /\ length F'.(data) = length F.(data)
    /\ rows_allocated F' F'.(n_row_alloc)
    /\ forall col row, col < length F.(data) -> row < n ->
         rd2 F'.(data) col row = rd2 Sd col row.
Proof.
  intros Ha Ht Hs Hb. rewrite load_segment_rows.
  destruct (before_rows_frame n F) as (Et & En & _ & _ & El & _).
  cbn zeta in Et, En, El.
  destruct (before_rows_allocated n F Ha) as [Hn Hal]. cbn zeta in Hn, Hal.
  destruct (load_rows_sorted Sd F.(t_col) tq n (before_rows n F)
              (dopp DBL_MAX) 0)
    as (F3 & E3 & N3 & L3 & A3 & R3 & D3); try assumption.
  - intros r Hr. apply Ht. lia.
  - intros r _ Hr. apply Hs. exact Hr.
  - intros Hpos. apply (proj2 (Qltb_ge (tq 0) (- DBL_MAX_Q))). auto.
  - rewrite E3. exists (init_scales F3).
    destruct (init_scales_frame F3) as (-> & -> & -> & _).
    split; [reflexivity|]. split; [exact N3|]. split; [congruence|].
    split.
    { rewrite R3. intros col c Hc. apply (A3 _ Hal col c).
      destruct (init_scales_frame F3) as (Ed & _). rewrite Ed in Hc.
      exact Hc. }
    intros col row Hc Hr. rewrite D3 by congruence.
    destruct (Nat.ltb_spec row (0 + n)); [reflexivity|lia].
Qed.

Lemma load_segment_keeps_every_row_witness :
  exists F',
    @load_segment scenario_series 5 (filter1d_init scenario_ctrl [] 2) = Some F'
    /\ F'.(n_rows) = 5
    /\ length F'.(data) = length (filter1d_init scenario_ctrl [] 2).(data)
    /\ rows_allocated F' F'.(n_row_alloc)
    /\ forall col row,
         col < length (filter1d_init scenario_ctrl [] 2).(data) -> row < 5 ->
         rd2 F'.(data) col row = rd2 scenario_series col row.
Proof.
  apply (load_segment_keeps_every_row scenario_series 5
           (filter1d_init scenario_ctrl [] 2) tq_nat).
  - intros col c Hc. cbn. lia.
  - intros r Hr. do 5 (destruct r as [|r]; [reflexivity|]). lia.
  - intros r Hr. unfold tq_nat. rewrite <- Zle_Qle. lia.
  - intros _. apply Qle_bool_iff. vm_compute. reflexivity.
Defined.

Lemma load_rows_decreasing Sd tc r (a b : Q) :
  rd2 Sd tc r = DFin a -> rd2 Sd tc (S r) = DFin b -> (b < a)%Q ->
  forall todo F last row,
    F.(t_col) = tc -> row <= r -> S r < row + todo ->
    load_rows todo Sd F last row = None.
Proof.
  intros Ha Hb Hlt. induction todo as [|todo IH]; intros F last row Htc Hr Hn;
    [lia|]. cbn [load_rows]. rewrite Htc.
  destruct (Nat.eq_dec row r) as [->|Hne].
  - rewrite Ha. cbn [gmt_M_is_dnan].
    destruct (dlt (DFin a) last); [reflexivity|].
    destruct todo as [|todo]; [lia|]. cbn [load_rows].
    assert (Et : t_col (set_n_rows (S (n_rows (store_row Sd r F)))
                          (store_row Sd r F)) = tc).
    { cbn. destruct (store_row_frame Sd r F) as (-> & _). exact Htc. }
    rewrite Et, Hb. cbn [gmt_M_is_dnan].
    rewrite (proj2 (dlt_fin b a) Hlt). reflexivity.
  - destruct (gmt_M_is_dnan (rd2 Sd tc row)).
    + apply IH; [exact Htc|lia|lia].
    + destruct (dlt (rd2 Sd tc row) last); [reflexivity|].
      apply IH; [|lia|lia].
      cbn. destruct (store_row_frame Sd row F) as (-> & _). exact Htc.
Qed.

(** X4.  A segment in which a time is followed by a smaller one is
    refused: loading ends with the read error, whatever the other rows
    hold. *)
Theorem load_segment_rejects_decreasing_time Sd n F r (a b : Q) :
  S r < n ->
  rd2 Sd F.(t_col) r = DFin a ->
  rd2 Sd F.(t_col) (S r) = DFin b ->
  (b < a)%Q ->
  load_segment Sd n F = None.
Proof.
  intros Hr Ha Hb Hlt. rewrite load_segment_rows.
  destruct (before_rows_frame n F) as (Et & _). cbn zeta in Et.
  rewrite (load_rows_decreasing Sd F.(t_col) r a b Ha Hb Hlt n
             (before_rows n F) (dopp DBL_MAX) 0 Et); [reflexivity|lia|lia].
Qed.

Lemma load_segment_rejects_decreasing_time_witness :
  @load_segment unsorted_series 3 (filter1d_init scenario_ctrl [] 2) = None.
Proof.
  apply (load_segment_rejects_decreasing_time unsorted_series 3
           (filter1d_init scenario_ctrl [] 2) 1 2 1).
  - lia.
  - reflexivity.
  - reflexivity.
  - reflexivity.
Defined.

(** ** The range of a column found while loading *)

Lemma store_row_bounds Sd row F col :
  tracks_range F = true ->
  col < length F.(min_loc) -> col < length F.(max_loc) ->
  rd (store_row Sd row F).(min_loc) col
  = (if dlt (rd2 Sd col row) (rd F.(min_loc) col) then rd2 Sd col row
     else rd F.(min_loc) col)
  /\ rd (store_row Sd row F).(max_loc) col
     = (if dgt (rd2 Sd col row) (rd F.(max_loc) col) then rd2 Sd col row
        else rd F.(max_loc) col).
Proof.
  intros Ht Hlo Hhi. unfold store_row. unfold tracks_range in Ht. rewrite Ht.
  cbn [min_loc max_loc set_min_loc set_max_loc set_data].
  split; apply rd_imap; assumption.
Qed.

Lemma store_row_guesses Sd row F :
  let F' := store_row Sd row F in
  F'.(last_loc) = F.(last_loc) /\ F'.(min_scl) = F.(min_scl)
  /\ F'.(max_scl) = F.(max_scl) /\ F'.(last_scl) = F.(last_scl).
Proof.
  unfold store_row.
  destruct (robust F || (filter_type F =? FILTER1D_MEDIAN)%Z);
    repeat split; reflexivity.
Qed.

Lemma load_rows_frame Sd : forall todo F last row F',
  load_rows todo Sd F last row = Some F' ->
  F'.(t_col) = F.(t_col) /\ tracks_range F' = tracks_range F
  /\ F'.(last_loc) = F.(last_loc) /\ F'.(min_scl) = F.(min_scl)
  /\ F'.(max_scl) = F.(max_scl) /\ F'.(last_scl) = F.(last_scl).
Proof.
  induction todo as [|todo IH]; intros F last row F'; cbn [load_rows].
  - intros [= <-]. repeat split; reflexivity.
  - destruct (gmt_M_is_dnan (rd2 Sd (t_col F) row)).
    + intros E. destruct (IH _ _ _ _ E) as (-> & -> & -> & -> & -> & ->).
      repeat split; reflexivity.
    + destruct (dlt (rd2 Sd (t_col F) row) last); [discriminate|].
      intros E. destruct (IH _ _ _ _ E) as (-> & -> & -> & -> & -> & ->).
      destruct (store_row_frame Sd row F) as (Et & _ & Er & Ef & _).
      destruct (store_row_guesses Sd row F) as (El & Ea & Eb & Ec).
      cbn zeta in *. unfold tracks_range. cbn.
      rewrite Et, Er, Ef, El, Ea, Eb, Ec. repeat split; reflexivity.
Qed.

(** The bounds of a column after the row loop: they enclose the samples of
    the rows that were loaded, and each is the bound the loop started from
    or one of those samples. *)
Lemma load_rows_range Sd col : forall todo F last row F' (lo0 hi0 : Q),
  load_rows todo Sd F last row = Some F' ->
  tracks_range F = true ->
  col < length F.(min_loc) -> col < length F.(max_loc) ->
  rd F.(min_loc) col = DFin lo0 -> rd F.(max_loc) col = DFin hi0 ->
  (forall r, row <= r < row + todo -> is_sample (rd2 Sd col r)) ->
  exists lo hi : Q,
    rd F'.(min_loc) col = DFin lo /\ rd F'.(max_loc) col = DFin hi
    /\ (lo <= lo0)%Q /\ (hi0 <= hi)%Q
    /\ (forall r v, row <= r < row + todo -> row_kept Sd F r ->
          rd2 Sd col r = DFin v -> (lo <= v <= hi)%Q)
    /\ (lo = lo0 \/ exists r, row <= r < row + todo /\ row_kept Sd F r
                              /\ rd2 Sd col r = DFin lo)
    /\ (hi = hi0 \/ exists r, row <= r < row + todo /\ row_kept Sd F r
                              /\ rd2 Sd col r = DFin hi).
Proof.
  induction todo as [|todo IH]; intros F last row F' lo0 hi0; cbn [load_rows].
  - intros [= <-] _ _ _ Hlo Hhi _. exists lo0, hi0.
    repeat split; try assumption; try apply Qle_refl; try (left; reflexivity);
      lia.
  - intros E Ht Hl Hh Hlo Hhi Hs.
    destruct (gmt_M_is_dnan (rd2 Sd (t_col F) row)) eqn:En.
    + destruct (IH _ _ _ _ lo0 hi0 E) as (lo & hi & A & B & C & D & I & J & K);
        try assumption.
      { intros r Hr. apply Hs. lia. }
      exists lo, hi. repeat split; try assumption.
      * destruct (Nat.eq_dec r row) as [->|Hne].
        -- unfold row_kept in H0. congruence.
        -- apply (I r v); [lia|exact H0|exact H1].
      * destruct (Nat.eq_dec r row) as [->|Hne].
        -- unfold row_kept in H0. congruence.
        -- apply (I r v); [lia|exact H0|exact H1].
      * destruct J as [J|(r & Hr & Hk & Hv)]; [left; exact J|].
        right. exists r. split; [lia|]. split; assumption.
      * destruct K as [K|(r & Hr & Hk & Hv)]; [left; exact K|].
        right. exists r. split; [lia|]. split; assumption.
    + destruct (dlt (rd2 Sd (t_col F) row) last); [discriminate|].
      destruct (store_row_bounds Sd row F col Ht Hl Hh) as [Em EM].
      destruct (store_row_frame Sd row F) as (Et & _ & Er & Ef & Ll & Lh & _).
      cbn zeta in Et, Er, Ef, Ll, Lh.
      rewrite Hlo in Em. rewrite Hhi in EM.
      assert (Hstep : exists lo1 hi1 : Q,
                rd (store_row Sd row F).(min_loc) col = DFin lo1
                /\ rd (store_row Sd row F).(max_loc) col = DFin hi1
                /\ (lo1 <= lo0)%Q /\ (hi0 <= hi1)%Q
                /\ (forall v, rd2 Sd col row = DFin v -> (lo1 <= v <= hi1)%Q)
                /\ (lo1 = lo0 \/ rd2 Sd col row = DFin lo1)
                /\ (hi1 = hi0 \/ rd2 Sd col row = DFin hi1)).
      { pose proof (Hs row ltac:(lia)) as Hsample.
        destruct (rd2 Sd col row) as [| |v] eqn:Ev; [|destruct Hsample|].
        - exists lo0, hi0. rewrite Em, EM.
          repeat split; try reflexivity; try apply Qle_refl;
            try (left; reflexivity); discriminate.
        - destruct (dlt (DFin v) (DFin lo0)) eqn:E1;
            destruct (dgt (DFin v) (DFin hi0)) eqn:E2;
            [ apply dlt_fin in E1; apply dgt_fin in E2; exists v, v
            | apply dlt_fin in E1; apply dgt_fin_false in E2; exists v, hi0
            | apply (proj1 (Qltb_ge _ _)) in E1; apply dgt_fin in E2;
              exists lo0, v
            | apply (proj1 (Qltb_ge _ _)) in E1; apply dgt_fin_false in E2;
              exists lo0, hi0 ];
            (split; [exact Em|]); (split; [exact EM|]);
            (split; [lra|]); (split; [lra|]);
            (split; [intros v' [= <-]; lra|]);
            split; first [left; reflexivity | right; reflexivity]. }
      destruct Hstep as (lo1 & hi1 & Am & AM & Bl & Bh & Cv & Dl & Dh).
      destruct (IH _ _ _ _ lo1 hi1 E) as (lo & hi & A & B & C & D & I & J & K).
      { unfold tracks_range. cbn. rewrite Er, Ef. exact Ht. }
      { cbn. lia. }
      { cbn. lia. }
      { exact Am. }
      { exact AM. }
      { intros r Hr. apply Hs. lia. }
      assert (Hkept : forall r,
                row_kept Sd (set_n_rows (S (n_rows (store_row Sd row F)))
                               (store_row Sd row F)) r <-> row_kept Sd F r).
      { intros r. unfold row_kept. cbn. rewrite Et. tauto. }
      exists lo, hi. split; [exact A|]. split; [exact B|].
      split; [lra|]. split; [lra|]. split; [|split].
      * intros r v Hr Hk Hv. destruct (Nat.eq_dec r row) as [->|Hne].
        -- pose proof (Cv v Hv). lra.
        -- apply (I r v); [lia|apply Hkept; exact Hk|exact Hv].
      * destruct J as [->|(r & Hr & Hk & Hv)].
        -- destruct Dl as [->|Dl]; [left; reflexivity|].
           right. exists row. split; [lia|]. split; [exact En|exact Dl].
        -- right. exists r. split; [lia|]. split; [apply Hkept; exact Hk|exact Hv].
      * destruct K as [->|(r & Hr & Hk & Hv)].
        -- destruct Dh as [->|Dh]; [left; reflexivity|].
           right. exists row. split; [lia|]. split; [exact En|exact Dh].
        -- right. exists r. split; [lia|]. split; [apply Hkept; exact Hk|exact Hv].
Qed.

Lemma load_rows_lengths Sd : forall todo F last row F',
  load_rows todo Sd F last row = Some F' ->
  length F'.(min_loc) = length F.(min_loc)
  /\ length F'.(max_loc) = length F.(max_loc).
Proof.
  induction todo as [|todo IH]; intros F last row F'; cbn [load_rows].
  - intros [= <-]. split; reflexivity.
  - destruct (gmt_M_is_dnan _).
    { intros E. destruct (IH _ _ _ _ E) as [-> ->]. split; reflexivity. }
    destruct (dlt _ last); [discriminate|].
    intros E. destruct (IH _ _ _ _ E) as [-> ->]. cbn.
    destruct (store_row_frame Sd row F) as (_ & _ & _ & _ & -> & -> & _).
    split; reflexivity.
Qed.

Lemma init_scales_guesses F col (lo hi : Q) :
  tracks_range F = true ->
  column_tracked F col ->
  rd F.(min_loc) col = DFin lo -> rd F.(max_loc) col = DFin hi ->
  let F' := init_scales F in
  rd F'.(last_loc) col = DFin ((1 # 2) * (hi + lo))
  /\ rd F'.(min_scl) col = d0
  /\ rd F'.(max_scl) col = DFin ((1 # 2) * (hi + - lo))
  /\ rd F'.(last_scl) col = DFin ((1 # 2) * ((1 # 2) * (hi + - lo))).
Proof.
  intros Ht (_ & _ & H3 & H4 & H5 & H6) Hlo Hhi. unfold init_scales.
  unfold tracks_range in Ht. rewrite Ht.
  cbn [last_loc min_scl max_scl last_scl set_last_loc set_last_scl
         set_max_scl set_min_scl].
  rewrite !rd_imap by (rewrite ?length_imap; assumption).
  rewrite rd_map by assumption. rewrite Hlo, Hhi.
  repeat split; reflexivity.
Qed.

(** X5.  When the range of the columns is tracked (a robust filter or the
    median filter), loading leaves in [min_loc] and [max_loc] the least and
    the greatest sample of each column over the rows that were loaded, and
    starts the estimates from them: the location from the middle of the
    range, the scale from a quarter of the range, within the bounds zero and
    half the range. *)
Theorem load_segment_tracks_column_range Sd n F F' col :
  load_segment Sd n F = Some F' ->
  tracks_range F = true ->
  column_tracked F col ->
  (forall r, r < n -> is_sample (rd2 Sd col r)) ->
  (forall r v, r < n -> rd2 Sd col r = DFin v ->
     (- DBL_MAX_Q <= v <= DBL_MAX_Q)%Q) ->
  (exists r v, r < n /\ row_kept Sd F r /\ rd2 Sd col r = DFin v) ->
  exists lo hi : Q,
    rd F'.(min_loc) col = DFin lo /\ rd F'.(max_loc) col = DFin hi
    /\ (forall r v, r < n -> row_kept Sd F r -> rd2 Sd col r = DFin v ->
          (lo <= v <= hi)%Q)
    /\ (exists r v, r < n /\ row_kept Sd F r /\ rd2 Sd col r = DFin v
                    /\ (v == lo)%Q)
    /\ (exists r v, r < n /\ row_kept Sd F r /\ rd2 Sd col r = DFin v
                    /\ (v == hi)%Q)
    /\ rd F'.(last_loc) col = DFin ((1 # 2) * (hi + lo))
    /\ rd F'.(min_scl) col = d0
    /\ rd F'.(max_scl) col = DFin ((1 # 2) * (hi + - lo))
    /\ rd F'.(last_scl) col = DFin ((1 # 2) * ((1 # 2) * (hi + - lo))).
Proof.
  intros E Ht Hc Hs Hr (r0 & v0 & Hr0 & Hk0 & Hv0).
  rewrite load_segment_rows in E.
  destruct (load_rows n Sd (before_rows n F) (dopp DBL_MAX) 0) as [F3|] eqn:E3;
    [|discriminate].
  injection E as <-.
  destruct (before_rows_frame n F)
    as (Et & _ & Er & Ef & _ & El & Ea & Eb & Ec & Em).
  cbn zeta in Et, Er, Ef, El, Ea, Eb, Ec, Em.
  destruct (Em Ht) as [Emin Emax].
  destruct Hc as (H1 & H2 & H3 & H4 & H5 & H6).
  assert (Ht0 : tracks_range (before_rows n F) = true).
  { unfold tracks_range. rewrite Er, Ef. exact Ht. }
  assert (Hkept : forall r, row_kept Sd (before_rows n F) r <-> row_kept Sd F r).
  { intros r. unfold row_kept. rewrite Et. tauto. }
  destruct (load_rows_range Sd col n (before_rows n F) (dopp DBL_MAX) 0 F3
              DBL_MAX_Q (- DBL_MAX_Q) E3 Ht0)
    as (lo & hi & A & B & C & D & I & J & K).
  { rewrite Emin, length_map. exact H1. }
  { rewrite Emax, length_map. exact H2. }
  { rewrite Emin, rd_map by exact H1. reflexivity. }
  { rewrite Emax, rd_map by exact H2. reflexivity. }
  { intros r Hlt. apply Hs. lia. }
  destruct (load_rows_frame Sd _ _ _ _ _ E3) as (_ & Et3 & El3 & Ea3 & Eb3 & Ec3).
  destruct (init_scales_frame F3) as (_ & _ & _ & Imin & Imax).
  exists lo, hi. rewrite Imin, Imax.
  split; [exact A|]. split; [exact B|].
  assert (Hall : forall r v, r < n -> row_kept Sd F r -> rd2 Sd col r = DFin v ->
                   (lo <= v <= hi)%Q).
  { intros r v Hlt Hk Hv. apply (I r v); [lia|apply Hkept; exact Hk|exact Hv]. }
  split; [exact Hall|]. split; [|split].
  - destruct J as [->|(r & Hlt & Hk & Hv)].
    + exists r0, v0. repeat split; try assumption.
      pose proof (Hall r0 v0 Hr0 Hk0 Hv0). pose proof (Hr r0 v0 Hr0 Hv0). lra.
    + exists r, lo. split; [lia|]. split; [apply Hkept; exact Hk|].
      split; [exact Hv|reflexivity].
  - destruct K as [->|(r & Hlt & Hk & Hv)].
    + exists r0, v0. repeat split; try assumption.
      pose proof (Hall r0 v0 Hr0 Hk0 Hv0). pose proof (Hr r0 v0 Hr0 Hv0). lra.
    + exists r, hi. split; [lia|]. split; [apply Hkept; exact Hk|].
      split; [exact Hv|reflexivity].
  - apply init_scales_guesses; try assumption.
    + rewrite Et3. exact Ht0.
    + unfold column_tracked.
      rewrite El3, Ea3, Eb3, Ec3, El, Ea, Eb, Ec.
      destruct (load_rows_lengths Sd _ _ _ _ _ E3) as [L1 L2].
      rewrite Emin, length_map in L1. rewrite Emax, length_map in L2.
      rewrite L1, L2. repeat split; assumption.
Qed.

Lemma load_segment_tracks_column_range_witness :
  exists lo hi : Q,
    rd median_loaded.(min_loc) 1 = DFin lo
    /\ rd median_loaded.(max_loc) 1 = DFin hi
    /\ (forall r v, r < 5 ->
          row_kept scenario_series (filter1d_init median_ctrl [] 2) r ->
          rd2 scenario_series 1 r = DFin v -> (lo <= v <= hi)%Q)
    /\ (exists r v, r < 5
          /\ row_kept scenario_series (filter1d_init median_ctrl [] 2) r
          /\ rd2 scenario_series 1 r = DFin v /\ (v == lo)%Q)
    /\ (exists r v, r < 5
          /\ row_kept scenario_series (filter1d_init median_ctrl [] 2) r
          /\ rd2 scenario_series 1 r = DFin v /\ (v == hi)%Q)
    /\ rd median_loaded.(last_loc) 1 = DFin ((1 # 2) * (hi + lo))
    /\ rd median_loaded.(min_scl) 1 = d0
    /\ rd median_loaded.(max_scl) 1 = DFin ((1 # 2) * (hi + - lo))
    /\ rd median_loaded.(last_scl) 1 = DFin ((1 # 2) * ((1 # 2) * (hi + - lo))).
Proof.
  apply (load_segment_tracks_column_range scenario_series 5
           (filter1d_init median_ctrl [] 2) median_loaded 1).
  - vm_compute. reflexivity.
  - reflexivity.
  - unfold column_tracked. cbn. lia.
  - intros r Hr. do 5 (destruct r as [|r]; [exact I|]). lia.
  - intros r v Hr Hv.
    do 5 (destruct r as [|r];
          [injection Hv as <-; split; apply Qle_bool_iff; vm_compute;
           reflexivity|]).
    lia.
  - exists 0, 1%Q. split; [lia|]. split; reflexivity.
Defined.

(** ** The range of output times at the input times *)

Section NativeRange.
Context `{GmtLib}.

Lemma scan_start_spec t (tq : nat -> Q) n (t0 sm hw : Q) :
  (forall r, r < n -> rd t r = DFin (tq r)) ->
  forall fuel row,
    (exists r, row <= r /\ r < n /\ r < row + fuel
               /\ (hw <= tq r + - t0 + sm)%Q) ->
    let r0 := scan_start fuel t (DFin t0) (DFin sm) (DFin hw) row in
    row <= r0 /\ r0 < n /\ (hw <= tq r0 + - t0 + sm)%Q
    /\ forall r, row <= r < r0 -> (tq r + - t0 + sm < hw)%Q.
Proof.
  intros Ht. induction fuel as [|fuel IH]; intros row (r & H1 & H2 & H3 & H4).
  - lia.
  - cbn [scan_start]. rewrite (Ht row) by lia.
    change (dadd (dsub (DFin (tq row)) (DFin t0)) (DFin sm))
      with (DFin (tq row + - t0 + sm)).
    destruct (dlt (DFin (tq row + - t0 + sm)) (DFin hw)) eqn:E.
    + apply dlt_fin in E.
      assert (Hne : r <> row) by (intros ->; lra).
      destruct (IH (S row)) as (A & B & C & D).
      { exists r. repeat split; try lia. exact H4. }
      cbn zeta. split; [lia|]. split; [exact B|]. split; [exact C|].
      intros r' Hr'. destruct (Nat.eq_dec r' row) as [->|Hn]; [exact E|].
      apply D. lia.
    + apply (proj1 (Qltb_ge _ _)) in E. cbn zeta.
      split; [lia|]. split; [lia|]. split; [exact E|]. intros r' Hr'. lia.
Qed.

Lemma scan_stop_spec t (tq : nat -> Q) n (t1 sm hw : Q) :
  (forall r, r < n -> rd t r = DFin (tq r)) ->
  forall row, row < n ->
    let r1 := scan_stop t (DFin t1) (DFin sm) (DFin hw) row in
    r1 <= row /\ (r1 = 0 \/ (hw <= t1 + - tq r1 + sm)%Q)
    /\ forall r, r1 < r <= row -> (t1 + - tq r + sm < hw)%Q.
Proof.
  intros Ht. induction row as [|row IH]; intros Hn; cbn [scan_stop].
  - cbn zeta. split; [lia|]. split; [left; reflexivity|]. intros r Hr. lia.
  - rewrite (Ht (S row)) by lia.
    change (dadd (dsub (DFin t1) (DFin (tq (S row)))) (DFin sm))
      with (DFin (t1 + - tq (S row) + sm)).
    destruct (dlt (DFin (t1 + - tq (S row) + sm)) (DFin hw)) eqn:E.
    + apply dlt_fin in E. destruct (IH ltac:(lia)) as (A & B & C).
      cbn zeta. split; [lia|]. split; [exact B|].
      intros r Hr. destruct (Nat.eq_dec r (S row)) as [->|Hne]; [exact E|].
      apply C. lia.
    + apply (proj1 (Qltb_ge _ _)) in E. cbn zeta.
      split; [lia|]. split; [right; exact E|]. intros r Hr. lia.
Qed.

(** The range [filter1d_set_up_filter] leaves when the output is at the
    input times and the ends are trimmed, for every kind of filter but the
    custom one. *)
Lemma set_up_filter_native F :
  F.(out_at_time) = false -> F.(use_ends) = false ->
  (F.(filter_type) =? FILTER1D_CUSTOM)%Z = false ->
  let G := filter1d_set_up_filter F in
  let t := time_column F in
  let hw := dmul (DFin (1 # 2)) F.(filter_width) in
  let small := dmul (dsub (rd t 1) (rd t 0)) GMT_CONV8_LIMIT in
  G.(t_start)
  = rd t (scan_start (S (length t)) t (time_at F 0) small hw 0)
  /\ G.(t_stop)
     = rd t (scan_stop t (time_at F (F.(n_rows) - 1)) small hw
               (F.(n_rows) - 1)).
Proof.
  intros Ho He Hc. unfold filter1d_set_up_filter.
  set (F1 := if equidist F
             then set_dt (ddiv (dsub (time_at F (n_rows F - 1)) (time_at F 0))
                            (dnat (n_rows F - 1))) F
             else F).
  assert (E1 : out_at_time F1 = false /\ use_ends F1 = false
               /\ (filter_type F1 =? FILTER1D_CUSTOM)%Z = false
               /\ filter_width F1 = filter_width F
               /\ time_column F1 = time_column F /\ n_rows F1 = n_rows F).
  { unfold F1. destruct (equidist F); repeat split; assumption. }
  destruct E1 as (Ho1 & He1 & Hc1 & Hw1 & Ht1 & Hn1).
  set (F2 := set_up_coefficients F1).
  assert (E2 : out_at_time F2 = false /\ use_ends F2 = false
               /\ half_width F2 = dmul (DFin (1 # 2)) (filter_width F)
               /\ time_column F2 = time_column F /\ n_rows F2 = n_rows F).
  { unfold F2, set_up_coefficients. rewrite Hc1.
    destruct (filter_type F1 <=? FILTER1D_CONVOLVE)%Z;
      rewrite <- Hw1, <- Ht1, <- Hn1; repeat split; assumption. }
  destruct E2 as (Ho2 & He2 & Hh2 & Ht2 & Hn2).
  unfold set_up_range. rewrite Ho2, He2.
  cbn [t_start t_stop set_t_start set_t_stop].
  rewrite Ht2, Hh2, Hn2. split; reflexivity.
Qed.

End NativeRange.

Section NativePlan.
Context `{GmtLib}.

Lemma rd_past_end (t : list double) i : length t <= i -> rd t i = DNaN.
Proof.
  intros Hi. unfold rd. rewrite list_lookup_total_alt.
  rewrite lookup_ge_None_2 by exact Hi. reflexivity.
Qed.

Lemma times_in_column F tq :
  times_finite F tq -> F.(n_rows) <= length (time_column F).
Proof.
  intros Ht. destruct (Nat.le_gt_cases F.(n_rows) (length (time_column F)))
    as [Hle|Hgt]; [exact Hle|].
  pose proof (Ht (length (time_column F)) Hgt) as E.
  rewrite <- rd_time_column, rd_past_end in E by lia. discriminate.
Qed.

(** X6.  With output at the input times and the ends trimmed, the first
    output time is the first input time that lies half a filter width, less
    the tolerance, after the first sample, and the last output time is the
    last input time that lies as far before the last sample (or the first
    sample, if there is none). *)
Theorem native_range_trims_half_width F (tq : nat -> Q) (W : Q) :
  F.(out_at_time) = false -> F.(use_ends) = false ->
  (F.(filter_type) =? FILTER1D_CUSTOM)%Z = false ->
  F.(filter_width) = DFin W ->
  times_finite F tq ->
  2 <= F.(n_rows) ->
  (exists r, r < F.(n_rows)
     /\ ((1 # 2) * W <= tq r + - tq 0%nat + scan_tolerance tq)%Q) ->
  let G := filter1d_set_up_filter F in
  let n := F.(n_rows) in
  let sm := scan_tolerance tq in
  let hw := ((1 # 2) * W)%Q in
  exists r0 r1,
    r0 < n /\ r1 < n
    /\ G.(t_start) = DFin (tq r0) /\ G.(t_stop) = DFin (tq r1)
    /\ (hw <= tq r0 + - tq 0%nat + sm)%Q
    /\ (forall r, r < r0 -> (tq r + - tq 0%nat + sm < hw)%Q)
    /\ (r1 = 0 \/ (hw <= tq (n - 1)%nat + - tq r1 + sm)%Q)
    /\ (forall r, r1 < r < n -> (tq (n - 1)%nat + - tq r + sm < hw)%Q).
Proof.
  intros Ho He Hc Hw Ht Hn (r & Hr & Hfar) G n sm hw.
  destruct (set_up_filter_native F Ho He Hc) as [Es Ee].
  cbn zeta in Es, Ee. fold G in Es, Ee.
  pose proof (times_in_column F tq Ht) as Hlen.
  assert (Hrd : forall i, i < n -> rd (time_column F) i = DFin (tq i)).
  { intros i Hi. rewrite rd_time_column. apply Ht. exact Hi. }
  rewrite (Ht 0) in Es by lia. rewrite (Ht (n_rows F - 1)) in Ee by lia.
  rewrite Hw in Es, Ee.
  rewrite (Hrd 0), (Hrd 1) in Es, Ee by (unfold n; lia).
  change (dmul (DFin (1 # 2)) (DFin W)) with (DFin hw) in Es, Ee.
  change (dmul (dsub (DFin (tq 1)) (DFin (tq 0))) GMT_CONV8_LIMIT)
    with (DFin sm) in Es, Ee.
  destruct (scan_start_spec (time_column F) tq n (tq 0) sm hw Hrd
              (S (length (time_column F))) 0) as (_ & A & B & C).
  { exists r. split; [lia|]. split; [exact Hr|]. split; [lia|exact Hfar]. }
  destruct (scan_stop_spec (time_column F) tq n (tq (n - 1)) sm hw Hrd
              (n - 1) ltac:(unfold n; lia)) as (D & E & K).
  cbn zeta in A, B, C, D, E, K.
  eexists _, _. split; [exact A|]. split; [|split; [|split]].
  2:{ rewrite Es. apply Hrd. exact A. }
  2:{ rewrite Ee. apply Hrd. unfold n in *. lia. }
  - unfold n in *. lia.
  - split; [exact B|]. split; [intros i Hi; apply C; lia|].
    split; [exact E|]. intros i Hi. apply K. unfold n in *. lia.
Qed.

Lemma first_k_spec t (tq : nat -> Q) n (a : Q) :
  (forall r, r < n -> rd t r = DFin (tq r)) ->
  forall fuel k,
    (exists r, k <= r /\ r < n /\ r < k + fuel /\ (a <= tq r)%Q) ->
    let k0 := first_k fuel t (DFin a) k in
    k <= k0 /\ k0 < n /\ (a <= tq k0)%Q
    /\ forall r, k <= r < k0 -> (tq r < a)%Q.
Proof.
  intros Ht. induction fuel as [|fuel IH]; intros k (r & H1 & H2 & H3 & H4).
  - lia.
  - cbn [first_k]. rewrite (Ht k) by lia.
    destruct (dlt (DFin (tq k)) (DFin a)) eqn:E.
    + apply dlt_fin in E.
      assert (Hne : r <> k) by (intros ->; lra).
      destruct (IH (S k)) as (A & B & C & D).
      { exists r. repeat split; try lia. exact H4. }
      cbn zeta. split; [lia|]. split; [exact B|]. split; [exact C|].
      intros r' Hr'. destruct (Nat.eq_dec r' k) as [->|Hn]; [exact E|].
      apply D. lia.
    + apply (proj1 (Qltb_ge _ _)) in E. cbn zeta.
      split; [lia|]. split; [lia|]. split; [exact E|]. intros r' Hr'. lia.
Qed.

Lemma find_last_k_spec t (tq : nat -> Q) n (b : Q) :
  (forall r, r < n -> rd t r = DFin (tq r)) ->
  forall row, row < n ->
    let r1 := find_last_k t (DFin b) row in
    r1 <= row /\ (r1 = 0 \/ (tq r1 <= b)%Q)
    /\ forall r, r1 < r <= row -> (b < tq r)%Q.
Proof.
  intros Ht. induction row as [|row IH]; intros Hn; cbn [find_last_k].
  - cbn zeta. split; [lia|]. split; [left; reflexivity|]. intros r Hr. lia.
  - rewrite (Ht (S row)) by lia.
    destruct (dgt (DFin (tq (S row))) (DFin b)) eqn:E.
    + apply dgt_fin in E. destruct (IH ltac:(lia)) as (A & B & C).
      cbn zeta. split; [lia|]. split; [exact B|].
      intros r Hr. destruct (Nat.eq_dec r (S row)) as [->|Hne]; [exact E|].
      apply C. lia.
    + apply dgt_fin_false in E. cbn zeta.
      split; [lia|]. split; [right; exact E|]. intros r Hr. lia.
Qed.

(** X7.  With output at the input times, the output points the loop runs
    through are the rows whose time lies between the first and the last
    output time, and the output time of a row is its input time. *)
Theorem native_output_points F (tq : nat -> Q) (a b : Q) :
  F.(out_at_time) = false ->
  times_finite F tq -> times_sorted F tq ->
  F.(t_start) = DFin a -> F.(t_stop) = DFin b ->
  (exists r, r < F.(n_rows) /\ (a <= tq r)%Q) ->
  (tq 0%nat <= b)%Q ->
  exists F0 k0 last_k,
    output_plan F = Some (F0, k0, last_k)
    /\ last_k < F.(n_rows)
    /\ (forall k, k < F.(n_rows) -> rd F0.(T_array) k = DFin (tq k))
    /\ forall k, k < F.(n_rows) ->
         (k0 <= k <= last_k <-> (a <= tq k <= b)%Q).
Proof.
  intros Ho Ht Hs Ea Eb (r & Hr & Hra) H0.
  unfold output_plan. rewrite Ho, Ea, Eb.
  pose proof (times_in_column F tq Ht) as Hlen.
  assert (Hrd : forall i, i < F.(n_rows) ->
                  rd (time_column F) i = DFin (tq i)).
  { intros i Hi. rewrite rd_time_column. apply Ht. exact Hi. }
  destruct (first_k_spec (time_column F) tq F.(n_rows) a Hrd
              (S (length (time_column F))) 0) as (_ & A & B & C).
  { exists r. split; [lia|]. split; [exact Hr|]. split; [lia|exact Hra]. }
  destruct (find_last_k_spec (time_column F) tq F.(n_rows) b Hrd
              (F.(n_rows) - 1) ltac:(lia)) as (D & E & K).
  cbn zeta in A, B, C, D, E, K.
  eexists _, _, _. split; [reflexivity|]. split; [lia|]. split.
  - intros k Hk. cbn [T_array set_T_array]. unfold rd.
    rewrite lookup_total_take_lt by exact Hk. apply Hrd. exact Hk.
  - intros k Hk.
    set (k0 := first_k _ _ _ _) in *. set (k1 := find_last_k _ _ _) in *.
    assert (Hb1 : (tq k1 <= b)%Q).
    { destruct E as [E|E]; [rewrite E; exact H0|exact E]. }
    split.
    + intros [H1 H2]. split.
      * apply Qle_trans with (tq k0); [exact B|]. apply Hs; [exact H1|exact Hk].
      * apply Qle_trans with (tq k1); [|exact Hb1]. apply Hs; [exact H2|lia].
    + intros [H1 H2]. split.
      * destruct (Nat.le_gt_cases k0 k) as [Hle|Hgt]; [exact Hle|].
        pose proof (C k ltac:(lia)). lra.
      * destruct (Nat.le_gt_cases k k1) as [Hle|Hgt]; [exact Hle|].
        pose proof (K k ltac:(lia)). lra.
Qed.

End NativePlan.

Lemma native_range_trims_half_width_witness :
  exists r0 r1,
    r0 < 5 /\ r1 < 5
    /\ (@filter1d_set_up_filter TestLib scenario_loaded).(t_start)
       = DFin (tq_nat r0)
    /\ (@filter1d_set_up_filter TestLib scenario_loaded).(t_stop)
       = DFin (tq_nat r1)
    /\ ((1 # 2) * 2 <= tq_nat r0 + - tq_nat 0 + scan_tolerance tq_nat)%Q
    /\ (forall r, r < r0 ->
          (tq_nat r + - tq_nat 0 + scan_tolerance tq_nat < (1 # 2) * 2)%Q)
    /\ (r1 = 0
        \/ ((1 # 2) * 2 <= tq_nat (5 - 1) + - tq_nat r1
                           + scan_tolerance tq_nat)%Q)
    /\ (forall r, r1 < r < 5 ->
          (tq_nat (5 - 1) + - tq_nat r + scan_tolerance tq_nat < (1 # 2) * 2)%Q).
Proof.
  apply (@native_range_trims_half_width TestLib scenario_loaded tq_nat 2).
  - reflexivity.
  - reflexivity.
  - reflexivity.
  - reflexivity.
  - exact scenario_times.
  - cbn. lia.
  - exists 1. split; [cbn; lia|]. apply Qle_bool_iff. vm_compute. reflexivity.
Defined.

Lemma scenario_prepared_times : times_finite scenario_prepared tq_nat.
Proof. intros i Hi. do 5 (destruct i as [|i]; [reflexivity|]). cbn in Hi. lia. Qed.

Lemma native_output_points_witness :
  exists F0 k0 last_k,
    @output_plan TestLib scenario_prepared = Some (F0, k0, last_k)
    /\ last_k < scenario_prepared.(n_rows)
    /\ (forall k, k < scenario_prepared.(n_rows) ->
          rd F0.(T_array) k = DFin (tq_nat k))
    /\ forall k, k < scenario_prepared.(n_rows) ->
         (k0 <= k <= last_k <-> (1 <= tq_nat k <= 3)%Q).
Proof.
  apply (@native_output_points TestLib scenario_prepared tq_nat 1 3).
  - reflexivity.
  - exact scenario_prepared_times.
  - apply tq_nat_sorted.
  - reflexivity.
  - reflexivity.
  - exists 1. split; [cbn; lia|]. apply Qle_bool_iff. vm_compute. reflexivity.
  - apply Qle_bool_iff. vm_compute. reflexivity.
Defined.

(** ** The range of output times of a resampled output *)

Lemma floor_scale (q inc : Q) :
  (0 < inc)%Q ->
  (inject_Z (Qfloor (q / inc)) * inc <= q
   /\ q < inject_Z (Qfloor (q / inc)) * inc + inc)%Q.
Proof.
  intros Hi.
  assert (E : (q == q / inc * inc)%Q) by (field; lra).
  pose proof (Qfloor_le (q / inc)) as H1.
  pose proof (Qlt_floor (q / inc)) as H2.
  rewrite inject_Z_plus in H2. change (inject_Z 1) with 1%Q in H2.
  split.
  - rewrite E at 2. apply Qmult_le_r; assumption.
  - rewrite E at 1.
    assert (E2 : (inject_Z (Qfloor (q / inc)) * inc + inc
                  == (inject_Z (Qfloor (q / inc)) + 1) * inc)%Q) by ring.
    rewrite E2. apply Qmult_lt_r; assumption.
Qed.

Lemma ceiling_scale (q inc : Q) :
  (0 < inc)%Q ->
  (inject_Z (Qceiling (q / inc)) * inc - inc < q
   /\ q <= inject_Z (Qceiling (q / inc)) * inc)%Q.
Proof.
  intros Hi.
  assert (E : (q == q / inc * inc)%Q) by (field; lra).
  pose proof (Qle_ceiling (q / inc)) as H1.
  pose proof (Qceiling_lt (q / inc)) as H2.
  unfold Z.sub in H2. rewrite inject_Z_plus in H2.
  change (inject_Z (-1)) with (-1)%Q in H2.
  split.
  - rewrite E at 2.
    assert (E2 : (inject_Z (Qceiling (q / inc)) * inc - inc
                  == (inject_Z (Qceiling (q / inc)) + -1) * inc)%Q) by ring.
    rewrite E2. apply Qmult_lt_r; assumption.
  - rewrite E at 1. apply Qmult_le_r; assumption.
Qed.

(** The range [filter1d_set_up_filter] leaves is that of [set_up_range] on
    the structure with half the filter width, for every kind of filter but
    the custom one. *)
Lemma set_up_filter_range `{GmtLib} F :
  (F.(filter_type) =? FILTER1D_CUSTOM)%Z = false ->
  let G := filter1d_set_up_filter F in
  let R := set_up_range (time_at F 0) (time_at F (F.(n_rows) - 1))
             (set_half_width (dmul (DFin (1 # 2)) F.(filter_width)) F) in
  G.(t_start) = R.(t_start) /\ G.(t_stop) = R.(t_stop).
Proof.
  intros Hc. unfold filter1d_set_up_filter.
  set (F1 := if equidist F
             then set_dt (ddiv (dsub (time_at F (n_rows F - 1)) (time_at F 0))
                            (dnat (n_rows F - 1))) F
             else F).
  assert (E1 : out_at_time F1 = out_at_time F /\ use_ends F1 = use_ends F
               /\ (filter_type F1 =? FILTER1D_CUSTOM)%Z = false
               /\ filter_width F1 = filter_width F
               /\ time_column F1 = time_column F /\ n_rows F1 = n_rows F
               /\ T_set F1 = T_set F /\ t_int F1 = t_int F
               /\ t_start_t F1 = t_start_t F /\ t_stop_t F1 = t_stop_t F).
  { unfold F1. destruct (equidist F); repeat split; assumption. }
  destruct E1 as (Ho1 & He1 & Hc1 & Hw1 & Ht1 & Hn1 & Hs1 & Hi1 & Ha1 & Hb1).
  set (F2 := set_up_coefficients F1).
  assert (E2 : out_at_time F2 = out_at_time F /\ use_ends F2 = use_ends F
               /\ half_width F2 = dmul (DFin (1 # 2)) (filter_width F)
               /\ time_column F2 = time_column F /\ n_rows F2 = n_rows F
               /\ T_set F2 = T_set F /\ t_int F2 = t_int F
               /\ t_start_t F2 = t_start_t F /\ t_stop_t F2 = t_stop_t F).
  { unfold F2, set_up_coefficients. rewrite Hc1.
    destruct (filter_type F1 <=? FILTER1D_CONVOLVE)%Z;
      rewrite <- Ho1, <- He1, <- Hw1, <- Ht1, <- Hn1, <- Hs1, <- Hi1,
        <- Ha1, <- Hb1; repeat split; reflexivity. }
  destruct E2 as (Ho2 & He2 & Hh2 & Ht2 & Hn2 & Hs2 & Hi2 & Ha2 & Hb2).
  unfold set_up_range. rewrite Ho2, He2, Hs2, Hi2, Ha2, Hb2, Hh2, Ht2, Hn2.
  cbn [out_at_time use_ends T_set t_int t_start_t t_stop_t half_width
         set_half_width].
  change (time_column (set_half_width (dmul (DFin (1 # 2)) (filter_width F)) F))
    with (time_column F).
  change (n_rows (set_half_width (dmul (DFin (1 # 2)) (filter_width F)) F))
    with (n_rows F).
  destruct (out_at_time F); [destruct (negb (use_ends F))|destruct (use_ends F)];
    split; reflexivity.
Qed.

Section ResampledRange.
Context `{GmtLib}.

(** In exact arithmetic: with output every [inc] and no range given
    (-T<inc>), the range of output times is rounded outward to multiples of
    [inc]. *)
Lemma range_rounds_outward_exact F (a b inc W : Q) :
  F.(out_at_time) = true -> F.(T_set) = 1 ->
  (F.(filter_type) =? FILTER1D_CUSTOM)%Z = false ->
  F.(t_int) = DFin inc -> (0 < inc)%Q ->
  F.(filter_width) = DFin W ->
  time_at F 0 = DFin a -> time_at F (F.(n_rows) - 1) = DFin b ->
  let G := filter1d_set_up_filter F in
  exists i j : Z,
    deq G.(t_start) (DFin (inject_Z i * inc + end_trim F W))
    /\ deq G.(t_stop) (DFin (inject_Z j * inc - end_trim F W))
    /\ (inject_Z i * inc <= a /\ a < inject_Z i * inc + inc)%Q
    /\ (inject_Z j * inc - inc < b /\ b <= inject_Z j * inc)%Q.
Proof.
  intros Ho Hs Hc Hi Hpos Hw Ha Hb G.
  destruct (set_up_filter_range F Hc) as [Es Ee]. cbn zeta in Es, Ee.
  fold G in Es, Ee. rewrite Es, Ee. clear Es Ee.
  unfold set_up_range.
  cbn [out_at_time use_ends T_set t_int t_start_t t_stop_t half_width
         set_half_width].
  rewrite Ho, Hs, Hi, Ha, Hb, Hw. cbn [Nat.eqb orb].
  assert (Hz : Qzero inc = false) by (apply Qzero_false; lra).
  unfold ddiv. rewrite Hz.
  exists (Qfloor (a / inc)), (Qceiling (b / inc)).
  unfold end_trim.
  destruct (use_ends F); cbn [negb t_start t_stop set_t_start set_t_stop];
    unfold dfloor, dceil, dZ, dmul, dsub, dadd, dopp, deq; cbv beta iota;
    (split; [ring|]); (split; [ring|]);
    (split; [apply floor_scale|apply ceiling_scale]); exact Hpos.
Qed.

(** In exact arithmetic: with a range of output times given
    (-T<min>/<max>/<inc>), the range is stepped from <min> and from <max>
    towards the samples. *)
Lemma range_steps_inward_exact F (a b lo hi inc W : Q) :
  F.(out_at_time) = true -> F.(T_set) <> 1 ->
  (F.(filter_type) =? FILTER1D_CUSTOM)%Z = false ->
  F.(t_start_t) = DFin lo -> F.(t_stop_t) = DFin hi ->
  F.(t_int) = DFin inc -> (0 < inc)%Q ->
  F.(filter_width) = DFin W ->
  time_at F 0 = DFin a -> time_at F (F.(n_rows) - 1) = DFin b ->
  let G := filter1d_set_up_filter F in
  exists i j : Z,
    (0 <= i)%Z /\ (0 <= j)%Z
    /\ deq G.(t_start) (DFin (lo + inject_Z i * inc + end_trim F W))
    /\ deq G.(t_stop) (DFin (hi - inject_Z j * inc - end_trim F W))
    /\ ((lo < a)%Q ->
        (lo + inject_Z i * inc <= a /\ a < lo + inject_Z i * inc + inc)%Q)
    /\ ((a <= lo)%Q -> i = 0%Z)
    /\ ((b < hi)%Q ->
        (hi - inject_Z j * inc - inc < b /\ b <= hi - inject_Z j * inc)%Q)
    /\ ((hi <= b)%Q -> j = 0%Z).
Proof.
  intros Ho Hs Hc Hlo Hhi Hi Hpos Hw Ha Hb G.
  destruct (set_up_filter_range F Hc) as [Es Ee]. cbn zeta in Es, Ee.
  fold G in Es, Ee. rewrite Es, Ee. clear Es Ee.
  unfold set_up_range.
  cbn [out_at_time use_ends T_set t_int t_start_t t_stop_t half_width
         set_half_width].
  rewrite Ho, Hi, Ha, Hb, Hw, Hlo, Hhi.
  destruct (Nat.eqb_spec (T_set F) 1) as [E|_]; [contradiction|].
  cbn [orb].
  assert (Hz : Qzero inc = false) by (apply Qzero_false; lra).
  assert (Hfloor : forall q, (0 <= q)%Q -> (0 <= Qfloor (q / inc))%Z).
  { intros q Hq. change 0%Z with (Qfloor 0). apply Qfloor_resp_le.
    apply Qle_shift_div_l; [exact Hpos|lra]. }
  unfold dgt, dsub, dopp, dadd, ddiv. rewrite Hz.
  change (dlt (DFin lo) (DFin a)) with (Qltb lo a).
  change (dlt (DFin b) (DFin hi)) with (Qltb b hi).
  unfold dfloor, dZ, dmul.
  exists (if Qltb lo a then Qfloor ((a + - lo) / inc) else 0%Z),
         (if Qltb b hi then Qfloor ((hi + - b) / inc) else 0%Z).
  destruct (Qltb lo a) eqn:E1; destruct (Qltb b hi) eqn:E2;
    [ apply Qltb_lt in E1; apply Qltb_lt in E2
    | apply Qltb_lt in E1; apply Qltb_ge in E2
    | apply Qltb_ge in E1; apply Qltb_lt in E2
    | apply Qltb_ge in E1; apply Qltb_ge in E2 ];
    pose proof (floor_scale (a + - lo) inc Hpos) as [P1 P2];
    pose proof (floor_scale (hi + - b) inc Hpos) as [P3 P4];
    (split; [first [apply Hfloor; lra | lia]|]);
    (split; [first [apply Hfloor; lra | lia]|]);
    unfold end_trim;
    (split; [destruct (use_ends F);
             cbn [negb t_start t_stop set_t_start set_t_stop];
             unfold dadd, dsub, dopp, deq; cbv beta iota; ring|]);
    (split; [destruct (use_ends F);
             cbn [negb t_start t_stop set_t_start set_t_stop];
             unfold dadd, dsub, dopp, deq; cbv beta iota; ring|]);
    (split; [intros ?; try lra|]);
    (split; [intros ?; first [reflexivity | lra]|]);
    (split; [intros ?; try lra|]);
    intros ?; first [reflexivity | lra].
Qed.

(** X8.  Whole numbers: with output every [inc] and no range given
    (-T<inc>), where the first and the last sample time, [inc] and the
    filter width are whole numbers (below 2^51, so that the quotients,
    products and sums are exact), the range of output times is rounded
    outward to multiples of [inc]: it starts at the last multiple not after
    the first sample and stops at the first multiple not before the last
    sample; without -E half the filter width is then taken off each end. *)
Theorem whole_range_rounds_outward F (a b inc W : Z) :
  F.(out_at_time) = true -> F.(T_set) = 1 ->
  (F.(filter_type) =? FILTER1D_CUSTOM)%Z = false ->
  whole F.(t_int) inc -> (0 < inc)%Z ->
  whole F.(filter_width) W ->
  whole (time_at F 0) a -> whole (time_at F (F.(n_rows) - 1)) b ->
  let G := filter1d_set_up_filter F in
  let first := (a / inc * inc)%Z in
  let last := (- (- b / inc) * inc)%Z in
  deq G.(t_start) (DFin (inject_Z first + end_trim F (inject_Z W)))
  /\ deq G.(t_stop) (DFin (inject_Z last - end_trim F (inject_Z W)))
  /\ (first <= a < first + inc)%Z
  /\ (last - inc < b <= last)%Z.
Proof.
  intros Ho Hs Hc [Hi _] Hpos [Hw _] [Ha _] [Hb _] G first last.
  assert (Hq : (0 < inject_Z inc)%Q).
  { change 0%Q with (inject_Z 0). rewrite <- Zlt_Qlt. exact Hpos. }
  destruct (range_rounds_outward_exact F (inject_Z a) (inject_Z b)
              (inject_Z inc) (inject_Z W) Ho Hs Hc Hi Hq Hw Ha Hb)
    as (i & j & Es & Ee & [I1 I2] & [J1 J2]).
  fold G in Es, Ee.
  rewrite <- inject_Z_mult in I1, I2, J1, J2.
  rewrite <- inject_Z_plus in I2. unfold Qminus in J1.
  rewrite <- inject_Z_opp, <- inject_Z_plus in J1.
  rewrite <- Zle_Qle in I1, J2. rewrite <- Zlt_Qlt in I2, J1.
  assert (Ei : i = (a / inc)%Z) by (apply (Z.div_unique a inc i (a - i * inc)); lia).
  assert (Ej : (- j)%Z = (- b / inc)%Z)
    by (apply (Z.div_unique (- b) inc (- j) (j * inc - b)); lia).
  assert (Ef : first = (i * inc)%Z) by (unfold first; rewrite Ei; reflexivity).
  assert (El : last = (j * inc)%Z)
    by (unfold last; rewrite <- Ej, Z.opp_involutive; reflexivity).
  rewrite Ef, El, !inject_Z_mult.
  split; [exact Es|]. split; [exact Ee|]. split; lia.
Qed.

(** X9.  Whole numbers: with a range <min>/<max>/<inc> of output times
    given, where <min>, <max>, <inc>, the first and the last sample time
    and the filter width are whole numbers (below 2^51), the output starts
    at <min> if the first sample is not after it, and otherwise at the last
    point <min> + i <inc> not after the first sample; it stops at <max> if
    the last sample is not before it, and otherwise at the first point
    <max> - j <inc> not before the last sample (the stop is stepped from
    <max>, not from <min>); without -E half the filter width is then taken
    off each end. *)
Theorem whole_range_steps_inward F (a b lo hi inc W : Z) :
  F.(out_at_time) = true -> F.(T_set) <> 1 ->
  (F.(filter_type) =? FILTER1D_CUSTOM)%Z = false ->
  whole F.(t_start_t) lo -> whole F.(t_stop_t) hi ->
  whole F.(t_int) inc -> (0 < inc)%Z ->
  whole F.(filter_width) W ->
  whole (time_at F 0) a -> whole (time_at F (F.(n_rows) - 1)) b ->
  let G := filter1d_set_up_filter F in
  let first := (if lo <? a then lo + (a - lo) / inc * inc else lo)%Z in
  let last := (if b <? hi then hi - (hi - b) / inc * inc else hi)%Z in
  deq G.(t_start) (DFin (inject_Z first + end_trim F (inject_Z W)))
  /\ deq G.(t_stop) (DFin (inject_Z last - end_trim F (inject_Z W)))
  /\ ((lo < a)%Z -> (first <= a < first + inc)%Z)
  /\ ((b < hi)%Z -> (last - inc < b <= last)%Z).
Proof.
  intros Ho Hs Hc [Hlo _] [Hhi _] [Hi _] Hpos [Hw _] [Ha _] [Hb _] G first last.
  assert (Hq : (0 < inject_Z inc)%Q).
  { change 0%Q with (inject_Z 0). rewrite <- Zlt_Qlt. exact Hpos. }
  destruct (range_steps_inward_exact F (inject_Z a) (inject_Z b)
              (inject_Z lo) (inject_Z hi) (inject_Z inc) (inject_Z W)
              Ho Hs Hc Hlo Hhi Hi Hq Hw Ha Hb)
    as (i & j & Hi0 & Hj0 & Es & Ee & I1 & I2 & J1 & J2).
  fold G in Es, Ee.
  rewrite <- Zlt_Qlt in I1, J1. rewrite <- Zle_Qle in I2, J2.
  rewrite <- inject_Z_mult, <- !inject_Z_plus in I1.
  rewrite <- !Zle_Qle, <- !Zlt_Qlt in I1.
  unfold Qminus in J1.
  rewrite <- inject_Z_mult, <- !inject_Z_opp, <- !inject_Z_plus in J1.
  rewrite <- !Zle_Qle, <- !Zlt_Qlt in J1.
  assert (Ef : first = (lo + i * inc)%Z).
  { unfold first. destruct (Z.ltb_spec lo a) as [L|L].
    - destruct (I1 L) as [A B].
      replace i with ((a - lo) / inc)%Z; [reflexivity|].
      symmetry. apply (Z.div_unique (a - lo) inc i (a - lo - i * inc)); lia.
    - rewrite (I2 L). lia. }
  assert (El : last = (hi - j * inc)%Z).
  { unfold last. destruct (Z.ltb_spec b hi) as [L|L].
    - destruct (J1 L) as [A B].
      replace j with ((hi - b) / inc)%Z; [reflexivity|].
      symmetry. apply (Z.div_unique (hi - b) inc j (hi - b - j * inc)); lia.
    - rewrite (J2 L). lia. }
  rewrite Ef, El. unfold Z.sub at 1.
  rewrite !inject_Z_plus, inject_Z_opp, !inject_Z_mult.
  split; [exact Es|]. split; [exact Ee|].
  split; intros L; [specialize (I1 L)|specialize (J1 L)]; lia.
Qed.

End ResampledRange.

Lemma whole_range_rounds_outward_witness :
  deq (@filter1d_set_up_filter TestLib every_two_loaded).(t_start)
      (DFin (inject_Z (0 / 2 * 2) + end_trim every_two_loaded (inject_Z 2)))
  /\ deq (@filter1d_set_up_filter TestLib every_two_loaded).(t_stop)
         (DFin (inject_Z (- (- 4 / 2) * 2)
                - end_trim every_two_loaded (inject_Z 2)))
  /\ (0 / 2 * 2 <= 0 < 0 / 2 * 2 + 2)%Z
  /\ (- (- 4 / 2) * 2 - 2 < 4 <= - (- 4 / 2) * 2)%Z.
Proof.
  apply (@whole_range_rounds_outward TestLib every_two_loaded 0 4 2 2);
    try reflexivity; split; reflexivity.
Defined.

Lemma whole_range_steps_inward_witness :
  deq (@filter1d_set_up_filter TestLib lattice_loaded).(t_start)
      (DFin (inject_Z (-1 + (0 - -1) / 2 * 2)
             + end_trim lattice_loaded (inject_Z 2)))
  /\ deq (@filter1d_set_up_filter TestLib lattice_loaded).(t_stop)
         (DFin (inject_Z (6 - (6 - 4) / 2 * 2)
                - end_trim lattice_loaded (inject_Z 2)))
  /\ ((-1 < 0)%Z ->
      (-1 + (0 - -1) / 2 * 2 <= 0 < -1 + (0 - -1) / 2 * 2 + 2)%Z)
  /\ ((4 < 6)%Z ->
      (6 - (6 - 4) / 2 * 2 - 2 < 4 <= 6 - (6 - 4) / 2 * 2)%Z).
Proof.
  apply (@whole_range_steps_inward TestLib lattice_loaded 0 4 (-1) 6 2 2);
    try reflexivity; try (split; reflexivity).
  cbn. lia.
Defined.

(** ** The coefficient a row meets *)

Section Taps.
Context `{GmtLib}.

Lemma tap_index_floor F (Tq t dtq : Q) r :
  F.(dt) = DFin dtq -> ~ (dtq == 0)%Q ->
  time_at F r = DFin t ->
  tap_index F (DFin Tq) r
  = (Z.of_nat F.(half_n_f_wts) + Qfloor ((1 # 2) + (Tq + - t) / dtq))%Z.
Proof.
  intros Hd Hz Ht. unfold tap_index. rewrite Hd, Ht. f_equal.
  unfold dsub, dopp, dadd at 2, ddiv. rewrite (Qzero_false _ Hz).
  unfold dadd, dfloor, dZ, lrint. apply Qrint_Z.
Qed.

(** X10.  With a positive [dt] the coefficient a row meets follows its
    time: of two rows the later one meets the same coefficient or a lower
    one; a row at the output time meets the centre coefficient, a row not
    after the output time the centre coefficient or a higher one, a row not
    before it the centre coefficient or a lower one. *)
Theorem taps_follow_row_times F (Tq a b dtq : Q) r s :
  F.(dt) = DFin dtq -> (0 < dtq)%Q ->
  time_at F r = DFin a -> time_at F s = DFin b ->
  (a <= b)%Q ->
  let h := Z.of_nat F.(half_n_f_wts) in
  (tap_index F (DFin Tq) s <= tap_index F (DFin Tq) r)%Z
  /\ ((a <= Tq)%Q -> (h <= tap_index F (DFin Tq) r)%Z)
  /\ ((Tq <= b)%Q -> (tap_index F (DFin Tq) s <= h)%Z)
  /\ ((a == Tq)%Q -> tap_index F (DFin Tq) r = h).
Proof.
  intros Hd Hpos Ha Hb Hab h.
  assert (Hz : ~ (dtq == 0)%Q) by lra.
  rewrite (tap_index_floor F Tq a dtq r Hd Hz Ha),
    (tap_index_floor F Tq b dtq s Hd Hz Hb). fold h.
  assert (Hinv : (0 < / dtq)%Q) by (apply Qinv_lt_0_compat; exact Hpos).
  assert (Hm : forall x y : Q, (x <= y)%Q -> (x / dtq <= y / dtq)%Q).
  { intros x y L. unfold Qdiv. apply Qmult_le_compat_r; lra. }
  assert (H0 : (0 / dtq == 0)%Q) by (field; exact Hz).
  split; [|split; [|split]].
  - apply Zplus_le_compat_l, Qfloor_resp_le.
    pose proof (Hm (Tq + - b)%Q (Tq + - a)%Q ltac:(lra)). lra.
  - intros L. pose proof (Hm 0%Q (Tq + - a)%Q ltac:(lra)) as M.
    assert (P : (Qfloor 0 <= Qfloor ((1 # 2) + (Tq + - a) / dtq))%Z)
      by (apply Qfloor_resp_le; lra).
    change (Qfloor 0) with 0%Z in P. lia.
  - intros L. pose proof (Hm (Tq + - b)%Q 0%Q ltac:(lra)) as M.
    assert (P : (Qfloor ((1 # 2) + (Tq + - b) / dtq) <= Qfloor (1 # 2))%Z)
      by (apply Qfloor_resp_le; lra).
    change (Qfloor (1 # 2)) with 0%Z in P. lia.
  - intros E.
    assert (P : Qfloor ((1 # 2) + (Tq + - a) / dtq) = Qfloor (1 # 2)).
    { apply Qfloor_comp. rewrite E.
      assert (E2 : ((Tq + - Tq) / dtq == 0)%Q) by (field; exact Hz).
      rewrite E2. ring. }
    change (Qfloor (1 # 2)) with 0%Z in P. lia.
Qed.

(** X11.  The coefficients of a boxcar, cosine or Gaussian filter are odd in
    number and symmetric about the centre one: the coefficients [i] places
    to either side of the centre both hold the weight of the distance
    [i * dt]. *)
Theorem convolution_weights_symmetric F :
  (F.(filter_type) =? FILTER1D_CUSTOM)%Z = false ->
  (F.(filter_type) <=? FILTER1D_CONVOLVE)%Z = true ->
  let G := filter1d_set_up_filter F in
  let h := G.(half_n_f_wts) in
  G.(n_f_wts) = 2 * h + 1
  /\ length G.(f_wt) = 2 * h + 1
  /\ forall i, i <= h ->
       rd G.(f_wt) (h - i) = rd G.(f_wt) (h + i)
       /\ rd G.(f_wt) (h + i)
          = get_weight F.(filter_type) (dmul (dnat i) G.(dt)) G.(half_width).
Proof.
  intros Hc Hv G h. unfold h, G, filter1d_set_up_filter.
  set (F1 := if equidist F
             then set_dt (ddiv (dsub (time_at F (n_rows F - 1)) (time_at F 0))
                            (dnat (n_rows F - 1))) F
             else F).
  assert (E1 : filter_type F1 = filter_type F).
  { unfold F1. destruct (equidist F); reflexivity. }
  destruct (set_up_range_view (time_at F 0) (time_at F (n_rows F - 1))
              (set_up_coefficients F1)) as [_ Rc].
  unfold coefficients in Rc.
  injection Rc as -> -> -> -> -> _.
  unfold set_up_coefficients. rewrite E1, Hc, Hv.
  cbn [dt half_width half_n_f_wts n_f_wts f_wt
       set_f_wt set_n_f_wts set_half_n_f_wts set_half_width].
  set (hw := dmul (DFin (1 # 2)) (filter_width F1)).
  set (hn := u64 (lrint (ddiv hw (dt F1)))).
  split; [reflexivity|].
  pose proof (fill_weights_prefix (filter_type F) hn (dt F1) hw
                (replicate (2 * hn + 1) d0) hn (Nat.le_refl _)
                (length_replicate _ _)) as [Hl _].
  split; [exact Hl|].
  intros i Hi. rewrite !fill_weights_taps by lia.
  unfold tap_offset.
  destruct (Nat.leb_spec hn (hn - i)), (Nat.leb_spec hn (hn + i)); try lia;
    split; do 3 f_equal; lia.
Qed.

End Taps.

Lemma taps_follow_row_times_witness :
  (tap_index scenario_prepared (DFin 2) 3
   <= tap_index scenario_prepared (DFin 2) 1)%Z
  /\ ((1 <= 2)%Q ->
      (Z.of_nat scenario_prepared.(half_n_f_wts)
       <= tap_index scenario_prepared (DFin 2) 1)%Z)
  /\ ((2 <= 3)%Q ->
      (tap_index scenario_prepared (DFin 2) 3
       <= Z.of_nat scenario_prepared.(half_n_f_wts))%Z)
  /\ ((1 == 2)%Q ->
      tap_index scenario_prepared (DFin 2) 1
      = Z.of_nat scenario_prepared.(half_n_f_wts)).
Proof.
  apply (taps_follow_row_times scenario_prepared 2 1 3 1 1 3).
  - reflexivity.
  - reflexivity.
  - reflexivity.
  - reflexivity.
  - discriminate.
Defined.

Lemma convolution_weights_symmetric_witness :
  (@filter1d_set_up_filter TestLib scenario_loaded).(n_f_wts)
  = 2 * (@filter1d_set_up_filter TestLib scenario_loaded).(half_n_f_wts) + 1
  /\ length (@filter1d_set_up_filter TestLib scenario_loaded).(f_wt)
     = 2 * (@filter1d_set_up_filter TestLib scenario_loaded).(half_n_f_wts) + 1
  /\ forall i,
       i <= (@filter1d_set_up_filter TestLib scenario_loaded).(half_n_f_wts) ->
       rd (@filter1d_set_up_filter TestLib scenario_loaded).(f_wt)
          ((@filter1d_set_up_filter TestLib scenario_loaded).(half_n_f_wts) - i)
       = rd (@filter1d_set_up_filter TestLib scenario_loaded).(f_wt)
            ((@filter1d_set_up_filter TestLib scenario_loaded).(half_n_f_wts) + i)
       /\ rd (@filter1d_set_up_filter TestLib scenario_loaded).(f_wt)
             ((@filter1d_set_up_filter TestLib scenario_loaded).(half_n_f_wts) + i)
          = @get_weight TestLib scenario_loaded.(filter_type)
              (dmul (dnat i)
                 (@filter1d_set_up_filter TestLib scenario_loaded).(dt))
              (@filter1d_set_up_filter TestLib scenario_loaded).(half_width).
Proof.
  apply (@convolution_weights_symmetric TestLib scenario_loaded); reflexivity.
Defined.

(** ** The quality gates *)

Section Quality.
Context `{GmtLib}.

Lemma count_gate_good iq c :
  (count_gate iq c).(good_one) = c.(good_one) && negb (c.(n_this_col) <? iq).
Proof.
  unfold count_gate. destruct (n_this_col c <? iq); cbn;
    rewrite ?andb_false_r, ?andb_true_r; reflexivity.
Qed.

Lemma robust_gates_count F iq c :
  F.(check_asym) = false -> F.(check_q) = true ->
  (FILTER1D_CONVOLVE <? F.(filter_type))%Z = true ->
  robust_gates F iq c = count_gate iq c.
Proof. intros Ha Hq Ht. unfold robust_gates. rewrite Ha, Hq, Ht. reflexivity. Qed.

Lemma robust_gates_none F iq c :
  F.(check_asym) = false ->
  (FILTER1D_CONVOLVE <? F.(filter_type))%Z = false ->
  robust_gates F iq c = c.
Proof. intros Ha Ht. unfold robust_gates. rewrite Ha, Ht. reflexivity. Qed.

(** X12.  With the quality check on (and the asymmetry check off), a column
    of a convolution, robust or not, passes exactly when it was good after
    the lack check, at least one row of the window with a sample meets a
    coefficient, and the mean of the coefficients those rows meet is not
    below [q_factor]. *)
Theorem quality_gate_mean_weight F iq left right k i :
  F.(check_asym) = false ->
  F.(check_q) = true ->
  (FILTER1D_CONVOLVE <? F.(filter_type))%Z = false ->
  i < F.(n_cols) ->
  let T := rd F.(T_array) k in
  let used := present F i (rows_on_taps F T (window_rows left right)) in
  let good0 := (init_column F left right i).(good_one) in
  passing F iq left right k i
  = good0 && negb (length used =? 0)
    && negb (dlt (ddiv (weight_sum F T left right i) (dnat (length used)))
                 F.(q_factor)).
Proof.
  intros Ha Hq Ht Hi T used good0. unfold passing. subst good0 used.
  unfold weight_sum, dsum. set (rows := window_rows left right).
  destruct (robust F) eqn:Hr.
  - destruct (settle_columns_robust F iq left right k i Hr Ht Hi) as [w ->].
    pose proof (settle_columns_config F iq left right k) as C.
    set (F1 := (settle_columns F iq left right k).1) in *.
    rewrite (robust_gates_none F iq _ Ha Ht). fold T rows.
    destruct (good_one (init_column F left right i)) eqn:Eg.
    + rewrite (collect_col_good F T rows i _ Eg). cbn zeta.
      rewrite convolve_col_good by reflexivity. cbn zeta.
      rewrite conv_gate_good by reflexivity.
      rewrite (f_equal check_asym C : check_asym F1 = check_asym F), Ha,
        (f_equal check_q C : check_q F1 = check_q F), Hq,
        (f_equal q_factor C : q_factor F1 = q_factor F).
      cbn [negb andb n_this_col wt_sum set_n_this_col set_work init_column
             Nat.add].
      rewrite (present_config F F1 i _ C), (rows_on_taps_config F F1 T rows C).
      rewrite (map_ext_list (tap_weight F1 T) (tap_weight F T))
        by (intros x; apply tap_weight_config; exact C).
      rewrite andb_true_r. reflexivity.
    + rewrite (collect_col_bad F T rows i _ Eg).
      rewrite convolve_col_bad, conv_gate_bad by exact Eg. exact Eg.
  - destruct (settle_columns_plain F iq left right k i Hr Ht Hi) as [_ ->].
    fold T rows.
    destruct (good_one (init_column F left right i)) eqn:Eg.
    + rewrite (convolve_col_good F T rows i _ Eg). cbn zeta.
      rewrite conv_gate_good by reflexivity.
      rewrite Ha, Hq. cbn [negb andb n_this_col wt_sum init_column Nat.add].
      rewrite andb_true_r. reflexivity.
    + rewrite (convolve_col_bad F T rows i _ Eg), conv_gate_bad by exact Eg.
      exact Eg.
Qed.

(** The count the median, mode and extreme filters ask of a column, for a
    quality factor the options accept: one sample above 0.5, none up to
    0.5. *)
Lemma quality_count (q : Q) :
  (0 <= q <= 1)%Q ->
  u64 (lrint (DFin q)) = if Qltb (1 # 2) q then 1 else 0.
Proof.
  intros [H0 H1]. unfold lrint, Qrint.
  pose proof (Qfloor_le q) as F1. pose proof (Qlt_floor q) as F2.
  assert (B : (0 <= Qfloor q <= 1)%Z).
  { split.
    - change 0%Z with (Qfloor 0). apply Qfloor_resp_le. exact H0.
    - change 1%Z with (Qfloor 1). apply Qfloor_resp_le. exact H1. }
  assert (Ef : Qfloor q = 0%Z \/ Qfloor q = 1%Z) by lia.
  destruct Ef as [Ef|Ef]; rewrite Ef in *; cbn [Z.even Z.add].
  - change (inject_Z 0) with 0%Q in *.
    destruct (Qltb (1 # 2) q) eqn:E.
    + apply Qltb_lt in E.
      replace (q - 0 ?= 1 # 2)%Q with Gt; [reflexivity|].
      symmetry. apply (proj1 (Qgt_alt _ _)). lra.
    + apply Qltb_ge in E.
      destruct (q - 0 ?= 1 # 2)%Q eqn:Ec; try reflexivity.
      apply (proj2 (Qgt_alt _ _)) in Ec. lra.
  - change (inject_Z 1) with 1%Q in *.
    assert (Eq1 : (q == 1)%Q) by lra.
    replace (Qltb (1 # 2) q) with true
      by (symmetry; apply Qltb_lt; lra).
    replace (q - 1 ?= 1 # 2)%Q with Lt; [reflexivity|].
    symmetry. apply (proj1 (Qlt_alt _ _)). lra.
Qed.

(** X13.  For the median, mode and extreme filters the quality check (with
    the asymmetry check off) asks for [lrint (q_factor)] samples in the
    window.  With a factor between 0 and 1, as the options require, that is
    one sample if the factor exceeds 0.5 and none otherwise: the check then
    rejects a column only if the factor exceeds 0.5 and the column has no
    sample in the window. *)
Theorem median_quality_gate_counts F left right k i (q : Q) :
  F.(check_asym) = false ->
  F.(check_q) = true ->
  (FILTER1D_CONVOLVE <? F.(filter_type))%Z = true ->
  i < F.(n_cols) ->
  F.(q_factor) = DFin q ->
  (0 <= q <= 1)%Q ->
  let iq := u64 (lrint F.(q_factor)) in
  let samples := present F i (window_rows left right) in
  let good0 := (init_column F left right i).(good_one) in
  passing F iq left right k i
  = good0 && negb (Qltb (1 # 2) q && (length samples =? 0)).
Proof.
  intros Ha Hq Ht Hi Hf Hr iq samples good0. unfold passing.
  destruct (settle_columns_nonconv F iq left right k i Ht Hi) as [w ->].
  rewrite (robust_gates_count F iq _ Ha Hq Ht).
  change (good_one (set_work w ?c)) with (good_one c).
  rewrite count_gate_good. subst good0 samples.
  set (T := rd (T_array F) k). set (rows := window_rows left right).
  destruct (good_one (init_column F left right i)) eqn:Eg.
  - rewrite (collect_col_good F T rows i _ Eg). cbn zeta.
    cbn [good_one n_this_col init_column Nat.add andb].
    unfold iq. rewrite Hf, (quality_count q Hr).
    destruct (Qltb (1 # 2) q); cbn [andb].
    + destruct (length (present F i rows)); reflexivity.
    + reflexivity.
  - rewrite (collect_col_bad F T rows i _ Eg). rewrite Eg. reflexivity.
Qed.

(** X14.  The asymmetry ratio lies between 0 and 1: a symmetry coefficient
    of 1 or more never rejects a column, a coefficient of 0 rejects exactly
    the columns with unequal counts on the two sides, and a column rejected
    for one coefficient is rejected for every smaller one. *)
Theorem asymmetry_ratio_bounds F F' c (s s' : Q) :
  F.(sym_coeff) = DFin s ->
  F'.(sym_coeff) = DFin s' ->
  ((1 <= s)%Q -> asymmetric F c = false)
  /\ ((s == 0)%Q -> asymmetric F c = negb (c.(n_left) =? c.(n_right)))
  /\ ((s' <= s)%Q -> asymmetric F c = true -> asymmetric F' c = true).
Proof.
  intros Hs Hs'. unfold asymmetric. rewrite Hs, Hs'.
  set (nl := n_left c). set (nr := n_right c).
  set (diff := if nr <=? nl then nl - nr else nr - nl).
  assert (Hd : diff <= nl + nr /\ (diff = 0 <-> nl = nr)).
  { unfold diff. destruct (Nat.leb_spec nr nl); lia. }
  destruct Hd as [Hd Hz]. unfold ddiv, dnat, dZ.
  destruct (Qzero (inject_Z (Z.of_nat (nl + nr)))) eqn:E0.
  - assert (E1 : nl + nr = 0).
    { unfold Qzero in E0.
      destruct (inject_Z (Z.of_nat (nl + nr)) ?= 0)%Q eqn:Ec; try discriminate.
      apply (proj2 (Qeq_alt _ _)) in Ec. unfold Qeq in Ec. cbn in Ec. lia. }
    assert (E2 : diff = 0) by lia. rewrite E2.
    change (Qzero (inject_Z (Z.of_nat 0))) with true. cbv iota.
    assert (nl = nr) as -> by lia. rewrite Nat.eqb_refl.
    split; [|split]; [reflexivity..|]. intros _ Hr. discriminate Hr.
  - assert (Hpos : (0 < inject_Z (Z.of_nat (nl + nr)))%Q).
    { assert (nl + nr <> 0).
      { intros E. rewrite E in E0. discriminate. }
      change 0%Q with (inject_Z 0). rewrite <- Zlt_Qlt. lia. }
    assert (Hle : (inject_Z (Z.of_nat diff) / inject_Z (Z.of_nat (nl + nr))
                   <= 1)%Q).
    { apply Qle_shift_div_r; [exact Hpos|].
      rewrite Qmult_1_l, <- Zle_Qle. lia. }
    assert (Hge : (0 <= inject_Z (Z.of_nat diff)
                        / inject_Z (Z.of_nat (nl + nr)))%Q).
    { apply Qle_shift_div_l; [exact Hpos|].
      rewrite Qmult_0_l. change 0%Q with (inject_Z 0). rewrite <- Zle_Qle.
      lia. }
    split; [|split].
    + intros H1. apply dgt_fin_false. lra.
    + intros H0. destruct (Nat.eqb_spec nl nr) as [En|En]; cbn [negb].
      * assert (Ed : diff = 0) by (apply Hz; exact En). rewrite Ed.
        apply dgt_fin_false. rewrite H0.
        change (inject_Z (Z.of_nat 0)) with 0%Q. unfold Qdiv.
        rewrite Qmult_0_l. apply Qle_refl.
      * apply dgt_fin. rewrite H0.
        apply Qlt_shift_div_l; [exact Hpos|]. rewrite Qmult_0_l.
        change 0%Q with (inject_Z 0). rewrite <- Zlt_Qlt.
        assert (diff <> 0) by (intros E; apply En, Hz, E). lia.
    + intros Hss Hr. apply dgt_fin in Hr. apply dgt_fin. lra.
Qed.

End Quality.

Lemma quality_gate_mean_weight_witness :
  @passing TestLib quality_start.1.1 0 0 3 1 1
  = (init_column quality_start.1.1 0 3 1).(good_one)
    && negb (length (present quality_start.1.1 1
                       (rows_on_taps quality_start.1.1
                          (rd quality_start.1.1.(T_array) 1)
                          (window_rows 0 3))) =? 0)
    && negb (dlt (ddiv (weight_sum quality_start.1.1
                          (rd quality_start.1.1.(T_array) 1) 0 3 1)
                       (dnat (length (present quality_start.1.1 1
                                        (rows_on_taps quality_start.1.1
                                           (rd quality_start.1.1.(T_array) 1)
                                           (window_rows 0 3))))))
                 quality_start.1.1.(q_factor)).
Proof.
  apply (@quality_gate_mean_weight TestLib quality_start.1.1 0 0 3 1 1);
    try reflexivity.
  cbn. lia.
Defined.

Lemma median_quality_gate_counts_witness :
  @passing TestLib median_quality_start.1.1
    (u64 (lrint median_quality_start.1.1.(q_factor))) 0 3 1 1
  = (init_column median_quality_start.1.1 0 3 1).(good_one)
    && negb (Qltb (1 # 2) (3 # 4)
             && (length (present median_quality_start.1.1 1 (window_rows 0 3))
                 =? 0)).
Proof.
  apply (@median_quality_gate_counts TestLib median_quality_start.1.1
           0 3 1 1 (3 # 4)); try reflexivity.
  - cbn. lia.
  - split; apply Qle_bool_iff; reflexivity.
Defined.

Lemma asymmetry_ratio_bounds_witness :
  ((1 <= 1 # 2)%Q ->
   asymmetric sym_start.1.1 (mkColumn 0 3 0 [] true d0 d0) = false)
  /\ ((1 # 2 == 0)%Q ->
      asymmetric sym_start.1.1 (mkColumn 0 3 0 [] true d0 d0)
      = negb (3 =? 0))
  /\ ((0 <= 1 # 2)%Q ->
      asymmetric sym_start.1.1 (mkColumn 0 3 0 [] true d0 d0) = true ->
      asymmetric scenario_prepared (mkColumn 0 3 0 [] true d0 d0) = true).
Proof.
  apply (asymmetry_ratio_bounds sym_start.1.1 scenario_prepared
           (mkColumn 0 3 0 [] true d0 d0) (1 # 2) 0); reflexivity.
Defined.

(** ** The median and the extreme-value filters *)

Section Median.
Context `{GmtLib}.

Lemma locations_here F w j n :
  (F.(filter_type) =? FILTER1D_MODE)%Z = false ->
  j < length F.(this_loc) -> j < length F.(last_loc) ->
  let R := filter1d_get_robust_estimates F w j n false in
  rd R.1.(this_loc) j = window_location F (take n w) j
  /\ rd R.1.(last_loc) j = window_location F (take n w) j
  /\ rd R.1.(this_scl) j = rd F.(this_scl) j
  /\ rd R.1.(last_scl) j = rd F.(last_scl) j
  /\ R.2 = w.
Proof.
  intros Hm H1 H2. unfold filter1d_get_robust_estimates, window_location, rd.
  rewrite Hm. destruct (FILTER1D_MODE <? filter_type F)%Z; cbn;
    rewrite (list_lookup_total_insert_eq (this_loc F)) by assumption;
    rewrite (list_lookup_total_insert_eq (last_loc F)) by assumption;
    repeat split; reflexivity.
Qed.

Lemma window_location_same F F' W q :
  config F' = config F ->
  rd F'.(last_loc) q = rd F.(last_loc) q ->
  window_location F' W q = window_location F W q.
Proof.
  intros C E. unfold window_location.
  rewrite (f_equal filter_type C : filter_type F' = filter_type F),
    (f_equal extreme C : extreme F' = extreme F),
    (f_equal kind C : kind F' = kind F), (f_equal way C : way F' = way F),
    (f_equal min_loc C : min_loc F' = min_loc F),
    (f_equal max_loc C : max_loc F' = max_loc F), E.
  reflexivity.
Qed.

(** The loop over the columns of a median or extreme-value filter: a good
    column gets the location of its own work array, the others keep what
    they held. *)
Lemma estimate_columns_locations cols : forall F j n,
  F.(robust) = false ->
  (F.(filter_type) =? FILTER1D_MODE)%Z = false ->
  length F.(this_loc) = n -> length F.(last_loc) = n ->
  j + length cols <= n ->
  let F' := (estimate_columns F j cols).1 in
  (length F'.(this_loc) = n /\ length F'.(last_loc) = n)
  /\ (forall q, q < j -> estimates_at F' q = estimates_at F q)
  /\ (forall p c, cols !! p = Some c -> c.(good_one) = true ->
        let W := take c.(n_this_col) c.(work) in
        rd F'.(this_loc) (j + p) = window_location F W (j + p)
        /\ rd F'.(last_loc) (j + p) = window_location F W (j + p)
        /\ rd F'.(this_scl) (j + p) = rd F.(this_scl) (j + p)
        /\ rd F'.(last_scl) (j + p) = rd F.(last_scl) (j + p))
  /\ (forall p c, cols !! p = Some c -> c.(good_one) = false ->
        estimates_at F' (j + p) = estimates_at F (j + p)).
Proof.
  induction cols as [| c0 cols IH]; intros F j n Hr Hm L1 L2 Hn.
  - cbn. repeat split; auto; intros; discriminate.
  - cbn [estimate_columns]. cbn [length] in Hn.
    destruct (good_one c0) eqn:Eg.
    + rewrite Hr.
      pose proof (get_robust_estimates_config F (work c0) j (n_this_col c0) false) as C.
      pose proof (estimates_lengths F (work c0) j (n_this_col c0) false)
        as (M1 & M2 & _ & _).
      pose proof (fun j' => estimates_elsewhere F (work c0) j (n_this_col c0) false j') as Eo.
      pose proof (locations_here F (work c0) j (n_this_col c0) Hm
                    ltac:(lia) ltac:(lia)) as Eh.
      destruct (filter1d_get_robust_estimates F (work c0) j (n_this_col c0) false)
        as [F1 w1]. cbn [fst snd] in *. cbn zeta in Eh.
      specialize (IH F1 (S j) n
        ltac:(rewrite (f_equal robust C : robust F1 = robust F); exact Hr)
        ltac:(rewrite (f_equal filter_type C : filter_type F1 = filter_type F); exact Hm)
        ltac:(lia) ltac:(lia) ltac:(lia)).
      destruct (estimate_columns F1 (S j) cols) as [F2 cs]. cbn [fst] in *.
      destruct IH as (IHl & IHq & IHp & IHb).
      split; [exact IHl |]. split; [|split].
      * intros q Hq. rewrite IHq by lia. apply Eo. lia.
      * intros [| p] c Hc Hg; cbn in Hc.
        -- injection Hc as <-. rewrite Nat.add_0_r.
           pose proof (IHq j ltac:(lia)) as Ej. unfold estimates_at in Ej.
           injection Ej as -> -> -> ->.
           destruct Eh as (E1 & E2 & E3 & E4 & _). cbn zeta.
           repeat split; assumption.
        -- specialize (IHp p c Hc Hg). cbn zeta in IHp.
           replace (j + S p) with (S j + p) by lia.
           destruct IHp as (P1 & P2 & P3 & P4).
           pose proof (Eo (S j + p) ltac:(lia)) as Ee. unfold estimates_at in Ee.
           injection Ee as E1 E2 E3 E4.
           cbn zeta. split; [|split; [|split]].
           ++ rewrite P1. apply (window_location_same F F1 _ _ C E2).
           ++ rewrite P2. apply (window_location_same F F1 _ _ C E2).
           ++ rewrite P3. exact E3.
           ++ rewrite P4. exact E4.
      * intros [| p] c Hc Hg; cbn in Hc.
        -- injection Hc as <-. congruence.
        -- replace (j + S p) with (S j + p) by lia.
           rewrite (IHb p c Hc Hg). apply Eo. lia.
    + specialize (IH F (S j) n Hr Hm L1 L2 ltac:(lia)).
      destruct (estimate_columns F (S j) cols) as [F2 cs]. cbn [fst] in *.
      destruct IH as (IHl & IHq & IHp & IHb).
      split; [exact IHl |]. split; [|split].
      * intros q Hq. apply IHq. lia.
      * intros [| p] c Hc Hg; cbn in Hc.
        -- injection Hc as <-. congruence.
        -- replace (j + S p) with (S j + p) by lia. apply IHp; assumption.
      * intros [| p] c Hc Hg; cbn in Hc.
        -- rewrite Nat.add_0_r. apply IHq. lia.
        -- replace (j + S p) with (S j + p) by lia. apply (IHb p c); assumption.
Qed.

End Median.

Section MedianPoint.
Context `{GmtLib}.

(** X15.  At an output point of the median filter or of an extreme-value
    filter, a column that passes gets as location the median (or the extreme
    value) of the samples of the window that are not NaN; the location is
    kept as the starting point of the next output point and is what the
    record holds for the column (subtracted from the input sample for a
    highpass filter).  A column that does not pass keeps the estimates it
    had. *)
Theorem median_filter_output F iq left right k i :
  F.(robust) = false ->
  (FILTER1D_CONVOLVE <? F.(filter_type))%Z = true ->
  (F.(filter_type) =? FILTER1D_MODE)%Z = false ->
  length F.(this_loc) = F.(n_cols) -> length F.(last_loc) = F.(n_cols) ->
  i < F.(n_cols) ->
  let W := map (rd2 F.(data) i) (present F i (window_rows left right)) in
  let loc := window_location F W i in
  let F1 := (settle_columns F iq left right k).1 in
  (passing F iq left right k i = true ->
   rd F1.(this_loc) i = loc /\ rd F1.(last_loc) i = loc
   /\ (i <> F.(t_col) ->
       exists rec,
         (filter_point F iq left right k).2 = Some rec
         /\ rec !! i = Some (pass_value F i k loc)))
  /\ (passing F iq left right k i = false ->
      estimates_at F1 i = estimates_at F i).
Proof.
  intros Hr Ht Hm L1 L2 Hi W loc F1.
  set (T := rd F.(T_array) k). set (rows := window_rows left right).
  set (c0 := init_column F left right i).
  set (cC := collect_col F T rows i c0).
  destruct (settle_columns_nonconv F iq left right k i Ht Hi) as [w Hc].
  fold T rows c0 cC in Hc.
  pose proof (settle_columns_config F iq left right k) as C. fold F1 in C.
  assert (Hpass : passing F iq left right k i = good_one (robust_gates F iq cC)).
  { unfold passing. rewrite Hc. reflexivity. }
  (* the estimates after the loop over the columns *)
  assert (Est :
    (good_one (robust_gates F iq cC) = true ->
     rd F1.(this_loc) i = loc /\ rd F1.(last_loc) i = loc)
    /\ (good_one (robust_gates F iq cC) = false ->
        estimates_at F1 i = estimates_at F i)).
  { unfold F1, settle_columns. rewrite Ht, orb_true_r. fold T.
    rewrite robust_work_gates.
    pose proof (estimate_columns_locations
      (map (robust_gates F iq)
         (collect_rows F T left right (init_columns F left right)))
      F 0 (n_cols F) Hr Hm L1 L2) as E.
    rewrite length_map in E. unfold collect_rows in E at 1.
    rewrite fold_imap_length, init_columns_length in E.
    specialize (E ltac:(lia)). cbn zeta in E. destruct E as (_ & _ & Eg & Eb).
    specialize (Eg i (robust_gates F iq cC)).
    specialize (Eb i (robust_gates F iq cC)).
    rewrite list_lookup_fmap, collect_rows_lookup,
      (init_columns_lookup F left right i Hi) in Eg, Eb.
    specialize (Eg eq_refl). specialize (Eb eq_refl). cbn [Nat.add] in Eg, Eb.
    destruct (estimate_columns F 0 _) as [G cols1]. cbn [fst] in *.
    assert (EG : (if (FILTER1D_CONVOLVE <? filter_type G)%Z
                  then (G, cols1)
                  else (G, map (conv_gate G)
                             (convolve_rows G T left right
                                (if robust G
                                 then map (set_n_this_col 0) cols1
                                 else cols1)))).1 = G).
    { destruct (FILTER1D_CONVOLVE <? filter_type G)%Z; reflexivity. }
    rewrite EG. split; [|exact Eb].
    intros Hg. destruct (Eg Hg) as (E1 & E2 & _).
    assert (EW : take (n_this_col (robust_gates F iq cC))
                   (work (robust_gates F iq cC)) = W).
    { rewrite (robust_gates_passing F iq cC Hg).
      destruct (good_one c0) eqn:Eg0.
      - unfold cC. rewrite (collect_col_good F T rows i c0 Eg0). cbn zeta.
        cbn [n_this_col work]. unfold c0. cbn [init_column work app].
        apply take_ge. unfold W. rewrite length_map. cbn. fold rows. lia.
      - unfold cC in Hg. rewrite (collect_col_bad F T rows i c0 Eg0) in Hg.
        rewrite robust_gates_bad in Hg by exact Eg0. discriminate. }
    rewrite EW in E1, E2. split; assumption. }
  destruct Est as [Eg Eb]. rewrite Hpass. split; [|exact Eb].
  intros Hg. destruct (Eg Hg) as [E1 E2]. split; [exact E1|].
  split; [exact E2|]. intros Hne.
  destruct (filter_point_record F iq left right k) as [Hnone _].
  destruct ((filter_point F iq left right k).2) as [rec|] eqn:Er.
  2:{ pose proof (proj1 Hnone eq_refl i Hne). congruence. }
  exists rec. split; [reflexivity|].
  unfold filter_point in Er. unfold F1 in *.
  destruct (settle_columns F iq left right k) as [G cols]. cbn [fst snd] in *.
  unfold emit_record in Er.
  rewrite (f_equal filter_type C : filter_type G = filter_type F), Ht in Er.
  unfold emit_nonconv in Er. apply if_some_inv in Er. subst rec.
  rewrite list_lookup_imap, Hc. cbn. unfold nonconv_value, pass_value.
  apply Nat.eqb_neq in Hne.
  rewrite (f_equal t_col C : t_col G = t_col F), Hne.
  change (good_one (set_work w (robust_gates F iq cC)))
    with (good_one (robust_gates F iq cC)).
  rewrite Hg, E1, (f_equal highpass C : highpass G = highpass F),
    (f_equal data C : data G = data F).
  reflexivity.
Qed.

End MedianPoint.

Lemma median_filter_output_witness :
  rd (@settle_columns TestLib median_start.1.1 0 0 3 1).1.(this_loc) 1
  = @window_location TestLib median_start.1.1
      (map (rd2 median_start.1.1.(data) 1)
         (present median_start.1.1 1 (window_rows 0 3))) 1
  /\ rd (@settle_columns TestLib median_start.1.1 0 0 3 1).1.(last_loc) 1
     = @window_location TestLib median_start.1.1
         (map (rd2 median_start.1.1.(data) 1)
            (present median_start.1.1 1 (window_rows 0 3))) 1
  /\ (1 <> median_start.1.1.(t_col) ->
      exists rec,
        (@filter_point TestLib median_start.1.1 0 0 3 1).2 = Some rec
        /\ rec !! 1
           = Some (pass_value median_start.1.1 1 1
                     (@window_location TestLib median_start.1.1
                        (map (rd2 median_start.1.1.(data) 1)
                           (present median_start.1.1 1 (window_rows 0 3)))
                        1))).
Proof.
  refine (proj1 (@median_filter_output TestLib median_start.1.1 0 0 3 1 1
                   _ _ _ _ _ _) _); try reflexivity.
  cbn. lia.
Defined.

(** ** The run of [filter1d_do_the_filter] *)

Section Outcome.
Context `{GmtLib}.

Lemma set_up_range_loop_view t_0 t_1 F :
  loop_view (set_up_range t_0 t_1 F) = loop_view F.
Proof.
  unfold set_up_range.
  destruct (out_at_time F); [destruct (negb (use_ends F))|destruct (use_ends F)];
    reflexivity.
Qed.

Lemma set_up_coefficients_loop_view F :
  loop_view (set_up_coefficients F) = loop_view F.
Proof.
  unfold set_up_coefficients.
  destruct (filter_type F =? FILTER1D_CUSTOM)%Z; [reflexivity|].
  destruct (filter_type F <=? FILTER1D_CONVOLVE)%Z; reflexivity.
Qed.

Lemma set_up_filter_loop_view F :
  loop_view (filter1d_set_up_filter F) = loop_view F.
Proof.
  unfold filter1d_set_up_filter.
  rewrite set_up_range_loop_view, set_up_coefficients_loop_view.
  destruct (equidist F); reflexivity.
Qed.

Lemma config_loop_view F F' : config F' = config F -> loop_view F' = loop_view F.
Proof.
  intros C. unfold loop_view.
  rewrite (f_equal variable C : variable F' = variable F),
    (f_equal ft C : ft F' = ft F), (f_equal fw C : fw F' = fw F),
    (f_equal T_array C : T_array F' = T_array F),
    (f_equal n_cols C : n_cols F' = n_cols F),
    (f_equal t_col C : t_col F' = t_col F).
  reflexivity.
Qed.

Lemma filter_window_record F small iq left right k F' l r rec :
  filter_window F small iq left right k = Next F' l r rec ->
  loop_view F' = loop_view F
  /\ forall r0, rec = Some r0 ->
       length r0 = F.(n_cols)
       /\ (F.(t_col) < F.(n_cols) ->
           r0 !! F.(t_col) = Some (rd F.(T_array) k)).
Proof.
  intros E. destruct (filter_window_config _ _ _ _ _ _ _ _ _ _ E) as (C & _ & _).
  split; [apply config_loop_view, C|].
  intros r0 ->. apply filter_window_some in E.
  destruct (filter_point_record F iq l r k) as [_ Hr].
  destruct (Hr r0 E) as (A & B & _). split; assumption.
Qed.

Lemma filter_step_record F small iq left right k F' l r rec :
  filter_step F small iq left right k = Next F' l r rec ->
  loop_view F' = loop_view F
  /\ forall r0, rec = Some r0 ->
       length r0 = F.(n_cols)
       /\ (F.(t_col) < F.(n_cols) ->
           r0 !! F.(t_col) = Some (rd F.(T_array) k)).
Proof.
  unfold filter_step. destruct (variable F) eqn:Ev.
  - destruct (dlt _ _ || dgt _ _).
    + intros [= <- <- <- <-]. split; [reflexivity|discriminate].
    + destruct (gmt_intpol _ _ _) as [width|]; [|discriminate].
      set (F1 := filter1d_set_up_filter (set_filter_width width F)).
      assert (V1 : loop_view F1 = loop_view F).
      { unfold F1. rewrite set_up_filter_loop_view. reflexivity. }
      assert (ET : T_array F1 = T_array F /\ n_cols F1 = n_cols F
                   /\ t_col F1 = t_col F).
      { unfold loop_view in V1. injection V1 as _ _ _ -> -> ->.
        repeat split; reflexivity. }
      destruct ET as (ET & EN & EC).
      destruct (dlt _ (t_start F1) || dgt _ (t_stop F1)).
      * intros [= <- <- <- <-]. split; [exact V1|discriminate].
      * rewrite <- ET. intros E.
        destruct (filter_window_record _ _ _ _ _ _ _ _ _ _ E) as [V R].
        split; [congruence|]. rewrite <- EN, <- EC. exact R.
  - apply filter_window_record.
Qed.

Lemma width_fails_view F F' k :
  loop_view F' = loop_view F -> width_fails F' k = width_fails F k.
Proof.
  intros V. unfold loop_view in V. injection V as E1 E2 E3 E4 _ _.
  unfold width_fails. rewrite E1, E2, E3, E4. reflexivity.
Qed.

Lemma filter_step_retry F small iq left right k :
  filter_step F small iq left right k = Retry <-> width_fails F k = true.
Proof.
  unfold filter_step, width_fails. destruct (variable F); cbn [andb].
  - destruct (dlt _ _ || dgt _ _); cbn [negb andb];
      [split; discriminate|].
    destruct (gmt_intpol _ _ _) as [width|]; [|split; reflexivity].
    split; [|discriminate].
    destruct (dlt _ _ || dgt _ _); [discriminate|].
    destruct (filter_window_next
                (filter1d_set_up_filter (set_filter_width width F))
                small iq left right k) as (F' & l & r & rec & E).
    rewrite E. discriminate.
  - destruct (filter_window_next F small iq left right k)
      as (F' & l & r & rec & ->).
    split; discriminate.
Qed.

Lemma existsb_pointwise {A : Type} (f g : A -> bool) (l : list A) :
  (forall x, f x = g x) -> existsb f l = existsb g l.
Proof.
  intros E. induction l as [|x l IH]; cbn; [reflexivity|].
  rewrite E, IH. reflexivity.
Qed.

(** The records of a run, finished or not: one for every output point at
    most, in the order of the output points. *)
Lemma filter_loop_order small iq : forall turns F left right k out records,
  (filter_loop turns F small iq left right k out = Hangs records
   \/ exists F', filter_loop turns F small iq left right k out
                 = Finished F' records) ->
  F.(t_col) < F.(n_cols) ->
  exists recs,
    records = out ++ recs
    /\ Forall (fun rec => length rec = F.(n_cols)) recs
    /\ sublist (map (record_time F) recs)
         (map (rd F.(T_array)) (seq k turns)).
Proof.
  induction turns as [|turns IH]; intros F left right k out records Hrun Htc.
  - cbn [filter_loop] in Hrun. destruct Hrun as [Hrun|[F' Hrun]];
      [discriminate|]. injection Hrun as _ <-.
    exists []. rewrite app_nil_r. repeat split; constructor.
  - cbn [filter_loop] in Hrun.
    destruct (filter_step F small iq left right k) as [F1 l r rec|] eqn:Es.
    + destruct (filter_step_record _ _ _ _ _ _ _ _ _ _ Es) as [V R].
      assert (EV : T_array F1 = T_array F /\ n_cols F1 = n_cols F
                   /\ t_col F1 = t_col F).
      { unfold loop_view in V. injection V as _ _ _ -> -> ->.
        repeat split; reflexivity. }
      destruct EV as (ET & EN & EC).
      destruct (IH F1 l r (S k) _ records Hrun ltac:(lia))
        as (recs & -> & Hlen & Hsub).
      rewrite ET, EN in *.
      assert (Et : forall x, record_time F1 x = record_time F x).
      { intros x. unfold record_time. rewrite EC. reflexivity. }
      rewrite (map_ext_list _ _ recs Et) in Hsub.
      destruct rec as [r0|].
      * destruct (R r0 eq_refl) as [Rl Rt].
        exists (r0 :: recs). rewrite <- app_assoc. split; [reflexivity|].
        split; [constructor; assumption|].
        cbn [map seq]. unfold record_time at 1. unfold rd at 1.
        rewrite (list_lookup_total_correct _ _ _ (Rt Htc)).
        apply sublist_skip. exact Hsub.
      * exists recs. rewrite app_nil_r. split; [reflexivity|].
        split; [exact Hlen|]. cbn [map seq]. apply sublist_cons. exact Hsub.
    + destruct Hrun as [Hrun|[F' Hrun]]; [|discriminate].
      injection Hrun as <-. exists []. rewrite app_nil_r.
      repeat split; [constructor|]. apply sublist_nil_l.
Qed.

(** How the loop ends. *)
Lemma filter_loop_outcome small iq : forall turns F left right k out,
  if existsb (width_fails F) (seq k turns)
  then exists records,
         filter_loop turns F small iq left right k out = Hangs records
  else exists F' records,
         filter_loop turns F small iq left right k out = Finished F' records
         /\ (F.(variable) = false -> config F' = config F).
Proof.
  induction turns as [|turns IH]; intros F left right k out.
  - cbn. exists F, out. split; reflexivity.
  - cbn [seq existsb filter_loop].
    destruct (width_fails F k) eqn:Ew; cbn [orb].
    + apply filter_step_retry with (small := small) (iq := iq)
        (left := left) (right := right) in Ew.
      rewrite Ew. exists out. reflexivity.
    + destruct (filter_step F small iq left right k) as [F1 l r rec|] eqn:Es.
      2:{ apply filter_step_retry in Es. congruence. }
      destruct (filter_step_record _ _ _ _ _ _ _ _ _ _ Es) as [V _].
      specialize (IH F1 l r (S k)
                    (out ++ match rec with Some r0 => [r0] | None => [] end)).
      rewrite (existsb_pointwise (width_fails F1) (width_fails F))
        in IH by (intros x; apply width_fails_view, V).
      destruct (existsb (width_fails F) (seq (S k) turns)); [exact IH|].
      destruct IH as (F' & records & E & C).
      exists F', records. split; [exact E|]. intros Hv.
      assert (Hv1 : variable F1 = false).
      { unfold loop_view in V. injection V as -> _ _ _ _ _. exact Hv. }
      rewrite (C Hv1). unfold filter_step in Es. rewrite Hv in Es.
      destruct (filter_window_config _ _ _ _ _ _ _ _ _ _ Es) as (C1 & _).
      exact C1.
Qed.

(** X16.  The records of a run, whether it ends or not, follow the output
    times: every record has one cell per column, holds an output time in
    the time column, and the records come in the order of the output points,
    one for each point at most. *)
Theorem records_follow_output_times F F0 k0 last_k records :
  output_plan F = Some (F0, k0, last_k) ->
  F0.(T_array) <> [] ->
  F.(t_col) < F.(n_cols) ->
  (filter1d_do_the_filter F = Hangs records
   \/ exists F', filter1d_do_the_filter F = Finished F' records) ->
  Forall (fun rec => length rec = F.(n_cols)) records
  /\ sublist (map (record_time F) records)
       (map (rd F0.(T_array)) (seq k0 (S last_k - k0))).
Proof.
  intros Hp _ Htc Hrun. unfold filter1d_do_the_filter in Hrun.
  rewrite Hp in Hrun.
  assert (E0 : n_cols F0 = n_cols F /\ t_col F0 = t_col F).
  { unfold output_plan in Hp. destruct (out_at_time F).
    - destruct (gmt_create_array _ _ _); [|discriminate].
      injection Hp as <- _ _. split; reflexivity.
    - injection Hp as <- _ _. split; reflexivity. }
  destruct E0 as [EN EC].
  destruct (filter_loop_order _ _ _ F0 0 0 k0 [] records Hrun ltac:(lia))
    as (recs & -> & Hl & Hs).
  rewrite EN in Hl. cbn [app].
  rewrite (map_ext_list _ (record_time F) recs) in Hs
    by (intros x; unfold record_time; rewrite EC; reflexivity).
  split; assumption.
Qed.

(** X17.  How a run ends.  It returns the runtime error when the array of
    output times cannot be made.  With output times, it fails to end if the
    width is read from a table and, at one of the output points inside the
    times of the table, the interpolation of the width fails: that turn of
    the loop is repeated for ever.  In every other case it ends, and with a
    width that is not variable it leaves the structure as it was but for
    the estimates. *)
Theorem run_outcomes F :
  (output_plan F = None -> filter1d_do_the_filter F = RuntimeError)
  /\ forall F0 k0 last_k,
       output_plan F = Some (F0, k0, last_k) ->
       F0.(T_array) <> [] ->
       if existsb (width_fails F0) (seq k0 (S last_k - k0))
       then exists records, filter1d_do_the_filter F = Hangs records
       else exists F' records,
              filter1d_do_the_filter F = Finished F' records
              /\ (F.(variable) = false -> config F' = config F0).
Proof.
  unfold filter1d_do_the_filter. split; [intros ->; reflexivity|].
  intros F0 k0 last_k Hp _. rewrite Hp.
  pose proof (filter_loop_outcome (window_tolerance F0) (u64 (lrint (q_factor F)))
                (S last_k - k0) F0 0 0 k0 []) as L.
  destruct (existsb (width_fails F0) (seq k0 (S last_k - k0))); [exact L|].
  destruct L as (F' & records & E & C). exists F', records.
  split; [exact E|]. intros Hv. apply C.
  unfold output_plan in Hp. destruct (out_at_time F).
  - destruct (gmt_create_array _ _ _); [|discriminate].
    injection Hp as <- _ _. exact Hv.
  - injection Hp as <- _ _. exact Hv.
Qed.

End Outcome.

Lemma records_follow_output_times_witness :
  Forall (fun rec => length rec = scenario_prepared.(n_cols))
    [[DFin 1; DFin (6 # 3)]; [DFin 2; DFin (9 # 3)]; [DFin 3; DFin (12 # 3)]]
  /\ sublist
       (map (record_time scenario_prepared)
          [[DFin 1; DFin (6 # 3)]; [DFin 2; DFin (9 # 3)];
           [DFin 3; DFin (12 # 3)]])
       (map (rd scenario_start.1.1.(T_array)) (seq 1 (S 3 - 1))).
Proof.
  apply (@records_follow_output_times TestLib scenario_prepared
           scenario_start.1.1 1 3).
  - vm_compute. reflexivity.
  - discriminate.
  - cbn. lia.
  - right. eexists. vm_compute. reflexivity.
Defined.

Lemma run_outcomes_witness :
  exists F' records,
    @filter1d_do_the_filter TestLib scenario_prepared = Finished F' records
    /\ (scenario_prepared.(variable) = false ->
        config F' = config scenario_start.1.1).
Proof.
  exact (proj2 (@run_outcomes TestLib scenario_prepared)
           scenario_start.1.1 1 3 eq_refl ltac:(discriminate)).
Defined.

(** ** From the options to a loaded segment *)

Lemma select_filter_frame Ctrl coeffs F :
  let G := select_filter Ctrl coeffs F in
  G.(n_cols) = F.(n_cols) /\ G.(n_row_alloc) = F.(n_row_alloc)
  /\ (G.(robust) = true -> (G.(filter_type) <= FILTER1D_CONVOLVE)%Z).
Proof.
  unfold select_filter.
  repeat match goal with
         | |- context [if Ascii.eqb ?a ?b then _ else _] =>
             destruct (Ascii.eqb a b)
         end;
    cbn; repeat split; try reflexivity; intros Hr;
    first [discriminate Hr | apply Z.leb_le; reflexivity].
Qed.

Lemma allocate_space_frame F :
  let G := filter1d_allocate_space F in
  G.(n_cols) = F.(n_cols) /\ G.(n_row_alloc) = F.(n_row_alloc)
  /\ G.(robust) = F.(robust) /\ G.(filter_type) = F.(filter_type)
  /\ G.(data) = replicate F.(n_cols) []
  /\ (F.(robust) || (FILTER1D_CONVOLVE <? F.(filter_type))%Z = true ->
      G.(min_loc) = replicate F.(n_cols) d0
      /\ G.(max_loc) = replicate F.(n_cols) d0
      /\ G.(last_loc) = replicate F.(n_cols) d0
      /\ G.(this_loc) = replicate F.(n_cols) d0
      /\ G.(min_scl) = replicate F.(n_cols) d0
      /\ G.(max_scl) = replicate F.(n_cols) d0
      /\ G.(last_scl) = replicate F.(n_cols) d0
      /\ G.(this_scl) = replicate F.(n_cols) d0).
Proof.
  unfold filter1d_allocate_space.
  destruct (robust F || (FILTER1D_CONVOLVE <? filter_type F)%Z);
    repeat split; try reflexivity; discriminate.
Qed.

Lemma store_row_rest Sd row F :
  let F' := store_row Sd row F in
  F'.(n_cols) = F.(n_cols) /\ F'.(n_row_alloc) = F.(n_row_alloc)
  /\ F'.(this_loc) = F.(this_loc) /\ F'.(this_scl) = F.(this_scl).
Proof.
  unfold store_row.
  destruct (robust F || (filter_type F =? FILTER1D_MEDIAN)%Z);
    repeat split; reflexivity.
Qed.

(** The row loop, whatever the times of the rows. *)
Lemma load_rows_counts Sd : forall todo F last row F',
  load_rows todo Sd F last row = Some F' ->
  F'.(n_rows) = F.(n_rows) + todo
  /\ F'.(n_cols) = F.(n_cols) /\ F'.(n_row_alloc) = F.(n_row_alloc)
  /\ F'.(robust) = F.(robust) /\ F'.(filter_type) = F.(filter_type)
  /\ F'.(this_loc) = F.(this_loc) /\ F'.(this_scl) = F.(this_scl)
  /\ length F'.(data) = length F.(data)
  /\ (forall m, rows_allocated F m -> rows_allocated F' m).
Proof.
  induction todo as [|todo IH]; intros F last row F'; cbn [load_rows].
  - intros [= <-]. repeat split; try reflexivity; [lia|tauto].
  - destruct (gmt_M_is_dnan _).
    + intros E. destruct (IH _ _ _ _ E) as (-> & -> & -> & -> & -> & -> & -> & -> & A).
      cbn. repeat split; try reflexivity; [lia|].
      intros m Hm. apply A. exact Hm.
    + destruct (dlt _ last); [discriminate|].
      intros E. destruct (IH _ _ _ _ E) as (-> & -> & -> & -> & -> & -> & -> & -> & A).
      destruct (store_row_frame Sd row F) as (_ & En & Er & Ef & _).
      destruct (store_row_rest Sd row F) as (Ec & Ea & El & Es).
      cbn zeta in En, Er, Ef, Ec, Ea, El, Es. cbn.
      rewrite En, Er, Ef, Ec, Ea, El, Es, store_row_columns.
      repeat split; try reflexivity; [lia|].
      intros m Hm. apply A. intros col c Hc. cbn in Hc.
      eapply (store_row_allocated Sd row F); eassumption.
Qed.

Lemma before_rows_rest n F :
  let G := before_rows n F in
  G.(n_cols) = F.(n_cols) /\ G.(this_loc) = F.(this_loc)
  /\ G.(this_scl) = F.(this_scl)
  /\ length G.(min_loc) = length F.(min_loc)
  /\ length G.(max_loc) = length F.(max_loc)
  /\ n <= G.(n_row_alloc).
Proof.
  unfold before_rows.
  destruct (Nat.ltb_spec (n_row_alloc F) n);
    cbn [robust filter_type filter1d_allocate_data_space set_data
           set_n_row_alloc];
    destruct (robust F || (filter_type F =? FILTER1D_MEDIAN)%Z); cbn;
    rewrite ?length_map; repeat split; try reflexivity; lia.
Qed.

Lemma init_scales_rest F :
  let F' := init_scales F in
  F'.(n_cols) = F.(n_cols) /\ F'.(robust) = F.(robust)
  /\ F'.(filter_type) = F.(filter_type)
  /\ F'.(this_loc) = F.(this_loc) /\ F'.(this_scl) = F.(this_scl)
  /\ length F'.(last_loc) = length F.(last_loc)
  /\ length F'.(min_scl) = length F.(min_scl)
  /\ length F'.(max_scl) = length F.(max_scl)
  /\ length F'.(last_scl) = length F.(last_scl).
Proof.
  unfold init_scales.
  destruct (robust F || (filter_type F =? FILTER1D_MEDIAN)%Z); cbn;
    rewrite ?length_imap, ?length_map; repeat split; reflexivity.
Qed.

(** X18.  Whatever the options and the segment, a segment that is loaded
    leaves the structure ready for the filter: the row count is that of the
    segment (rows skipped for a NaN time included), [data] has one column
    per input column, each with room for the rows, the robust flag is set
    for convolutions only, and whenever the estimates are used (a robust
    filter, or the median, mode and extreme-value filters) every array of
    bounds and estimates holds one cell per column. *)
Theorem loaded_segment_is_allocated Ctrl coeffs n Sd rows F' :
  load_segment Sd rows (filter1d_init Ctrl coeffs n) = Some F' ->
  F'.(n_rows) = rows /\ F'.(n_cols) = n /\ length F'.(data) = n
  /\ rows_allocated F' rows
  /\ (F'.(robust) = true -> (F'.(filter_type) <= FILTER1D_CONVOLVE)%Z)
  /\ (F'.(robust) || (FILTER1D_CONVOLVE <? F'.(filter_type))%Z = true ->
      estimates_allocated F'
      /\ forall col, col < n -> column_tracked F' col).
Proof.
  intros E. rewrite load_segment_rows in E.
  set (F := filter1d_init Ctrl coeffs n) in *.
  destruct (load_rows rows Sd (before_rows rows F) (dopp DBL_MAX) 0)
    as [F3|] eqn:E3; [|discriminate].
  injection E as <-.
  (* the structure before the first segment *)
  assert (HF : F.(n_cols) = n /\ F.(n_row_alloc) = 0
               /\ F.(data) = replicate n []
               /\ (F.(robust) = true -> (F.(filter_type) <= FILTER1D_CONVOLVE)%Z)
               /\ (F.(robust) || (FILTER1D_CONVOLVE <? F.(filter_type))%Z = true ->
                   length F.(min_loc) = n /\ length F.(max_loc) = n
                   /\ length F.(last_loc) = n /\ length F.(this_loc) = n
                   /\ length F.(min_scl) = n /\ length F.(max_scl) = n
                   /\ length F.(last_scl) = n /\ length F.(this_scl) = n)).
  { unfold F, filter1d_init.
    destruct (select_filter_frame Ctrl coeffs (filter1d_load_parameters Ctrl n))
      as (S1 & S2 & S3).
    destruct (allocate_space_frame
                (select_filter Ctrl coeffs (filter1d_load_parameters Ctrl n)))
      as (A1 & A2 & A3 & A4 & A5 & A6).
    cbn zeta in *. rewrite A1, A2, A3, A4, A5, S1, S2.
    split; [reflexivity|]. split; [reflexivity|]. split; [reflexivity|].
    split; [exact S3|]. intros Hu.
    destruct (A6 Hu) as (-> & -> & -> & -> & -> & -> & -> & ->).
    rewrite !length_replicate, S1. repeat split; reflexivity. }
  destruct HF as (Hn & Ha & Hd & Hr & Hu).
  destruct (before_rows_frame rows F)
    as (_ & B0 & Br & Bf & Bd & Bl & Bms & BMs & Bls & _).
  destruct (before_rows_rest rows F) as (Bn & Btl & Bts & Bm & BM & Bra).
  cbn zeta in *.
  destruct (before_rows_allocated rows F) as [Hal _].
  { intros col c Hc. rewrite Ha. lia. }
  cbn zeta in Hal.
  destruct (load_rows_counts Sd _ _ _ _ _ E3)
    as (L1 & L2 & L3 & L4 & L5 & L6 & L7 & L8 & L9).
  destruct (load_rows_frame Sd _ _ _ _ _ E3) as (_ & _ & Kl & Kms & KMs & Kls).
  destruct (load_rows_lengths Sd _ _ _ _ _ E3) as [Km KM].
  destruct (init_scales_frame F3) as (I1 & I2 & _ & I4 & I5).
  destruct (init_scales_rest F3) as (J1 & J2 & J3 & J4 & J5 & J6 & J7 & J8 & J9).
  cbn zeta in *.
  rewrite I2, L1, B0, J1, L2, Bn, Hn, I1, L8, Bd, Hd, length_replicate,
    J2, J3, L4, L5, Br, Bf.
  split; [reflexivity|]. split; [reflexivity|]. split; [reflexivity|].
  split.
  { intros col c Hc. rewrite I1 in Hc. eapply (L9 rows Hal); eassumption. }
  split; [exact Hr|]. intros Hused.
  destruct (Hu Hused) as (U1 & U2 & U3 & U4 & U5 & U6 & U7 & U8).
  unfold estimates_allocated, column_tracked.
  rewrite J1, L2, Bn, Hn, J4, J5, L6, L7, Btl, Bts, J6, J7, J8, J9, I4, I5,
    Km, KM, Kl, Kms, KMs, Kls, Bm, BM, Bl, Bms, BMs, Bls,
    U1, U2, U3, U4, U5, U6, U7, U8.
  split; [repeat split; reflexivity|]. intros col Hc. repeat split; exact Hc.
Qed.

Lemma loaded_segment_is_allocated_witness :
  robust_loaded.(n_rows) = 5 /\ robust_loaded.(n_cols) = 2
  /\ length robust_loaded.(data) = 2
  /\ rows_allocated robust_loaded 5
  /\ (robust_loaded.(robust) = true ->
      (robust_loaded.(filter_type) <= FILTER1D_CONVOLVE)%Z)
  /\ (robust_loaded.(robust)
      || (FILTER1D_CONVOLVE <? robust_loaded.(filter_type))%Z = true ->
      estimates_allocated robust_loaded
      /\ forall col, col < 2 -> column_tracked robust_loaded col).
Proof.
  apply (loaded_segment_is_allocated robust_ctrl [] 2 scenario_series 5
           robust_loaded).
  vm_compute. reflexivity.
Defined.

(** ** An output point that coincides with a sample *)

Section OwnSample.
Context `{GmtLib}.

Lemma tap_of_row_at_output_time F (T t dtq : Q) j :
  F.(dt) = DFin dtq -> ~ (dtq == 0)%Q ->
  time_at F j = DFin t -> (t == T)%Q ->
  tap_index F (DFin T) j = Z.of_nat F.(half_n_f_wts).
Proof.
  intros Hd Hz Ht E. unfold tap_index. rewrite Hd, Ht.
  unfold dsub, dopp, dadd at 2, ddiv. rewrite (Qzero_false _ Hz).
  rewrite (lrint_dfloor_half _ 0); [lia|].
  change (inject_Z 0) with 0%Q. rewrite E. field. exact Hz.
Qed.

(** An output time that is the time of a row of the window holding a
    sample, in a plain convolution without checks. *)
Lemma sample_at_output_time_passes F iq left right k j i (T t dtq : Q) :
  F.(robust) = false ->
  (FILTER1D_CONVOLVE <? F.(filter_type))%Z = false ->
  F.(check_lack) = false -> F.(check_asym) = false -> F.(check_q) = false ->
  F.(half_n_f_wts) < F.(n_f_wts) ->
  F.(dt) = DFin dtq -> ~ (dtq == 0)%Q ->
  rd F.(T_array) k = DFin T ->
  time_at F j = DFin t -> (t == T)%Q ->
  left <= j < right ->
  i < F.(n_cols) -> i <> F.(t_col) ->
  gmt_M_is_dnan (rd2 F.(data) i j) = false ->
  tap_index F (rd F.(T_array) k) j = Z.of_nat F.(half_n_f_wts)
  /\ passing F iq left right k i = true
  /\ exists rec, (filter_point F iq left right k).2 = Some rec.
Proof.
  intros Hr Ht Hl Ha Hq Hn Hd Hz HT Hj E Hw Hi Hne Hs.
  assert (Etap : tap_index F (rd F.(T_array) k) j = Z.of_nat F.(half_n_f_wts)).
  { rewrite HT. apply (tap_of_row_at_output_time F T t dtq j Hd Hz Hj E). }
  assert (Hp : passing F iq left right k i = true).
  { unfold passing.
    destruct (settle_columns_plain F iq left right k i Hr Ht Hi) as [_ ->].
    set (Tk := rd F.(T_array) k) in *. set (rows := window_rows left right).
    assert (Eg : good_one (init_column F left right i) = true).
    { cbn. apply Nat.eqb_neq in Hne. rewrite Hne, Hl. reflexivity. }
    rewrite (convolve_col_good F Tk rows i _ Eg). cbn zeta.
    rewrite conv_gate_good by reflexivity.
    rewrite Ha, Hq. cbn [negb andb n_this_col init_column Nat.add].
    rewrite !andb_true_r.
    assert (Hin : j ∈ present F i (rows_on_taps F Tk rows)).
    { unfold present, rows_on_taps. apply list_elem_of_filter.
      split; [exact Hs|]. apply list_elem_of_filter. split.
      - unfold tap_in_range. rewrite Etap.
        apply andb_true_iff. split; [apply Z.leb_le|apply Z.ltb_lt]; lia.
      - unfold rows, window_rows. apply list_elem_of_In, in_seq. lia. }
    destruct (present F i (rows_on_taps F Tk rows)) as [|x l];
      [inversion Hin|reflexivity]. }
  split; [exact Etap|]. split; [exact Hp|].
  destruct (filter_point_record F iq left right k) as [Hnone _].
  destruct ((filter_point F iq left right k).2) as [rec|] eqn:Er.
  - exists rec. reflexivity.
  - pose proof (proj1 Hnone eq_refl i Hne). congruence.
Qed.

(** X19.  A convolution that is not robust and runs without the lack,
    asymmetry and quality checks always writes a record at an output time
    that is the time of some row of the window holding a sample, whether
    the output is at the input times or not and whichever row of equal time
    it is: the row meets the centre coefficient, and the column of the
    sample passes. *)
Theorem sample_at_output_time_gives_record F iq left right k j i
    (T t dtq : Q) :
  F.(robust) = false ->
  (FILTER1D_CONVOLVE <? F.(filter_type))%Z = false ->
  F.(check_lack) = false -> F.(check_asym) = false -> F.(check_q) = false ->
  F.(half_n_f_wts) < F.(n_f_wts) ->
  F.(dt) = DFin dtq -> ~ (dtq == 0)%Q ->
  rd F.(T_array) k = DFin T ->
  time_at F j = DFin t -> (t == T)%Q ->
  left <= j < right ->
  i < F.(n_cols) -> i <> F.(t_col) ->
  gmt_M_is_dnan (rd2 F.(data) i j) = false ->
  tap_index F (rd F.(T_array) k) j = Z.of_nat F.(half_n_f_wts)
  /\ passing F iq left right k i = true
  /\ exists rec, (filter_point F iq left right k).2 = Some rec.
Proof. apply sample_at_output_time_passes. Qed.

End OwnSample.

(** Output point 0 of the scenario with -T2 lies at time 1, the time of
    row 1. *)
Lemma sample_at_output_time_gives_record_witness :
  tap_index every_two_start.1.1 (rd every_two_start.1.1.(T_array) 0) 1
  = Z.of_nat every_two_start.1.1.(half_n_f_wts)
  /\ @passing TestLib every_two_start.1.1 0 0 3 0 1 = true
  /\ exists rec, (@filter_point TestLib every_two_start.1.1 0 0 3 0).2 = Some rec.
Proof.
  apply (@sample_at_output_time_gives_record TestLib every_two_start.1.1
           0 0 3 0 1 1 (2 # 2) 1 1);
    try reflexivity.
  - cbn. lia.
  - discriminate.
  - lia.
  - cbn. lia.
  - cbn. lia.
Defined.

(** ** A run at the input times without checks *)

Section NativeRun.
Context `{GmtLib}.

Lemma map_ext_elem {A B : Type} (f g : A -> B) (l : list A) :
  (forall x, x ∈ l -> f x = g x) -> map f l = map g l.
Proof.
  induction l as [|x l IH]; intros E; cbn; [reflexivity|].
  rewrite (E x) by (left). rewrite IH; [reflexivity|].
  intros y Hy. apply E. right. exact Hy.
Qed.

(** A loop every turn of which writes a record. *)
Lemma filter_loop_all F0 small iq k0 last_k :
  (forall Fa la ra ka,
     reached F0 small iq k0 last_k Fa la ra ka -> ka <= last_k ->
     exists Fb lb rb rec,
       filter_step Fa small iq la ra ka = Next Fb lb rb (Some rec)
       /\ record_time F0 rec = rd F0.(T_array) ka) ->
  forall turns F left right k out,
    reached F0 small iq k0 last_k F left right k ->
    turns <= S last_k - k ->
    exists F' recs,
      filter_loop turns F small iq left right k out = Finished F' (out ++ recs)
      /\ map (record_time F0) recs = map (rd F0.(T_array)) (seq k turns).
Proof.
  intros Hstep. induction turns as [|turns IH]; intros F left right k out R Hk.
  - exists F, []. rewrite app_nil_r. split; reflexivity.
  - cbn [filter_loop].
    destruct (Hstep F left right k R ltac:(lia)) as (Fb & lb & rb & rec & E & Et).
    rewrite E.
    destruct (IH Fb lb rb (S k) (out ++ [rec])
                (reached_next F0 small iq k0 last_k F left right k Fb lb rb
                   (Some rec) R ltac:(lia) E) ltac:(lia))
      as (F' & recs & E' & Em).
    exists F', (rec :: recs). rewrite <- app_assoc in E'.
    split; [exact E'|]. cbn [map seq]. rewrite Et, Em. reflexivity.
Qed.

(** X21.  A convolution that is not robust, run at the input times with
    one width and none of the lack, asymmetry and quality checks, writes one
    record for every output point, at the time of the point, as soon as one
    data column holds a sample in every row: no output point is lost. *)
Theorem native_run_writes_every_point F (tq : nat -> Q) (hw dtq : Q) i :
  plain_native F ->
  times_finite F tq -> times_sorted F tq -> 2 <= F.(n_rows) ->
  F.(half_width) = DFin hw -> (0 <= hw)%Q ->
  F.(dt) = DFin dtq -> ~ (dtq == 0)%Q ->
  F.(half_n_f_wts) < F.(n_f_wts) ->
  F.(t_col) < F.(n_cols) -> i < F.(n_cols) -> i <> F.(t_col) ->
  (forall r, r < F.(n_rows) -> gmt_M_is_dnan (rd2 F.(data) i r) = false) ->
  exists F0 k0 last_k F' records,
    output_plan F = Some (F0, k0, last_k)
    /\ filter1d_do_the_filter F = Finished F' records
    /\ map (record_time F) records
       = map (fun k => DFin (tq k)) (seq k0 (S last_k - k0)).
Proof.
  intros (Ho & Hv & Hr & Ht & Hl & Ha & Hq) Tf Ts Hn Ehw Hhw Edt Hdt Htap
    Htc Hi Hne Hs.
  unfold filter1d_do_the_filter, output_plan. rewrite Ho.
  set (k0 := first_k _ _ _ _).
  set (last_k := find_last_k _ _ _).
  set (iq := u64 _).
  set (Fs := set_T_array (take F.(n_rows) (time_column F)) F).
  assert (Hlast : last_k < n_rows F).
  { pose proof (find_last_k_le (time_column F) (t_stop F) (n_rows F - 1)) as L.
    fold last_k in L. lia. }
  assert (ET : forall k, k < n_rows F -> rd (T_array Fs) k = DFin (tq k)).
  { intros k Hk. cbn [T_array set_T_array Fs]. unfold rd.
    rewrite lookup_total_take_lt by exact Hk.
    change (time_column F !!! k) with (rd (time_column F) k).
    rewrite rd_time_column. apply Tf. exact Hk. }
  set (sm := scan_tolerance tq).
  assert (Esm : window_tolerance Fs = DFin sm).
  { unfold window_tolerance. rewrite (ET 1), (ET 0) by lia. reflexivity. }
  assert (Hsm : (0 <= sm)%Q).
  { pose proof (Ts 0 1 ltac:(lia) ltac:(lia)) as L.
    unfold sm, scan_tolerance. apply Qmult_le_0_compat; lra. }
  rewrite Esm.
  assert (Tfs : times_finite Fs tq) by exact Tf.
  assert (Tss : times_sorted Fs tq) by exact Ts.
  assert (Os : outputs_sorted Fs tq last_k).
  { split.
    - intros k Hk. apply ET. lia.
    - intros k Hk. apply Ts; lia. }
  assert (Hstep : forall Fa la ra ka,
            reached Fs (DFin sm) iq k0 last_k Fa la ra ka -> ka <= last_k ->
            exists Fb lb rb rec,
              filter_step Fa (DFin sm) iq la ra ka = Next Fb lb rb (Some rec)
              /\ record_time Fs rec = rd Fs.(T_array) ka).
  { intros Fa la ra ka R Hka.
    destruct (reached_fixed_width Fs sm iq k0 last_k tq tq hw Fa la ra ka
                Hv Tfs Tss Ehw Os R) as [Ca Pa].
    specialize (Pa Hka). change (n_rows Fs) with (n_rows F) in Pa.
    assert (Hk : ka < n_rows F) by lia.
    assert (En : n_rows Fa = n_rows F) by exact (f_equal n_rows Ca).
    assert (Tfa : times_finite Fa tq)
      by (apply (times_finite_config Fs Fa tq Ca); exact Tfs).
    assert (Tsa : times_sorted Fa tq)
      by (apply (times_sorted_config Fs Fa tq Ca); exact Tss).
    assert (Ehwa : half_width Fa = DFin hw)
      by (rewrite <- Ehw; exact (f_equal half_width Ca)).
    assert (ETa : rd (T_array Fa) ka = DFin (tq ka)).
    { rewrite (f_equal T_array Ca : T_array Fa = T_array Fs). apply ET, Hk. }
    rewrite <- En in Pa.
    pose proof (window_exact Fa tq hw sm (tq ka) Tfa Tsa Ehwa la ra Pa) as Wx.
    cbn zeta in Wx. destruct Wx as [_ Wx].
    assert (Hown : in_window Fa (DFin sm) (DFin (tq ka)) ka = true).
    { apply (in_window_iff Fa tq hw sm (tq ka) Tfa Ehwa ka); [lia|].
      split; lra. }
    apply (Wx ka ltac:(lia)) in Hown.
    assert (Hva : variable Fa = false)
      by (rewrite <- Hv; exact (f_equal variable Ca)).
    assert (Hla : check_lack Fa = false)
      by (rewrite <- Hl; exact (f_equal check_lack Ca)).
    unfold filter_step. rewrite Hva.
    unfold filter_window. rewrite ETa.
    set (l' := advance_left _ _ _ _ _) in *.
    set (r' := advance_right _ _ _ _ _) in *.
    rewrite Hla. rewrite andb_false_l, orb_false_r.
    destruct (Z.leb_spec (Z.of_nat r' - Z.of_nat l') 0) as [Hz|_]; [lia|].
    destruct (sample_at_output_time_passes Fa iq l' r' ka ka i (tq ka) (tq ka)
                dtq)
      as (_ & _ & rec & Er); try assumption; try reflexivity.
    { rewrite (f_equal robust Ca : robust Fa = robust Fs). exact Hr. }
    { rewrite (f_equal filter_type Ca : filter_type Fa = filter_type Fs).
      exact Ht. }
    { rewrite (f_equal check_asym Ca : check_asym Fa = check_asym Fs).
      exact Ha. }
    { rewrite (f_equal check_q Ca : check_q Fa = check_q Fs). exact Hq. }
    { rewrite (f_equal half_n_f_wts Ca : half_n_f_wts Fa = half_n_f_wts Fs),
        (f_equal n_f_wts Ca : n_f_wts Fa = n_f_wts Fs). exact Htap. }
    { rewrite (f_equal dt Ca : dt Fa = dt Fs). exact Edt. }
    { apply Tfa. lia. }
    { rewrite (f_equal n_cols Ca : n_cols Fa = n_cols Fs). exact Hi. }
    { rewrite (f_equal t_col Ca : t_col Fa = t_col Fs). exact Hne. }
    { rewrite (f_equal data Ca : data Fa = data Fs). apply Hs. exact Hk. }
    destruct (filter_point_record Fa iq l' r' ka) as [_ Hrec].
    destruct (Hrec rec Er) as (_ & Htime & _).
    destruct (filter_point Fa iq l' r' ka) as [Fb rec'] eqn:Efp.
    cbn [snd] in Er. subst rec'.
    exists Fb, l', r', rec. split; [reflexivity|].
    unfold record_time, rd.
    rewrite (f_equal t_col Ca : t_col Fa = t_col Fs),
      (f_equal n_cols Ca : n_cols Fa = n_cols Fs) in Htime.
    rewrite (list_lookup_total_correct _ _ _ (Htime Htc)).
    rewrite ETa. symmetry. apply ET, Hk. }
  destruct (filter_loop_all Fs (DFin sm) iq k0 last_k Hstep
              (S last_k - k0) Fs 0 0 k0 []
              (reached_first Fs (DFin sm) iq k0 last_k) ltac:(lia))
    as (F' & recs & Erun & Em).
  exists Fs, k0, last_k, F', recs. split; [reflexivity|].
  split; [exact Erun|].
  change (record_time F) with (record_time Fs). rewrite Em.
  apply map_ext_elem. intros k Hk. apply ET.
  apply list_elem_of_In, in_seq in Hk. lia.
Qed.

End NativeRun.

Lemma native_run_writes_every_point_witness :
  exists F0 k0 last_k F' records,
    @output_plan TestLib scenario_prepared = Some (F0, k0, last_k)
    /\ @filter1d_do_the_filter TestLib scenario_prepared = Finished F' records
    /\ map (record_time scenario_prepared) records
       = map (fun k => DFin (tq_nat k)) (seq k0 (S last_k - k0)).
Proof.
  apply (@native_run_writes_every_point TestLib scenario_prepared tq_nat
           (2 # 2) 1 1).
  - repeat split; reflexivity.
  - exact scenario_prepared_times.
  - apply tq_nat_sorted.
  - cbn. lia.
  - reflexivity.
  - discriminate.
  - reflexivity.
  - discriminate.
  - cbn. lia.
  - cbn. lia.
  - cbn. lia.
  - cbn. lia.
  - intros r Hr. do 5 (destruct r as [|r]; [reflexivity|]). cbn in Hr. lia.
Defined.
